(** * OSS-Fuzz coverage analysis: a shallow embedding of
      [src/oss_fuzz_analysis/analyzer.py]

    The Python module is a five-stage pipeline over small in-memory tables:
    [fetch_project_metadata], [fetch_project_data], [analyze_project_data],
    [plot_coverage_trends] and [main].  Its functions are embedded below
    under their own names.

    Modelling decisions.
    - Numbers.  pandas computes in float64.  Finite numbers are exact
      rationals ([Q]); the non-finite float results that the arithmetic of
      the module can produce ([NaN], [+inf], [-inf]) are constructors of
      [fval].  Rounding and the sign of zero are not modelled, so an
      equation "within floating-point tolerance" is an equation on [Q]
      ([Qeq]).  Where rounding decides a property, the computation is also
      given in binary64 itself, on Rocq's primitive floats: [mean64] is
      [Series.mean()] with the rounding of every addition and of the
      division.
    - Tables.  A crash table is the list of its rows.  A coverage table is
      the list of its [date]/[coverage] rows plus the optional derived
      column [growth_rate] (absent until somebody assigns it).  A cell of
      the [date] column is a string or, after [pd.to_datetime], a
      timestamp; the [coverage] column holds finite numbers, as in the
      tables of the Data Provider and of the test fixtures.
    - Sharing.  A coverage [DataFrame] is a mutable Python object:
      [project_data[p]["coverage"]] is a reference into a store of frames,
      [df[col] = ...] updates the store in place and [.copy()] allocates.
      Crash tables are never assigned to by any function of the module and
      are kept by value.
    - Effects.  Every function runs in a state-and-exception monad over
      the store and the trace of outside effects (HTTP requests, the chart
      image, the report file).  The answers of the outside world
      ([requests.get], the file system) are parameters. *)

From Stdlib Require Import QArith Qminmax ZArith Lia Lqa Ascii String.
From Stdlib Require PrimFloat.
From stdpp Require Import base option list strings pretty gmap sorting.

Set Warnings "-clear-no-such-hyp".

Open Scope string_scope.
Open Scope nat_scope.
Open Scope list_scope.

(** ** Float values *)

Inductive fval : Type :=
  | NaN
  | Inf (neg : bool)
  | Fin (q : Q).

Definition Qneg (q : Q) : bool := (Qnum q <? 0)%Z.
Definition Qzero (q : Q) : bool := (Qnum q =? 0)%Z.

Definition fsub (x y : fval) : fval :=
  match x, y with
  | NaN, _ | _, NaN => NaN
  | Inf a, Inf b => if Bool.eqb a b then NaN else Inf a
  | Inf a, Fin _ => Inf a
  | Fin _, Inf b => Inf (negb b)
  | Fin p, Fin q => Fin (p - q)
  end.

Definition fmul (x y : fval) : fval :=
  match x, y with
  | NaN, _ | _, NaN => NaN
  | Inf a, Inf b => Inf (xorb a b)
  | Inf a, Fin q => if Qzero q then NaN else Inf (xorb a (Qneg q))
  | Fin p, Inf b => if Qzero p then NaN else Inf (xorb (Qneg p) b)
  | Fin p, Fin q => Fin (p * q)
  end.

(** Division by zero follows float64 for the divisor [+0.0]: the model has
    one zero, and the float [-0.0] as a divisor (which gives the infinity
    of the opposite sign) is outside it. *)
Definition fdiv (x y : fval) : fval :=
  match x, y with
  | NaN, _ | _, NaN => NaN
  | Inf _, Inf _ => NaN
  | Inf a, Fin q => Inf (xorb a (Qneg q))
  | Fin _, Inf _ => Fin 0
  | Fin p, Fin q =>
      if Qzero q then (if Qzero p then NaN else Inf (Qneg p))
      else Fin (p / q)
  end.

(** Equality of float results up to the representation of the rational. *)
Definition feq (x y : fval) : Prop :=
  match x, y with
  | NaN, NaN => True
  | Inf a, Inf b => a = b
  | Fin p, Fin q => (p == q)%Q
  | _, _ => False
  end.

(** ** Series operations used by the Analyzer *)

(** [Series.mean()]: the sum over the count; [NaN] on an empty series.
    [mean] is the value in exact arithmetic, which the float64 result
    approximates; [mean64] below is the float64 result itself. *)
Definition Qsum (l : list Q) : Q := foldr Qplus 0%Q l.

Definition mean (l : list Q) : fval :=
  match l with
  | [] => NaN
  | _ => Fin (Qsum l / inject_Z (Z.of_nat (length l)))
  end.

(** *** The mean in binary64

    The cells of the [coverage] column are float64 numbers (integers are
    cast to float64 before they are added).  [to_float64 q] is the cell of
    value [q]: the quotient of numerator and denominator, rounded once to
    nearest; it is [q] itself when [q] is a float64 number.  The integers
    are converted bit by bit, which is exact below [2^53]. *)
Fixpoint float_of_pos (p : positive) : PrimFloat.float :=
  match p with
  | xH => PrimFloat.one
  | xO p => PrimFloat.mul PrimFloat.two (float_of_pos p)
  | xI p =>
      PrimFloat.add (PrimFloat.mul PrimFloat.two (float_of_pos p)) PrimFloat.one
  end.

Definition float_of_Z (z : Z) : PrimFloat.float :=
  match z with
  | Z0 => PrimFloat.zero
  | Zpos p => float_of_pos p
  | Zneg p => PrimFloat.opp (float_of_pos p)
  end.

Definition to_float64 (q : Q) : PrimFloat.float :=
  PrimFloat.div (float_of_Z (Qnum q)) (float_of_pos (Qden q)).

(** The float64 sum of a column, every addition rounded to nearest, and
    the number of its rows as a float.  The values are added from the first
    row to the last; numpy adds a column of eight or more rows in blocks,
    which gives another result only where a partial sum is rounded. *)
Definition sum64 (l : list PrimFloat.float) : PrimFloat.float :=
  foldl PrimFloat.add PrimFloat.zero l.

Definition count64 {A} (l : list A) : PrimFloat.float :=
  foldl (fun c _ => PrimFloat.add c PrimFloat.one) PrimFloat.zero l.

(** [float(coverage_df["coverage"].mean())] in float64: the rounded sum
    divided by the count, [nan] on an empty column. *)
Definition mean64 (col : list Q) : PrimFloat.float :=
  match col with
  | [] => PrimFloat.nan
  | _ => PrimFloat.div (sum64 (to_float64 <$> col)) (count64 col)
  end.

(** [Series.shift(1)]: every value moves one row down, the first row
    becomes missing and the last value falls off. *)
Definition shift (l : list fval) : list fval := take (length l) (NaN :: l).

(** [Series.pct_change()] is [data / data.shift(1) - 1]. *)
Definition pct_change (l : list Q) : list fval :=
  let data := Fin <$> l in
  zip_with (fun cur prev => fsub (fdiv cur prev) (Fin 1)) data (shift data).

(** [series * 100]. *)
Definition times100 (l : list fval) : list fval :=
  (fun x => fmul x (Fin 100)) <$> l.

(** [Series.unique()] keeps the first occurrence of each value, scanning
    with the table of the values already seen; [nunique] counts them. *)
Fixpoint unique_from (seen : list string) (l : list string) : list string :=
  match l with
  | [] => []
  | x :: r =>
      if decide (x ∈ seen) then unique_from seen r
      else x :: unique_from (x :: seen) r
  end.

Definition unique (l : list string) : list string := unique_from [] l.
Definition nunique (l : list string) : nat := length (unique l).

(** ** Exceptions and results *)

Abbreviation loc := nat (only parsing).

Inductive exn : Type :=
  | KeyError (key : string)
  | ValueError (arg : string)
  | TypeError (what : string)
  | RequestException (url : string)
  | JSONDecodeError (url : string)
  | IOError (path : string)
  | DanglingReference (l : loc).

Inductive result (A : Type) : Type :=
  | Ok (a : A)
  | Raise (e : exn).
Arguments Ok {A} a.
Arguments Raise {A} e.

Global Instance result_ret : MRet result := fun A (a : A) => Ok a.

Global Instance result_bind : MBind result := fun A B (f : A -> result B) r =>
  match r with
  | Ok a => f a
  | Raise e => Raise e
  end.

(** [[f(x) for x in l]] for an [f] that may raise. *)
Fixpoint traverse {A B} (f : A -> result B) (l : list A) : result (list B) :=
  match l with
  | [] => Ok []
  | x :: r => y ← f x; ys ← traverse f r; mret (y :: ys)
  end.

(** ** Dates *)

Record Timestamp : Type := mkTimestamp {
  year : nat;
  month : nat;
  day : nat
}.

(** A cell of a [date] column. *)
Inductive DateCell : Type :=
  | DateStr (s : string)
  | DateTime (t : Timestamp).

Definition digit_of (c : ascii) : option nat :=
  let n := nat_of_ascii c in
  if (48 <=? n) && (n <=? 57) then Some (n - 48) else None.

Fixpoint number_of (acc : nat) (s : string) : option nat :=
  match s with
  | EmptyString => Some acc
  | String c r => d ← digit_of c; number_of (10 * acc + d) r
  end.

Fixpoint split_on (sep : ascii) (s : string) : list string :=
  match s with
  | EmptyString => [EmptyString]
  | String c r =>
      if Ascii.eqb c sep then EmptyString :: split_on sep r
      else match split_on sep r with
           | [] => [String c EmptyString]
           | f :: fs => String c f :: fs
           end
  end.

(** The directive [%m]: one or two digits denoting 1 to 12. *)
Definition field_month (f : string) : option nat :=
  n ← number_of 0 f;
  if (1 <=? String.length f) && (String.length f <=? 2)
     && (1 <=? n) && (n <=? 12)
  then Some n else None.

(** The directive [%d]: one or two digits denoting 1 to 31, or a space and
    one digit. *)
Definition field_day (f : string) : option nat :=
  let f' := match f with
            | String " " (String c EmptyString) => String c EmptyString
            | _ => f
            end in
  n ← number_of 0 f';
  if (1 <=? String.length f') && (String.length f' <=? 2)
     && (1 <=? n) && (n <=? 31)
  then Some n else None.

(** The directive [%Y]: exactly four digits. *)
Definition field_year (f : string) : option nat :=
  n ← number_of 0 f;
  if (String.length f =? 4) && (1 <=? n) then Some n else None.

Definition leap_year (y : nat) : bool :=
  ((y mod 4 =? 0) && negb (y mod 100 =? 0)) || (y mod 400 =? 0).

Definition days_in_month (y m : nat) : nat :=
  match m with
  | 2 => if leap_year y then 29 else 28
  | 4 | 6 | 9 | 11 => 30
  | _ => 31
  end.

(** [strptime(s, "%d-%m-%Y")] on the calendar; the bounds of pandas'
    nanosecond representation of timestamps are not modelled. *)
Definition strptime (s : string) : option Timestamp :=
  match split_on "-" s with
  | [d; m; y] =>
      d ← field_day d; m ← field_month m; y ← field_year y;
      if d <=? days_in_month y m then Some (mkTimestamp y m d) else None
  | _ => None
  end.

(** [pd.to_datetime(cell, format="%d-%m-%Y")] on a cell that is a timestamp
    or a string to be read with the format.  pandas does not read every
    string with the format: the empty string and its markers of a missing
    value become the missing timestamp [NaT], and the words for the
    current time become the time of the call.  The model has neither; these
    strings are listed in [special_dates] below, and the statements about
    the parsing of dates exclude them. *)
Definition to_datetime (c : DateCell) : result Timestamp :=
  match c with
  | DateTime t => Ok t
  | DateStr s =>
      match strptime s with
      | Some t => Ok t
      | None => Raise (ValueError s)
      end
  end.

Definition pad (width : nat) (n : nat) : string :=
  let s := pretty n in
  String.concat "" (replicate (width - String.length s) "0") +:+ s.

(** [astype(str)] on a cell: a string stays, a timestamp prints as
    [YYYY-MM-DD]. *)
Definition astype_str (c : DateCell) : string :=
  match c with
  | DateStr s => s
  | DateTime t => pad 4 (year t) +:+ "-" +:+ pad 2 (month t) +:+ "-" +:+ pad 2 (day t)
  end.

Definition ts_le (a b : Timestamp) : bool :=
  (year a <? year b)
  || ((year a =? year b)
      && ((month a <? month b)
          || ((month a =? month b) && (day a <=? day b)))).

(** [a <= b] on cells; Python refuses to compare a string with a
    timestamp. *)
Definition cell_le (a b : DateCell) : result bool :=
  match a, b with
  | DateTime x, DateTime y => Ok (ts_le x y)
  | DateStr x, DateStr y => Ok (String.leb x y)
  | _, _ => Raise (TypeError "'<' not supported between str and Timestamp")
  end.

(** ** Tables *)

Record CrashEvent : Type := mkCrash {
  crash_date : string;
  crash_hash : string;
  crash_type : string
}.

Definition CrashFrame : Type := list CrashEvent.

Record CoverageSample : Type := mkSample {
  date : DateCell;
  coverage : Q
}.

(** A coverage [DataFrame]: the columns [date] and [coverage] row by row,
    and the column [growth_rate] once it has been assigned. *)
Record DataFrame : Type := mkFrame {
  samples : list CoverageSample;
  growth_rate : option (list fval)
}.

(** [pd.DataFrame(rows)] for a non-empty list of rows with the keys [date]
    and [coverage].  (From an empty list pandas builds a frame without
    columns; every frame of the model has the two columns.) *)
Definition new_frame (rows : list CoverageSample) : DataFrame :=
  {| samples := rows; growth_rate := None |}.

Definition columns (df : DataFrame) : list string :=
  match growth_rate df with
  | None => ["date"; "coverage"]
  | Some _ => ["date"; "coverage"; "growth_rate"]
  end.

(** One row of [df.to_dict(orient="records")]; [rec_growth_rate] is [None]
    when the frame has no such column (the key is absent from the row). *)
Record Row : Type := mkRow {
  rec_date : DateCell;
  rec_coverage : Q;
  rec_growth_rate : option fval
}.

Definition to_dict_records (df : DataFrame) : list Row :=
  match growth_rate df with
  | None => (fun s => mkRow (date s) (coverage s) None) <$> samples df
  | Some g =>
      zip_with (fun s x => mkRow (date s) (coverage s) (Some x)) (samples df) g
  end.

(** [df["growth_rate"] = g] *)
Definition set_growth_rate (df : DataFrame) (g : list fval) : DataFrame :=
  {| samples := samples df; growth_rate := Some g |}.

(** [df["date"] = d] *)
Definition set_date (df : DataFrame) (d : list DateCell) : DataFrame :=
  {| samples := zip_with (fun s x => mkSample x (coverage s)) (samples df) d;
     growth_rate := growth_rate df |}.

(** [df.sort_values("date")]: the rows, each with its [growth_rate] cell,
    in ascending order of [date].  Rows with equal dates keep their
    relative order here; numpy's default sort does so on tables of at most
    16 rows (where it is an insertion sort) and promises nothing on longer
    ones, so the statements below speak of the order of the dates only,
    never of the order of rows with equal dates. *)
Definition SortRow : Type := CoverageSample * option fval.

Fixpoint insert_row (x : SortRow) (l : list SortRow) : result (list SortRow) :=
  match l with
  | [] => Ok [x]
  | y :: r =>
      b ← cell_le (date x.1) (date y.1);
      if b : bool then Ok (x :: y :: r)
      else (r' ← insert_row x r; mret (y :: r'))
  end.

Fixpoint sort_rows (l : list SortRow) : result (list SortRow) :=
  match l with
  | [] => Ok []
  | x :: r => r' ← sort_rows r; insert_row x r'
  end.

Definition frame_rows (df : DataFrame) : list SortRow :=
  match growth_rate df with
  | None => (fun s => (s, None)) <$> samples df
  | Some g => zip_with (fun s x => (s, Some x)) (samples df) g
  end.

Definition frame_of_rows (has_growth : bool) (rows : list SortRow) : DataFrame :=
  {| samples := fst <$> rows;
     growth_rate :=
       if has_growth then Some ((fun r => default NaN r.2) <$> rows) else None |}.

Definition sort_values_date (df : DataFrame) : result DataFrame :=
  rows ← sort_rows (frame_rows df);
  mret (frame_of_rows (bool_decide (is_Some (growth_rate df))) rows).

(** ** Python dictionaries with string keys

    Insertion-ordered: assigning to an existing key keeps its position,
    assigning to a new key appends. *)

Definition dict (V : Type) : Type := list (string * V).

Fixpoint dict_get {V} (d : dict V) (k : string) : option V :=
  match d with
  | [] => None
  | (k', v) :: r => if decide (k' = k) then Some v else dict_get r k
  end.

Fixpoint dict_set {V} (d : dict V) (k : string) (v : V) : dict V :=
  match d with
  | [] => [(k, v)]
  | (k', v') :: r =>
      if decide (k' = k) then (k, v) :: r else (k', v') :: dict_set r k v
  end.

Definition keys {V} (d : dict V) : list string := fst <$> d.

(** ** JSON values, as [response.json()] returns and [json.dump] writes *)

#[warnings="-register-all"]
Inductive Json : Type :=
  | JNull
  | JBool (b : bool)
  | JNum (x : fval)
  | JStr (s : string)
  | JList (l : list Json)
  | JDict (d : list (string * Json)).

(** ** The store, the trace and the monad *)

Inductive Event : Type :=
  | HttpGet (url : string)
  | SaveFig (path : string) (series : list (string * list (DateCell * Q)))
  | OpenFile (path : string)
  | WriteFile (path : string) (content : Json).

Record State : Type := mkState {
  heap : list DataFrame;
  trace : list Event
}.

Definition M (A : Type) : Type := State -> result A * State.

Global Instance M_ret : MRet M := fun A (a : A) s => (Ok a, s).

Global Instance M_bind : MBind M := fun A B (f : A -> M B) (m : M A) s =>
  match m s with
  | (Ok a, s') => f a s'
  | (Raise e, s') => (Raise e, s')
  end.

Definition raise {A} (e : exn) : M A := fun s => (Raise e, s).

Definition lift {A} (r : result A) : M A := fun s => (r, s).

Definition alloc (df : DataFrame) : M loc :=
  fun s => (Ok (length (heap s)),
            {| heap := heap s ++ [df]; trace := trace s |}).

Definition deref (l : loc) : M DataFrame :=
  fun s =>
    match heap s !! l with
    | Some df => (Ok df, s)
    | None => (Raise (DanglingReference l), s)
    end.

Definition modify (l : loc) (f : DataFrame -> DataFrame) : M unit :=
  fun s =>
    match heap s !! l with
    | Some df => (Ok tt, {| heap := <[l := f df]> (heap s); trace := trace s |})
    | None => (Raise (DanglingReference l), s)
    end.

(** [df.copy()]: a new frame with the same contents. *)
Definition copy (l : loc) : M loc := df ← deref l; alloc df.

Definition emit (e : Event) : M unit :=
  fun s => (Ok tt, {| heap := heap s; trace := trace s ++ [e] |}).

(** ** Data Provider: [fetch_project_data] *)

(** What [project_data[p]] holds: the crash table and the reference to the
    coverage frame. *)
Record ProjectTables : Type := mkTables {
  crashes : CrashFrame;
  coverage_df : loc
}.

Definition coverage_base : dict Z :=
  [("zlib", 70%Z); ("libpng", 75%Z); ("openssl", 65%Z)].

Definition crash_data : list CrashEvent :=
  [ mkCrash "15-01-2025" "mno345" "null-pointer";
    mkCrash "28-01-2025" "pqr678" "division-by-zero";
    mkCrash "31-01-2025" "jkl012" "integer-overflow";
    mkCrash "10-02-2025" "stu901" "buffer-overflow";
    mkCrash "20-02-2025" "vwx234" "race-condition";
    mkCrash "25-02-2025" "ghi789" "stack-overflow";
    mkCrash "06-03-2025" "def456" "use-after-free";
    mkCrash "06-03-2025" "abc123" "heap-overflow";
    mkCrash "15-03-2025" "abc123" "heap-overflow" ].

Definition coverage_data (base : Z) : list CoverageSample :=
  [ mkSample (DateStr "15-01-2025") (inject_Z base);
    mkSample (DateStr "28-01-2025") (inject_Z (base + 3));
    mkSample (DateStr "31-01-2025") (inject_Z (base + 5));
    mkSample (DateStr "10-02-2025") (inject_Z (base + 7));
    mkSample (DateStr "20-02-2025") (inject_Z (base + 10));
    mkSample (DateStr "25-02-2025") (inject_Z (base + 12));
    mkSample (DateStr "06-03-2025") (inject_Z (base + 15));
    mkSample (DateStr "06-03-2025") (inject_Z (base + 17));
    mkSample (DateStr "15-03-2025") (inject_Z (base + 20)) ].

(** The body of the [for project in project_names] loop. *)
Definition fetch_project (project_data : dict ProjectTables) (project : string)
  : M (dict ProjectTables) :=
  match dict_get coverage_base project with
  | None => raise (KeyError project)
  | Some base =>
      cov ← alloc (new_frame (coverage_data base));
      mret (dict_set project_data project
              {| crashes := crash_data; coverage_df := cov |})
  end.

Fixpoint fetch_loop (project_names : list string)
    (project_data : dict ProjectTables) : M (dict ProjectTables) :=
  match project_names with
  | [] => mret project_data
  | project :: rest =>
      project_data' ← fetch_project project_data project;
      fetch_loop rest project_data'
  end.

Definition fetch_project_data (project_names : list string)
  : M (dict ProjectTables) :=
  fetch_loop project_names [].

(** ** Analyzer: [analyze_project_data] *)

Record Analysis : Type := mkAnalysis {
  unique_crashes : nat;
  avg_coverage : fval;
  coverage_trend : list Row
}.

(** The body of the [for project, data in project_data.items()] loop.
    [coverage_df] is the stored frame itself, so both column assignments
    write to the store. *)
Definition analyze_project (analysis : dict Analysis)
    (project : string) (data : ProjectTables) : M (dict Analysis) :=
  let unique_crashes := nunique (crash_hash <$> crashes data) in
  let coverage_df := coverage_df data in
  df ← deref coverage_df;
  let avg_coverage := mean (coverage <$> samples df) in
  df ← deref coverage_df;
  modify coverage_df
    (fun f => set_growth_rate f (times100 (pct_change (coverage <$> samples df))));;
  df ← deref coverage_df;
  modify coverage_df
    (fun f => set_date f (DateStr <$> (astype_str <$> (date <$> samples df))));;
  df ← deref coverage_df;
  mret (dict_set analysis project
          {| unique_crashes := unique_crashes;
             avg_coverage := avg_coverage;
             coverage_trend := to_dict_records df |}).

Fixpoint analyze_loop (items : list (string * ProjectTables))
    (analysis : dict Analysis) : M (dict Analysis) :=
  match items with
  | [] => mret analysis
  | (project, data) :: rest =>
      analysis' ← analyze_project analysis project data;
      analyze_loop rest analysis'
  end.

Definition analyze_project_data (project_data : dict ProjectTables)
  : M (dict Analysis) :=
  analyze_loop project_data [].

(** ** The outside world *)

(** What [requests.get] returns: the status code and the outcome of
    [response.json()], which raises when the body is not JSON. *)
Record Response : Type := mkResponse {
  status_code : Z;
  response_json : result Json
}.

(** The answers of the network and of the file system, and the directory of
    the module ([os.path.dirname(__file__)]). *)
Record World : Type := mkWorld {
  requests_get : string -> result Response;
  writable : string -> bool;
  module_dir : string
}.

Fixpoint ends_with_slash (s : string) : bool :=
  match s with
  | EmptyString => false
  | String c EmptyString => Ascii.eqb c "/"
  | String _ r => ends_with_slash r
  end.

Definition os_path_join (a b : string) : string :=
  match a with
  | EmptyString => b
  | _ => if ends_with_slash a then a +:+ b else a +:+ "/" +:+ b
  end.

(** ** Serialisation of the report *)

(** What [raw_data[p]] holds: the rows of both tables. *)
Record RawTables : Type := mkRaw {
  raw_crashes : list CrashEvent;
  raw_coverage : list Row
}.

Record Report : Type := mkReport {
  metadata : dict Json;
  analysis : dict Analysis;
  raw_data : dict RawTables
}.

Definition json_of_date (c : DateCell) : result Json :=
  match c with
  | DateStr s => Ok (JStr s)
  | DateTime _ =>
      Raise (TypeError "Object of type Timestamp is not JSON serializable")
  end.

Definition json_of_row (r : Row) : result Json :=
  d ← json_of_date (rec_date r);
  mret (JDict ([("date", d); ("coverage", JNum (Fin (rec_coverage r)))]
               ++ match rec_growth_rate r with
                  | None => []
                  | Some g => [("growth_rate", JNum g)]
                  end)).

Definition json_of_crash (c : CrashEvent) : Json :=
  JDict [("date", JStr (crash_date c));
         ("crash_hash", JStr (crash_hash c));
         ("type", JStr (crash_type c))].

Definition json_of_analysis (a : Analysis) : result Json :=
  trend ← traverse json_of_row (coverage_trend a);
  mret (JDict [("unique_crashes",
                JNum (Fin (inject_Z (Z.of_nat (unique_crashes a)))));
               ("avg_coverage", JNum (avg_coverage a));
               ("coverage_trend", JList trend)]).

Definition json_of_raw (r : RawTables) : result Json :=
  cov ← traverse json_of_row (raw_coverage r);
  mret (JDict [("crashes", JList (json_of_crash <$> raw_crashes r));
               ("coverage", JList cov)]).

Definition json_of_dict {V} (f : V -> result Json) (d : dict V) : result Json :=
  kvs ← traverse (fun kv => j ← f kv.2; mret (kv.1, j)) d;
  mret (JDict kvs).

Definition json_of_report (r : Report) : result Json :=
  a ← json_of_dict json_of_analysis (analysis r);
  raw ← json_of_dict json_of_raw (raw_data r);
  mret (JDict [("metadata", JDict (metadata r));
               ("analysis", a);
               ("raw_data", raw)]).

Section Pipeline.

Context (world : World).

(** ** Metadata Fetcher: [fetch_project_metadata] *)

Definition http_get (url : string) : M Response :=
  emit (HttpGet url);; lift (requests_get world url).

Definition project_url (project : string) : string :=
  "https://api.github.com/repos/google/oss-fuzz/contents/projects/" +:+ project.

(** The body of the [for project in project_names] loop. *)
Definition fetch_metadata (metadata : dict Json) (project : string)
  : M (dict Json) :=
  let url := project_url project in
  response ← http_get url;
  if decide (status_code response = 200%Z) then
    body ← lift (response_json response);
    mret (dict_set metadata project body)
  else
    mret (dict_set metadata project
            (JDict [("error", JStr "Project not found")])).

Fixpoint metadata_loop (project_names : list string) (metadata : dict Json)
  : M (dict Json) :=
  match project_names with
  | [] => mret metadata
  | project :: rest =>
      metadata' ← fetch_metadata metadata project;
      metadata_loop rest metadata'
  end.

Definition fetch_project_metadata (project_names : list string)
  : M (dict Json) :=
  metadata_loop project_names [].

(** ** Trend Renderer: [plot_coverage_trends] *)

(** The lines drawn so far on the current figure. *)
Definition Figure : Type := list (string * list (DateCell * Q)).

(** The body of the [for project in project_names] loop: [df] is first the
    copy, then the sorted frame that [sort_values] returns. *)
Definition plot_project (project_data : dict ProjectTables) (figure : Figure)
    (project : string) : M Figure :=
  match dict_get project_data project with
  | None => raise (KeyError project)
  | Some tables =>
      df ← copy (coverage_df tables);
      f ← deref df;
      ts ← lift (traverse to_datetime (date <$> samples f));
      modify df (fun f => set_date f (DateTime <$> ts));;
      f ← deref df;
      sorted ← lift (sort_values_date f);
      df ← alloc sorted;
      f ← deref df;
      mret (figure ++ [(project, (fun s => (date s, coverage s)) <$> samples f)])%list
  end.

Fixpoint plot_loop (project_data : dict ProjectTables)
    (project_names : list string) (figure : Figure) : M Figure :=
  match project_names with
  | [] => mret figure
  | project :: rest =>
      figure' ← plot_project project_data figure project;
      plot_loop project_data rest figure'
  end.

(** [plt.savefig(output_path)].  The failure modelled is that of the file
    system; an error of matplotlib itself while it lays out the figure is
    not. *)
Definition savefig (path : string) (figure : Figure) : M unit :=
  if writable world path then emit (SaveFig path figure)
  else raise (IOError path).

Definition plot_coverage_trends (project_data : dict ProjectTables)
    (project_names : list string) : M unit :=
  figure ← plot_loop project_data project_names [];
  let output_path :=
    os_path_join (module_dir world) "../../outputs/coverage_trends.png" in
  savefig output_path figure.

(** ** Report Writer and Orchestrator: [main] *)

(** The body of the [for p, d in project_data.items()] loop. *)
Definition raw_project (raw_data : dict RawTables) (p : string)
    (d : ProjectTables) : M (dict RawTables) :=
  let crashes_df := crashes d in
  coverage_df ← copy (coverage_df d);
  f ← deref coverage_df;
  mret (dict_set raw_data p
          {| raw_crashes := crashes_df; raw_coverage := to_dict_records f |}).

Fixpoint raw_loop (items : list (string * ProjectTables))
    (raw_data : dict RawTables) : M (dict RawTables) :=
  match items with
  | [] => mret raw_data
  | (p, d) :: rest =>
      raw_data' ← raw_project raw_data p d;
      raw_loop rest raw_data'
  end.

(** [open(path, "w")]: the file is created or truncated. *)
Definition open_w (path : string) : M unit :=
  if writable world path then emit (OpenFile path)
  else raise (IOError path).

(** [json.dump(results, f, indent=4)]; the layout of the text is not
    modelled. *)
Definition json_dump (path : string) (results : Report) : M unit :=
  content ← lift (json_of_report results);
  emit (WriteFile path content).

Definition main (project_names : list string) : M unit :=
  metadata ← fetch_project_metadata project_names;
  project_data ← fetch_project_data project_names;
  analysis ← analyze_project_data project_data;
  plot_coverage_trends project_data project_names;;
  raw_data ← raw_loop project_data [];
  let results :=
    {| metadata := metadata; analysis := analysis; raw_data := raw_data |} in
  let output_path :=
    os_path_join (module_dir world) "../../outputs/oss_fuzz_analysis.json" in
  open_w output_path;;
  json_dump output_path results.

End Pipeline.

(** * Vocabulary of the statements *)

(** The offsets that the Data Provider adds to the baseline, in sample
    order. *)
Definition offsets : list Z := [0; 3; 5; 7; 10; 12; 15; 17; 20]%Z.

(** The stored frame after one pass of the Analyzer over it. *)
Definition analyzed (df : DataFrame) : DataFrame :=
  set_date
    (set_growth_rate df (times100 (pct_change (coverage <$> samples df))))
    (DateStr <$> (astype_str <$> (date <$> samples df))).

(** The record the Analyzer emits for a project whose coverage frame is
    [df]. *)
Definition analysis_of (df : DataFrame) (t : ProjectTables) : Analysis :=
  {| unique_crashes := nunique (crash_hash <$> crashes t);
     avg_coverage := mean (coverage <$> samples df);
     coverage_trend := to_dict_records (analyzed df) |}.

(** A sample after [astype(str)] on its date. *)
Definition str_sample (s : CoverageSample) : CoverageSample :=
  mkSample (DateStr (astype_str (date s))) (coverage s).

(** A stored frame is either as it was or as the Analyzer leaves it. *)
Definition touched (df0 df : DataFrame) : Prop :=
  df = df0 \/ df = analyzed df0.

(** The result of the Analyzer as a function of the store it starts from. *)
Fixpoint analyze_pure (h0 : list DataFrame) (items : list (string * ProjectTables))
    (acc : dict Analysis) : result (dict Analysis) :=
  match items with
  | [] => Ok acc
  | (p, t) :: rest =>
      match h0 !! coverage_df t with
      | Some df0 => analyze_pure h0 rest (dict_set acc p (analysis_of df0 t))
      | None => Raise (DanglingReference (coverage_df t))
      end
  end.

(** Every reference of [project_data] points into the store. *)
Definition refs_valid (items : list (string * ProjectTables)) (h : list DataFrame) : Prop :=
  Forall (fun kv => is_Some (h !! coverage_df kv.2)) items.

(** The least and the greatest value of a column; [None] on an empty
    one. *)
Definition Qmin_list (l : list Q) : option Q :=
  match l with
  | [] => None
  | x :: r => Some (foldr Qmin x r)
  end.

Definition Qmax_list (l : list Q) : option Q :=
  match l with
  | [] => None
  | x :: r => Some (foldr Qmax x r)
  end.

(** The float64 number that Python writes [0.1], and a coverage table with
    this value in each of its three rows; the float64 number [2^1023], and
    a table with this value in both of its rows. *)
Definition tenth : Q := 3602879701896397 # 36028797018963968.

Definition tenths : list CoverageSample :=
  [ mkSample (DateStr "15-01-2025") tenth;
    mkSample (DateStr "28-01-2025") tenth;
    mkSample (DateStr "31-01-2025") tenth ].

Definition huge : Q := inject_Z (2 ^ 1023).

Definition huges : list CoverageSample :=
  [ mkSample (DateStr "15-01-2025") huge;
    mkSample (DateStr "28-01-2025") huge ].

(** The cell that [pct_change() * 100] computes from the current and the
    previous value. *)
Definition pct (cur prev : fval) : fval :=
  fmul (fsub (fdiv cur prev) (Fin 1)) (Fin 100).

(** The growth rate in the words of the specification:
    [(cur - prev) / prev * 100], in the same float arithmetic. *)
Definition growth_formula (cur prev : Q) : fval :=
  fmul (fdiv (fsub (Fin cur) (Fin prev)) (Fin prev)) (Fin 100).

(** [j[k]] and the items of a JSON list, to read a written report. *)
Definition json_get (j : Json) (k : string) : option Json :=
  match j with
  | JDict d => dict_get d k
  | _ => None
  end.

Definition json_items (j : Json) : list Json :=
  match j with
  | JList l => l
  | _ => []
  end.

(** The GitHub API as the tests mock it: 200 with a descriptor for zlib,
    404 for anything else; every path is writable. *)
Definition mock_world : World :=
  {| requests_get := fun url =>
       if decide (url = project_url "zlib")
       then Ok (mkResponse 200 (Ok (JDict [("name", JStr "zlib")])))
       else Ok (mkResponse 404 (Raise (JSONDecodeError url)));
     writable := fun _ => true;
     module_dir := "src/oss_fuzz_analysis" |}.

(** The report that the last event of the trace wrote, if it is a write. *)
Definition written_report (s : State) : option Json :=
  match last (trace s) with
  | Some (WriteFile _ content) => Some content
  | _ => None
  end.

(** The sentinel stored for a project that GitHub does not know. *)
Definition not_found : Json := JDict [("error", JStr "Project not found")].

(** The requests of a run, in order. *)
Definition requests (names : list string) : list Event :=
  (fun p => HttpGet (project_url p)) <$> names.

(** The network answers every requested project, and the answers with
    status 200 carry a JSON body. *)
Definition answered (world : World) (names : list string) : Prop :=
  forall p, p ∈ names ->
    exists r, requests_get world (project_url p) = Ok r
              /\ (status_code r = 200%Z -> exists body, response_json r = Ok body).

(** The record stored for the response [r] is [j]. *)
Definition stored_for (r : Response) (j : Json) : Prop :=
  (status_code r = 200%Z -> response_json r = Ok j)
  /\ (status_code r ≠ 200%Z -> j = not_found).

(** One turn of the loop: the request is made, then its answer decides. *)
Definition metadata_step (world : World) (md : dict Json) (p : string)
  : result (dict Json) :=
  match requests_get world (project_url p) with
  | Raise e => Raise e
  | Ok r =>
      if decide (status_code r = 200%Z) then
        match response_json r with
        | Ok body => Ok (dict_set md p body)
        | Raise e => Raise e
        end
      else Ok (dict_set md p not_found)
  end.

(** [frame n m Q]: run from a store of at least [n] frames, [m] leaves the
    first [n] frames as they are, and a value it returns satisfies [Q]. *)
Definition frame (n : nat) {A} (m : M A) (Q : A -> Prop) : Prop :=
  forall s, n <= length (heap s) ->
    take n (heap (m s).2) = take n (heap s)
    /\ n <= length (heap (m s).2)
    /\ forall a, (m s).1 = Ok a -> Q a.

(** [silent m]: [m] has no outside effect. *)
Definition silent {A} (m : M A) : Prop := forall s, trace (m s).2 = trace s.

(** The two kinds of date cells. *)
Definition is_time (c : DateCell) : Prop := exists t, c = DateTime t.
Definition is_str (c : DateCell) : Prop := exists s, c = DateStr s.

(** Every project of [project_data] refers to a table of the Data Provider
    that the Analyzer has been over. *)
Definition analyzed_store (pd : dict ProjectTables) (h : list DataFrame) : Prop :=
  forall p t, dict_get pd p = Some t ->
    exists b, h !! coverage_df t = Some (analyzed (new_frame (coverage_data b))).

(** Rows whose dates are all strings: the rows that [json.dump] accepts. *)
Definition str_dated (rows : list Row) : Prop :=
  Forall (fun r => is_str (rec_date r)) rows.

(** The two [output_path]s. *)
Definition chart_path (world : World) : string :=
  os_path_join (module_dir world) "../../outputs/coverage_trends.png".

Definition report_path (world : World) : string :=
  os_path_join (module_dir world) "../../outputs/oss_fuzz_analysis.json".

(** The outside effects of a complete run, in order: one request per
    project, the chart, the report. *)
Definition whole_trace (world : World) (names : list string) (fig : Figure)
    (content : Json) : list Event :=
  requests names
  ++ [SaveFig (chart_path world) fig;
      OpenFile (report_path world);
      WriteFile (report_path world) content].

(** A JSON object with exactly the three top-level keys of the report. *)
Definition report_json (m a raw : Json) : Json :=
  JDict [("metadata", m); ("analysis", a); ("raw_data", raw)].

(** The keys of a dictionary after [d[k] = v]: an existing key keeps its
    place, a new one goes last. *)
Definition add_key (ks : list string) (k : string) : list string :=
  if decide (k ∈ ks) then ks else ks ++ [k].

(** No two projects of [project_data] share a coverage frame. *)
Definition distinct_refs (pd : dict ProjectTables) : Prop :=
  forall p q t u,
    dict_get pd p = Some t -> dict_get pd q = Some u ->
    coverage_df t = coverage_df u -> p = q.

(** Every reference of [project_data] is below [n]. *)
Definition refs_below (pd : dict ProjectTables) (n : nat) : Prop :=
  forall p t, dict_get pd p = Some t -> coverage_df t < n.

(** The columns of a frame have the length of the frame. *)
Definition well_formed (df : DataFrame) : Prop :=
  match growth_rate df with
  | None => True
  | Some g => length g = length (samples df)
  end.

(** The points that [plt.plot(df["date"], df["coverage"])] draws. *)
Definition points (df : DataFrame) : list (DateCell * Q) :=
  (fun s => (date s, coverage s)) <$> samples df.

(** [a] is not after [b]: both are timestamps and [a <= b]. *)
Definition not_after (a b : DateCell) : Prop :=
  exists x y, a = DateTime x /\ b = DateTime y /\ ts_le x y = true.

(** A line of the chart runs forward in time. *)
Definition chronological (pts : list (DateCell * Q)) : Prop :=
  StronglySorted (fun a b => not_after a.1 b.1) pts.

(** A network that answers for zlib, fails to connect for libpng, answers
    200 with a body that is not JSON for openssl, and 404 otherwise. *)
Definition flaky_world : World :=
  {| requests_get := fun url =>
       if decide (url = project_url "zlib")
       then Ok (mkResponse 200 (Ok (JDict [("name", JStr "zlib")])))
       else if decide (url = project_url "libpng")
       then Raise (RequestException url)
       else if decide (url = project_url "openssl")
       then Ok (mkResponse 200 (Raise (JSONDecodeError url)))
       else Ok (mkResponse 404 (Raise (JSONDecodeError url)));
     writable := fun _ => true;
     module_dir := "src/oss_fuzz_analysis" |}.

(** The order of [sort_values("date")] on rows with parsed dates. *)
Definition row_le (a b : SortRow) : Prop := not_after (date a.1) (date b.1).

(** The point that a row of a sorted frame becomes on the chart. *)
Definition row_point (r : SortRow) : DateCell * Q := (date r.1, coverage r.1).

(** [line] is the line of project [p] on the chart drawn from the store
    [h0]: it carries the label [p], and its points are the parsed dates and
    the coverage values of the stored table of [p], reordered forward in
    time. *)
Definition plotted (pd : dict ProjectTables) (h0 : list DataFrame)
    (p : string) (line : string * list (DateCell * Q)) : Prop :=
  line.1 = p
  /\ exists t df ts,
       dict_get pd p = Some t
       /\ h0 !! coverage_df t = Some df
       /\ traverse to_datetime (date <$> samples df) = Ok ts
       /\ line.2 ≡ₚ zip (DateTime <$> ts) (coverage <$> samples df)
       /\ chronological line.2.

(** The strings that [pd.to_datetime] does not read with the format: the
    empty string and the markers of a missing value, which become [NaT],
    and the words for the current time. *)
Definition special_dates : list string :=
  [""; "NaT"; "nat"; "NAT"; "nan"; "NaN"; "NAN"; "now"; "today"].

(** Every date of the frame is a timestamp or a string that
    [pd.to_datetime] reads with the format. *)
Definition plain_dates (df : DataFrame) : Prop :=
  Forall (fun c => forall d, c = DateStr d -> d ∉ special_dates)
         (date <$> samples df).

(** A file system without the outputs directory, and one where only the
    report cannot be written. *)
Definition no_outputs_world : World :=
  {| requests_get := requests_get mock_world;
     writable := fun _ => false;
     module_dir := "src/oss_fuzz_analysis" |}.

Definition readonly_report_world : World :=
  {| requests_get := requests_get mock_world;
     writable := fun path =>
       negb (String.eqb path
               "src/oss_fuzz_analysis/../../outputs/oss_fuzz_analysis.json");
     module_dir := "src/oss_fuzz_analysis" |}.

(** * Properties *)

(** ** Running the monad *)

Lemma run_bind {A B} (m : M A) (f : A -> M B) (s : State) :
  (m ≫= f) s =
  match m s with
  | (Ok a, s') => f a s'
  | (Raise e, s') => (Raise e, s')
  end.
Proof. reflexivity. Qed.

Lemma run_ret {A} (a : A) (s : State) : (mret a : M A) s = (Ok a, s).
Proof. reflexivity. Qed.

Lemma run_deref_Some l df s :
  heap s !! l = Some df -> deref l s = (Ok df, s).
Proof. intros H. unfold deref. by rewrite H. Qed.

Lemma run_deref_None l s :
  heap s !! l = None -> deref l s = (Raise (DanglingReference l), s).
Proof. intros H. unfold deref. by rewrite H. Qed.

Lemma run_modify_Some l f df s :
  heap s !! l = Some df ->
  modify l f s = (Ok tt, {| heap := <[l := f df]> (heap s); trace := trace s |}).
Proof. intros H. unfold modify. by rewrite H. Qed.

(** ** Dictionaries *)

Section Dict.

Context {V : Type}.
Implicit Types (d : dict V) (k : string) (v : V).

Lemma dict_get_set_eq d k v : dict_get (dict_set d k v) k = Some v.
Proof.
  induction d as [|[k' v'] d IH]; simpl.
  - by rewrite decide_True.
  - destruct (decide (k' = k)) as [->|Hne]; simpl.
    + by rewrite decide_True.
    + by rewrite decide_False.
Qed.

Lemma dict_get_set_ne d k k' v :
  k ≠ k' -> dict_get (dict_set d k v) k' = dict_get d k'.
Proof.
  intros Hne. induction d as [|[k0 v0] d IH]; simpl.
  - by rewrite decide_False.
  - destruct (decide (k0 = k)) as [->|Hk]; simpl.
    + by rewrite !decide_False.
    + destruct (decide (k0 = k')); [done | apply IH].
Qed.

Lemma keys_dict_set_in d k v : k ∈ keys d -> keys (dict_set d k v) = keys d.
Proof.
  unfold keys. induction d as [|[k0 v0] d IH]; simpl; intros Hin.
  - by apply elem_of_nil in Hin.
  - destruct (decide (k0 = k)) as [->|Hk]; simpl; [done|].
    f_equal. apply IH. apply elem_of_cons in Hin as [->|]; [done | assumption].
Qed.

Lemma keys_dict_set_notin d k v :
  k ∉ keys d -> keys (dict_set d k v) = (keys d ++ [k])%list.
Proof.
  unfold keys. induction d as [|[k0 v0] d IH]; simpl; intros Hin; [done|].
  apply not_elem_of_cons in Hin as [Hne Hin].
  rewrite decide_False by done. simpl. f_equal. by apply IH.
Qed.

Lemma keys_dict_set_NoDup d k v : NoDup (keys d) -> NoDup (keys (dict_set d k v)).
Proof.
  intros Hnd. destruct (decide (k ∈ keys d)) as [Hin|Hin].
  - by rewrite keys_dict_set_in.
  - rewrite keys_dict_set_notin by done.
    apply NoDup_app. split_and!; [done | | apply NoDup_singleton].
    intros x Hx Hx'. apply list_elem_of_singleton in Hx' as ->. done.
Qed.

Lemma dict_get_Some_keys d k v : dict_get d k = Some v -> k ∈ keys d.
Proof.
  unfold keys. induction d as [|[k0 v0] d IH]; simpl; [done|].
  destruct (decide (k0 = k)) as [->|Hk]; intros H.
  - apply elem_of_cons; by left.
  - apply elem_of_cons; right; by apply IH.
Qed.

Lemma dict_get_None_keys d k : dict_get d k = None -> k ∉ keys d.
Proof.
  unfold keys. induction d as [|[k0 v0] d IH]; simpl.
  - intros _. apply not_elem_of_nil.
  - destruct (decide (k0 = k)) as [->|Hk]; [done|].
    intros H. apply not_elem_of_cons. split; [done | by apply IH].
Qed.

Lemma dict_get_elem_of d k v : dict_get d k = Some v -> (k, v) ∈ d.
Proof.
  induction d as [|[k0 v0] d IH]; simpl; [done|].
  destruct (decide (k0 = k)) as [->|Hk]; intros H.
  - injection H as ->. apply elem_of_cons; by left.
  - apply elem_of_cons; right; by apply IH.
Qed.

Lemma elem_of_dict_get d k v :
  NoDup (keys d) -> (k, v) ∈ d -> dict_get d k = Some v.
Proof.
  unfold keys. induction d as [|[k0 v0] d IH]; simpl; intros Hnd Hin.
  - by apply elem_of_nil in Hin.
  - apply NoDup_cons in Hnd as [Hk0 Hnd].
    apply elem_of_cons in Hin as [Heq|Hin].
    + injection Heq as -> ->. by rewrite decide_True.
    + destruct (decide (k0 = k)) as [->|Hk]; [|by apply IH].
      exfalso. apply Hk0. apply list_elem_of_fmap. by exists (k, v).
Qed.

End Dict.

(** ** Data Provider *)

Lemma coverage_data_offsets base :
  coverage <$> coverage_data base = (fun o => inject_Z (base + o)) <$> offsets.
Proof. simpl. by rewrite Z.add_0_r. Qed.

Lemma coverage_base_known p :
  is_Some (dict_get coverage_base p) <-> p ∈ ["zlib"; "libpng"; "openssl"].
Proof.
  unfold coverage_base. simpl. split.
  - intros [b Hb]. rewrite !elem_of_cons.
    repeat case_decide; subst; try discriminate; auto.
  - rewrite !elem_of_cons, elem_of_nil.
    intros [<-|[<-|[<-|[]]]]; repeat case_decide; eauto; done.
Qed.

Lemma fetch_project_known pd p b s :
  dict_get coverage_base p = Some b ->
  fetch_project pd p s =
    (Ok (dict_set pd p {| crashes := crash_data; coverage_df := length (heap s) |}),
     {| heap := heap s ++ [new_frame (coverage_data b)]; trace := trace s |}).
Proof. intros Hb. unfold fetch_project. by rewrite Hb. Qed.

Lemma fetch_project_unknown pd p s :
  dict_get coverage_base p = None ->
  fetch_project pd p s = (Raise (KeyError p), s).
Proof. intros Hb. unfold fetch_project. by rewrite Hb. Qed.

(** What the loop of the Data Provider leaves behind when every requested
    project has a baseline: the frames already in the store are kept, and
    every requested project refers to a new frame built from its baseline. *)
Lemma fetch_loop_known names :
  forall pd0 s,
    Forall (fun p => is_Some (dict_get coverage_base p)) names ->
    exists pd ext,
      fetch_loop names pd0 s =
        (Ok pd, {| heap := heap s ++ ext; trace := trace s |})
      /\ (NoDup (keys pd0) -> NoDup (keys pd))
      /\ (forall p, p ∉ names -> dict_get pd p = dict_get pd0 p)
      /\ (forall p, p ∈ names ->
            exists t b,
              dict_get pd p = Some t
              /\ dict_get coverage_base p = Some b
              /\ crashes t = crash_data
              /\ (heap s ++ ext) !! coverage_df t = Some (new_frame (coverage_data b))).
Proof.
  induction names as [|q names IH]; intros pd0 s Hknown.
  - exists pd0, []. rewrite app_nil_r. split_and!; try done.
    + by destruct s.
    + intros p Hp. by apply elem_of_nil in Hp.
  - apply Forall_cons in Hknown as [[b Hb] Hknown].
    simpl. rewrite run_bind, (fetch_project_known _ _ b) by done.
    set (pd1 := dict_set pd0 q _). set (s1 := mkState _ _).
    destruct (IH pd1 s1 Hknown) as (pd & ext & Hrun & Hnd & Hout & Hin).
    exists pd, (new_frame (coverage_data b) :: ext).
    rewrite Hrun. subst s1. simpl in *.
    rewrite <- app_assoc in *. simpl in *. split_and!.
    + done.
    + intros H0. apply Hnd. by apply keys_dict_set_NoDup.
    + intros p Hp. apply not_elem_of_cons in Hp as [Hpq Hp].
      rewrite Hout by done. subst pd1. by rewrite dict_get_set_ne.
    + intros p Hp. destruct (decide (p ∈ names)) as [Hpn|Hpn]; [by apply Hin|].
      apply elem_of_cons in Hp as [->|]; [|done].
      eexists _, b. rewrite Hout by done. subst pd1.
      rewrite dict_get_set_eq. split_and!; try done. simpl.
      rewrite lookup_app_r by done. by rewrite Nat.sub_diag.
Qed.

(** The loop stops at the first project without a baseline. *)
Lemma fetch_loop_unknown names :
  forall pd0 s p,
    p ∈ names -> dict_get coverage_base p = None ->
    exists q s',
      fetch_loop names pd0 s = (Raise (KeyError q), s')
      /\ q ∈ names /\ dict_get coverage_base q = None.
Proof.
  induction names as [|n names IH]; intros pd0 s p Hin Hp.
  - by apply elem_of_nil in Hin.
  - simpl. rewrite run_bind.
    destruct (dict_get coverage_base n) as [b|] eqn:Hn.
    + rewrite (fetch_project_known _ _ b) by done.
      apply elem_of_cons in Hin as [->|Hin]; [congruence|].
      destruct (IH (dict_set pd0 n {| crashes := crash_data; coverage_df := length (heap s) |})
                  {| heap := heap s ++ [new_frame (coverage_data b)]; trace := trace s |}
                  p Hin Hp) as (q & s' & Hrun & Hq & Hqb).
      exists q, s'. split_and!; [done | | done].
      apply elem_of_cons; by right.
    + rewrite fetch_project_unknown by done.
      exists n, s. split_and!; [done | | done].
      apply elem_of_cons; by left.
Qed.

(** C7.  For every requested project with baseline [b], the Data Provider
    stores a coverage table of exactly 9 samples whose coverage values are
    [b + o] for the offsets 0, 3, 5, 7, 10, 12, 15, 17, 20 in this order
    (and no [growth_rate] column); for ["zlib"] the values are
    70, 73, 75, 77, 80, 82, 85, 87, 90. *)
Theorem fetch_project_data_coverage (names : list string) (s : State)
    (p : string) (b : Z) :
  Forall (fun q => is_Some (dict_get coverage_base q)) names ->
  p ∈ names ->
  dict_get coverage_base p = Some b ->
  exists pd s' t df,
    fetch_project_data names s = (Ok pd, s')
    /\ dict_get pd p = Some t
    /\ heap s' !! coverage_df t = Some df
    /\ length (samples df) = 9
    /\ coverage <$> samples df = (fun o => inject_Z (b + o)) <$> offsets
    /\ columns df = ["date"; "coverage"]
    /\ (p = "zlib" ->
        coverage <$> samples df = [70; 73; 75; 77; 80; 82; 85; 87; 90]%Q).
Proof.
  intros Hknown Hin Hb.
  destruct (fetch_loop_known names [] s Hknown) as (pd & ext & Hrun & _ & _ & Hreq).
  destruct (Hreq p Hin) as (t & b' & Hget & Hb' & _ & Hdf).
  assert (b' = b) as -> by congruence.
  eexists pd, _, t, _. split_and!; [exact Hrun | exact Hget | exact Hdf | done | | done |].
  - apply coverage_data_offsets.
  - intros ->. simpl in Hb. injection Hb as <-. reflexivity.
Qed.

Lemma fetch_project_data_coverage_witness :
  exists pd s' t df,
    fetch_project_data ["zlib"; "openssl"] (mkState [] []) = (Ok pd, s')
    /\ dict_get pd "zlib" = Some t
    /\ heap s' !! coverage_df t = Some df
    /\ length (samples df) = 9
    /\ coverage <$> samples df = (fun o => inject_Z (70 + o)) <$> offsets
    /\ columns df = ["date"; "coverage"]
    /\ ("zlib" = "zlib" ->
        coverage <$> samples df = [70; 73; 75; 77; 80; 82; 85; 87; 90]%Q).
Proof.
  apply (fetch_project_data_coverage ["zlib"; "openssl"] (mkState [] []) "zlib" 70%Z).
  - repeat constructor; simpl; eauto.
  - apply elem_of_cons; by left.
  - reflexivity.
Defined.

(** C3.  For every project identifier outside the baseline mapping
    (zlib, libpng, openssl), [fetch_project_data] returns no table: it
    raises [KeyError] on the first such identifier of the request. *)
Theorem fetch_project_data_unknown (names : list string) (s : State) (p : string) :
  p ∈ names ->
  p ∉ ["zlib"; "libpng"; "openssl"] ->
  exists q s',
    fetch_project_data names s = (Raise (KeyError q), s')
    /\ q ∈ names
    /\ q ∉ ["zlib"; "libpng"; "openssl"].
Proof.
  intros Hin Hp.
  assert (dict_get coverage_base p = None) as Hnone.
  { destruct (dict_get coverage_base p) eqn:E; [|done].
    exfalso. apply Hp, coverage_base_known. eauto. }
  destruct (fetch_loop_unknown names [] s p Hin Hnone) as (q & s' & Hrun & Hq & Hqb).
  exists q, s'. split_and!; [done | done |].
  intros Hq'. apply coverage_base_known in Hq' as [b Hb]. congruence.
Qed.

Lemma fetch_project_data_unknown_witness :
  exists q s',
    fetch_project_data ["zlib"; "curl"] (mkState [] []) = (Raise (KeyError q), s')
    /\ q ∈ ["zlib"; "curl"]
    /\ q ∉ ["zlib"; "libpng"; "openssl"].
Proof.
  apply (fetch_project_data_unknown ["zlib"; "curl"] (mkState [] []) "curl").
  - rewrite !elem_of_cons; auto.
  - rewrite !elem_of_cons, elem_of_nil. intros [H|[H|[H|[]]]]; discriminate H.
Defined.

(** ** Analyzer *)

Lemma zip_with_astype_str (l : list CoverageSample) :
  zip_with (fun s x => mkSample x (coverage s)) l
    (DateStr <$> (astype_str <$> (date <$> l))) = str_sample <$> l.
Proof. induction l as [|x l IH]; [done|]. cbn. by f_equal. Qed.

Lemma samples_analyzed df : samples (analyzed df) = str_sample <$> samples df.
Proof. apply zip_with_astype_str. Qed.

Lemma growth_rate_analyzed df :
  growth_rate (analyzed df) =
    Some (times100 (pct_change (coverage <$> samples df))).
Proof. reflexivity. Qed.

Lemma coverage_analyzed df :
  coverage <$> samples (analyzed df) = coverage <$> samples df.
Proof.
  rewrite samples_analyzed, <- list_fmap_compose. by apply list_fmap_ext.
Qed.

Lemma frame_eq df1 df2 :
  samples df1 = samples df2 -> growth_rate df1 = growth_rate df2 -> df1 = df2.
Proof. destruct df1, df2; simpl; congruence. Qed.

Lemma analyzed_idemp df : analyzed (analyzed df) = analyzed df.
Proof.
  apply frame_eq.
  - rewrite !samples_analyzed, <- list_fmap_compose. by apply list_fmap_ext.
  - by rewrite !growth_rate_analyzed, coverage_analyzed.
Qed.

Lemma analyze_project_run an p t s df :
  heap s !! coverage_df t = Some df ->
  analyze_project an p t s =
    (Ok (dict_set an p (analysis_of df t)),
     {| heap := <[coverage_df t := analyzed df]> (heap s); trace := trace s |}).
Proof.
  intros Hdf. unfold analyze_project.
  assert (coverage_df t < length (heap s)) as Hlt by by eapply lookup_lt_Some.
  rewrite run_bind, (run_deref_Some _ df) by done.
  rewrite run_bind, (run_deref_Some _ df) by done.
  rewrite run_bind, (run_modify_Some _ _ df) by done.
  set (df1 := set_growth_rate df _).
  rewrite run_bind, (run_deref_Some _ df1)
    by (simpl; by apply list_lookup_insert_eq).
  rewrite run_bind, (run_modify_Some _ _ df1)
    by (simpl; by apply list_lookup_insert_eq).
  simpl heap. simpl trace. rewrite list_insert_insert_eq.
  rewrite run_bind, (run_deref_Some _ (analyzed df))
    by (simpl; by apply list_lookup_insert_eq).
  reflexivity.
Qed.

Lemma analyze_project_dangling an p t s :
  heap s !! coverage_df t = None ->
  analyze_project an p t s = (Raise (DanglingReference (coverage_df t)), s).
Proof.
  intros Hdf. unfold analyze_project. by rewrite run_bind, run_deref_None.
Qed.

Lemma touched_refl h : Forall2 touched h h.
Proof. apply Forall_Forall2_diag, Forall_forall. intros; by left. Qed.

Lemma touched_analyzed df0 df : touched df0 df -> analyzed df = analyzed df0.
Proof. intros [->| ->]; [done | apply analyzed_idemp]. Qed.

Lemma touched_analysis_of df0 df t :
  touched df0 df -> analysis_of df t = analysis_of df0 t.
Proof.
  intros H. unfold analysis_of. rewrite (touched_analyzed _ _ H).
  destruct H as [->| ->]; [done|]. by rewrite coverage_analyzed.
Qed.

Lemma analyze_loop_pure items :
  forall acc s h0,
    Forall2 touched h0 (heap s) ->
    (analyze_loop items acc s).1 = analyze_pure h0 items acc
    /\ Forall2 touched h0 (heap (analyze_loop items acc s).2)
    /\ trace (analyze_loop items acc s).2 = trace s.
Proof.
  induction items as [|[p t] items IH]; intros acc s h0 Hh; [done|].
  cbn [analyze_loop analyze_pure]. rewrite run_bind.
  destruct (heap s !! coverage_df t) as [df|] eqn:Hdf.
  - destruct (Forall2_lookup_r _ _ _ _ _ Hh Hdf) as (df0 & Hdf0 & Ht).
    rewrite (analyze_project_run _ _ _ _ df), Hdf0 by done.
    rewrite (touched_analysis_of df0 df) by done.
    set (s1 := mkState _ _).
    assert (Forall2 touched h0 (heap s1)) as Hh1.
    { subst s1. simpl.
      rewrite <- (list_insert_id h0 (coverage_df t) df0) by done.
      apply Forall2_insert; [done|]. right. by apply touched_analyzed. }
    destruct (IH (dict_set acc p (analysis_of df0 t)) s1 h0 Hh1) as (H1 & H2 & H3).
    split_and!; [exact H1 | exact H2 | exact H3].
  - rewrite analyze_project_dangling by done.
    assert (h0 !! coverage_df t = None) as ->; [|done].
    apply lookup_ge_None. rewrite (Forall2_length _ _ _ Hh).
    by apply lookup_ge_None.
Qed.

Lemma analyze_pure_total h0 items :
  forall acc,
    refs_valid items h0 ->
    exists an,
      analyze_pure h0 items acc = Ok an
      /\ (forall p, p ∉ keys items -> dict_get an p = dict_get acc p)
      /\ (forall p t, NoDup (keys items) -> dict_get items p = Some t ->
            exists df0, h0 !! coverage_df t = Some df0
                        /\ dict_get an p = Some (analysis_of df0 t)).
Proof.
  induction items as [|[q u] items IH]; intros acc Hv.
  - exists acc. split_and!; [done | done |]. intros p t _ H. discriminate H.
  - apply Forall_cons in Hv as [[df0 Hdf0] Hv]. cbn [snd] in Hdf0.
    cbn [analyze_pure]. rewrite Hdf0.
    destruct (IH (dict_set acc q (analysis_of df0 u)) Hv) as (an & Hrun & Hout & Hin).
    exists an. split_and!; [done | |].
    + intros p Hp. unfold keys in Hp. simpl in Hp.
      apply not_elem_of_cons in Hp as [Hpq Hp].
      rewrite Hout by done. by rewrite dict_get_set_ne.
    + intros p t Hnd Hget. unfold keys in Hnd. simpl in Hnd.
      apply NoDup_cons in Hnd as [Hq Hnd].
      simpl in Hget. destruct (decide (q = p)) as [->|Hqp].
      * injection Hget as <-. exists df0. split; [done|].
        rewrite Hout by done. apply dict_get_set_eq.
      * by apply Hin.
Qed.

(** On a store where every reference is valid the Analyzer returns, and the
    record of every project is [analysis_of] its frame and tables. *)
Lemma analyze_project_data_spec pd s :
  NoDup (keys pd) ->
  refs_valid pd (heap s) ->
  exists an s',
    analyze_project_data pd s = (Ok an, s')
    /\ Forall2 touched (heap s) (heap s')
    /\ trace s' = trace s
    /\ (forall p, p ∉ keys pd -> dict_get an p = None)
    /\ (forall p t, dict_get pd p = Some t ->
          exists df0, heap s !! coverage_df t = Some df0
                      /\ dict_get an p = Some (analysis_of df0 t)).
Proof.
  intros Hnd Hv.
  destruct (analyze_loop_pure pd [] s (heap s) (touched_refl _)) as (Hr & Hh & Ht).
  destruct (analyze_pure_total (heap s) pd [] Hv) as (an & Hpure & Hout & Hin).
  unfold analyze_project_data.
  destruct (analyze_loop pd [] s) as [r s'] eqn:Hrun. simpl in *.
  exists an, s'. split_and!; try done.
  - congruence.
  - intros p t Hget. by apply Hin.
Qed.

Lemma fetch_project_data_spec names s :
  Forall (fun p => is_Some (dict_get coverage_base p)) names ->
  exists pd ext,
    fetch_project_data names s =
      (Ok pd, {| heap := heap s ++ ext; trace := trace s |})
    /\ NoDup (keys pd)
    /\ (forall p, p ∈ names -> is_Some (dict_get pd p))
    /\ (forall p t, dict_get pd p = Some t ->
          p ∈ names
          /\ crashes t = crash_data
          /\ exists b, dict_get coverage_base p = Some b
                       /\ (heap s ++ ext) !! coverage_df t
                          = Some (new_frame (coverage_data b))).
Proof.
  intros Hknown.
  destruct (fetch_loop_known names [] s Hknown) as (pd & ext & Hrun & Hnd & Hout & Hin).
  exists pd, ext. split_and!; [done | | |].
  - apply Hnd. constructor.
  - intros p Hp. destruct (Hin p Hp) as (t & b & Hget & _). eauto.
  - intros p t Hget.
    destruct (decide (p ∈ names)) as [Hp|Hp].
    + destruct (Hin p Hp) as (t' & b & Hget' & Hb & Hc & Hdf).
      assert (t' = t) as -> by congruence. eauto.
    + rewrite Hout in Hget by done. discriminate Hget.
Qed.

Lemma refs_valid_dict_get pd h :
  (forall p t, dict_get pd p = Some t -> is_Some (h !! coverage_df t)) ->
  NoDup (keys pd) -> refs_valid pd h.
Proof.
  intros H Hnd. apply Forall_forall. intros [p t] Hin.
  apply (H p). by apply elem_of_dict_get.
Qed.

(** *** Distinct crash identifiers *)

Lemma unique_from_size seen l :
  length (unique_from seen l) =
    size ((list_to_set l : gset string) ∖ list_to_set seen).
Proof.
  revert seen. induction l as [|x l IH]; intros seen; simpl.
  - replace ((∅ : gset string) ∖ list_to_set seen) with (∅ : gset string)
      by set_solver.
    by rewrite size_empty.
  - destruct (decide (x ∈ seen)) as [Hx|Hx].
    + rewrite IH. f_equal.
      assert (x ∈ (list_to_set seen : gset string)) by by apply elem_of_list_to_set.
      set_solver.
    + simpl. rewrite IH.
      assert (x ∉ (list_to_set seen : gset string))
        by (by rewrite elem_of_list_to_set).
      replace (({[x]} ∪ list_to_set l) ∖ list_to_set seen : gset string)
        with ({[x]} ∪ (list_to_set l ∖ list_to_set (x :: seen)) : gset string).
      * symmetry. etransitivity; [apply size_union; set_solver|].
        by rewrite size_singleton.
      * simpl. apply set_eq. intros y.
        destruct (decide (y = x)) as [->|]; set_solver.
Qed.

Lemma nunique_size l : nunique l = size (list_to_set l : gset string).
Proof.
  unfold nunique, unique. rewrite unique_from_size. f_equal.
  simpl. set_solver.
Qed.

(** C5.  For every analyzed project, [unique_crashes] is the number of
    distinct [crash_hash] values of the project's crash table; for the
    tables of the Data Provider (9 events, "abc123" twice) it is 8 for every
    requested project. *)
Theorem unique_crashes_distinct (pd : dict ProjectTables) (s : State)
    (names : list string) (s0 : State) :
  NoDup (keys pd) ->
  refs_valid pd (heap s) ->
  Forall (fun p => is_Some (dict_get coverage_base p)) names ->
  (exists an s',
     analyze_project_data pd s = (Ok an, s')
     /\ forall p t, dict_get pd p = Some t ->
          exists a, dict_get an p = Some a
                    /\ unique_crashes a =
                       size (list_to_set (crash_hash <$> crashes t) : gset string))
  /\ (exists pd' s1 an s2,
        fetch_project_data names s0 = (Ok pd', s1)
        /\ analyze_project_data pd' s1 = (Ok an, s2)
        /\ forall p, p ∈ names ->
             exists a, dict_get an p = Some a /\ unique_crashes a = 8).
Proof.
  intros Hnd Hv Hknown. split.
  - destruct (analyze_project_data_spec pd s Hnd Hv)
      as (an & s' & Hrun & _ & _ & _ & Hin).
    exists an, s'. split; [done|]. intros p t Hget.
    destruct (Hin p t Hget) as (df0 & _ & Ha).
    eexists. split; [exact Ha|]. simpl. apply nunique_size.
  - destruct (fetch_project_data_spec names s0 Hknown)
      as (pd' & ext & Hfetch & Hnd' & Hreq & Hget').
    set (s1 := mkState _ _) in Hfetch.
    assert (refs_valid pd' (heap s1)) as Hv'.
    { apply refs_valid_dict_get; [|done]. intros p t Hget.
      destruct (Hget' p t Hget) as (_ & _ & b & _ & Hdf). eauto. }
    destruct (analyze_project_data_spec pd' s1 Hnd' Hv')
      as (an & s2 & Hrun & _ & _ & _ & Hin).
    exists pd', s1, an, s2. split_and!; [done | done |].
    intros p Hp. destruct (Hreq p Hp) as [t Hget].
    destruct (Hin p t Hget) as (df0 & _ & Ha).
    destruct (Hget' p t Hget) as (_ & Hc & _).
    eexists. split; [exact Ha|]. simpl. by rewrite Hc.
Qed.

Lemma unique_crashes_distinct_witness :
  (exists an s',
     analyze_project_data
       [("test_project",
         mkTables [mkCrash "15-01-2025" "test123" "null-pointer"] 0)]
       (mkState [new_frame [mkSample (DateStr "15-01-2025") 75]] [])
     = (Ok an, s')
     /\ forall p t,
          dict_get
            [("test_project",
              mkTables [mkCrash "15-01-2025" "test123" "null-pointer"] 0)] p
          = Some t ->
          exists a, dict_get an p = Some a
                    /\ unique_crashes a =
                       size (list_to_set (crash_hash <$> crashes t) : gset string))
  /\ (exists pd' s1 an s2,
        fetch_project_data ["zlib"; "libpng"] (mkState [] []) = (Ok pd', s1)
        /\ analyze_project_data pd' s1 = (Ok an, s2)
        /\ forall p, p ∈ ["zlib"; "libpng"] ->
             exists a, dict_get an p = Some a /\ unique_crashes a = 8).
Proof.
  apply (unique_crashes_distinct
           [("test_project",
             mkTables [mkCrash "15-01-2025" "test123" "null-pointer"] 0)]
           (mkState [new_frame [mkSample (DateStr "15-01-2025") 75]] [])
           ["zlib"; "libpng"] (mkState [] [])).
  - apply NoDup_singleton.
  - repeat constructor. simpl. eauto.
  - repeat constructor; simpl; eauto.
Defined.

(** *** Mean coverage *)

Lemma foldr_Qmin_le x r : (foldr Qmin x r <= x)%Q /\ Forall (fun c => foldr Qmin x r <= c)%Q r.
Proof.
  induction r as [|y r [IHx IHr]]; simpl.
  - split; [apply Qle_refl | constructor].
  - split.
    + eapply Qle_trans; [apply Q.le_min_r | exact IHx].
    + constructor; [apply Q.le_min_l|].
      eapply Forall_impl; [exact IHr|]. simpl. intros c Hc.
      eapply Qle_trans; [apply Q.le_min_r | exact Hc].
Qed.

Lemma foldr_Qmax_ge x r : (x <= foldr Qmax x r)%Q /\ Forall (fun c => c <= foldr Qmax x r)%Q r.
Proof.
  induction r as [|y r [IHx IHr]]; simpl.
  - split; [apply Qle_refl | constructor].
  - split.
    + eapply Qle_trans; [exact IHx | apply Q.le_max_r].
    + constructor; [apply Q.le_max_l|].
      eapply Forall_impl; [exact IHr|]. simpl. intros c Hc.
      eapply Qle_trans; [exact Hc | apply Q.le_max_r].
Qed.

Lemma inject_length_S {A} (l : list A) (x : A) :
  (inject_Z (Z.of_nat (length (x :: l))) == inject_Z (Z.of_nat (length l)) + 1)%Q.
Proof.
  simpl length. rewrite Nat2Z.inj_succ, <- Z.add_1_r, inject_Z_plus. reflexivity.
Qed.

Lemma Qsum_lower lo l :
  Forall (fun c => lo <= c)%Q l ->
  (lo * inject_Z (Z.of_nat (length l)) <= Qsum l)%Q.
Proof.
  induction 1 as [|c l Hc Hl IH].
  - simpl. rewrite Qmult_0_r. apply Qle_refl.
  - rewrite inject_length_S. cbn [Qsum foldr].
    rewrite Qmult_plus_distr_r, Qmult_1_r, Qplus_comm.
    by apply Qplus_le_compat.
Qed.

Lemma Qsum_upper hi l :
  Forall (fun c => c <= hi)%Q l ->
  (Qsum l <= hi * inject_Z (Z.of_nat (length l)))%Q.
Proof.
  induction 1 as [|c l Hc Hl IH].
  - simpl. rewrite Qmult_0_r. apply Qle_refl.
  - rewrite inject_length_S. cbn [Qsum foldr].
    rewrite Qmult_plus_distr_r, Qmult_1_r, (Qplus_comm (hi * _)).
    by apply Qplus_le_compat.
Qed.

Lemma inject_length_pos {A} (l : list A) :
  l ≠ [] -> (0 < inject_Z (Z.of_nat (length l)))%Q.
Proof.
  intros Hl. destruct l as [|x l]; [done|].
  change 0%Q with (inject_Z 0). rewrite <- Zlt_Qlt. simpl length. lia.
Qed.

(** In exact arithmetic the mean of a non-empty column lies between its
    least and its greatest value.  In float64 it need not (three rows of
    0.1 are an example, below), which is why the statement about
    [avg_coverage] is made in float64 and for the tables that the pipeline
    analyzes. *)
Lemma mean_bounds (l : list Q) :
  l ≠ [] ->
  exists m lo hi,
    mean l = Fin m
    /\ (m == Qsum l / inject_Z (Z.of_nat (length l)))%Q
    /\ Qmin_list l = Some lo /\ Qmax_list l = Some hi
    /\ (lo <= m)%Q /\ (m <= hi)%Q.
Proof.
  intros Hl. pose proof (inject_length_pos l Hl) as Hpos.
  destruct l as [|x r]; [done|].
  eexists _, _, _. split_and!; try reflexivity.
  - apply Qle_shift_div_l; [done|]. apply Qsum_lower.
    destruct (foldr_Qmin_le x r). by constructor.
  - apply Qle_shift_div_r; [done|]. apply Qsum_upper.
    destruct (foldr_Qmax_ge x r). by constructor.
Qed.

(** The three baselines of the Data Provider. *)
Lemma coverage_base_values p b :
  dict_get coverage_base p = Some b -> b ∈ [70; 75; 65]%Z.
Proof.
  unfold coverage_base. simpl. rewrite !elem_of_cons.
  repeat case_decide; intros [= <-]; auto.
Qed.

(** On a table of the Data Provider with baseline [b] the exact mean is
    [b + 89/9]; the float64 mean is this number rounded once, and it lies
    between the least value [b] and the greatest value [b + 20] of the
    column. *)
Lemma coverage_data_mean64 b :
  b ∈ [70; 75; 65]%Z ->
  let col := coverage <$> coverage_data b in
  exists m,
    mean col = Fin m
    /\ (m == inject_Z b + (89 # 9))%Q
    /\ mean64 col = to_float64 m
    /\ Qmin_list col = Some (inject_Z b)
    /\ Qmax_list col = Some (inject_Z (b + 20))
    /\ PrimFloat.leb (to_float64 (inject_Z b)) (mean64 col) = true
    /\ PrimFloat.leb (mean64 col) (to_float64 (inject_Z (b + 20))) = true.
Proof.
  rewrite !elem_of_cons, elem_of_nil.
  intros [->|[->|[->|[]]]]; intros col; subst col;
    eexists; split_and!;
    try (cbn [mean coverage_data fmap list_fmap coverage]; reflexivity);
    vm_compute; reflexivity.
Qed.




(** *** Growth rate *)

Lemma Qzero_spec q : Qzero q = true <-> (q == 0)%Q.
Proof.
  unfold Qzero, Qeq. simpl. rewrite Z.eqb_eq. lia.
Qed.

Lemma Qzero_false q : Qzero q = false <-> ~ (q == 0)%Q.
Proof. rewrite <- Qzero_spec. by destruct (Qzero q). Qed.

Lemma Qzero_minus c p : Qzero p = true -> Qzero (c - p) = Qzero c.
Proof.
  unfold Qzero. destruct c as [cn cd], p as [pn pd]. simpl.
  intros Hp%Z.eqb_eq. subst pn. simpl.
  rewrite Z.add_0_r. destruct cn; reflexivity.
Qed.

Lemma Qneg_minus c p : Qzero p = true -> Qneg (c - p) = Qneg c.
Proof.
  unfold Qzero, Qneg. destruct c as [cn cd], p as [pn pd]. simpl.
  intros Hp%Z.eqb_eq. subst pn. simpl.
  rewrite Z.add_0_r. destruct cn; reflexivity.
Qed.

Lemma pct_growth_formula c p : feq (pct (Fin c) (Fin p)) (growth_formula c p).
Proof.
  unfold pct, growth_formula. cbn [fsub fdiv].
  destruct (Qzero p) eqn:Hp.
  - rewrite Qzero_minus, Qneg_minus by done.
    destruct (Qzero c); simpl; [done|]. by rewrite xorb_false_r.
  - simpl. apply Qzero_false in Hp. field. exact Hp.
Qed.

Lemma pct_nonzero c p :
  ~ (p == 0)%Q ->
  exists q, pct (Fin c) (Fin p) = Fin q /\ (q == (c - p) / p * 100)%Q.
Proof.
  intros Hp. unfold pct. cbn [fdiv].
  apply Qzero_false in Hp as Hz. rewrite Hz. simpl.
  eexists. split; [reflexivity|]. field. exact Hp.
Qed.

Lemma shift_lookup (l : list fval) i :
  i < length l ->
  shift l !! i = Some (match i with 0 => NaN | S j => default NaN (l !! j) end).
Proof.
  intros Hi. unfold shift. rewrite lookup_take_lt by done.
  destruct i as [|j]; [done|]. simpl.
  destruct (lookup_lt_is_Some_2 l j) as [x ->]; [lia | done].
Qed.

Lemma growth_lookup (cov : list Q) i :
  times100 (pct_change cov) !! i =
    (fun c => pct (Fin c)
                (match i with
                 | 0 => NaN
                 | S j => default NaN (Fin <$> cov !! j)
                 end)) <$> cov !! i.
Proof.
  unfold times100, pct_change.
  rewrite list_lookup_fmap, lookup_zip_with, list_lookup_fmap.
  destruct (cov !! i) as [c|] eqn:Hc; [|done]. simpl.
  rewrite shift_lookup by (rewrite length_fmap; by eapply lookup_lt_Some).
  simpl. destruct i; [done|]. by rewrite list_lookup_fmap.
Qed.

Lemma growth_length (cov : list Q) :
  length (times100 (pct_change cov)) = length cov.
Proof.
  unfold times100, pct_change, shift.
  rewrite length_fmap, length_zip_with, length_take, length_cons, !length_fmap.
  lia.
Qed.

(** Row [i] of the trend that the Analyzer emits for the frame [df]. *)
Lemma trend_lookup df i :
  to_dict_records (analyzed df) !! i =
    (fun s =>
       mkRow (DateStr (astype_str (date s))) (coverage s)
         (Some (pct (Fin (coverage s))
                  (match i with
                   | 0 => NaN
                   | S j => default NaN ((Fin ∘ coverage) <$> samples df !! j)
                   end)))) <$> samples df !! i.
Proof.
  unfold to_dict_records. rewrite growth_rate_analyzed, samples_analyzed.
  rewrite lookup_zip_with, list_lookup_fmap, growth_lookup, list_lookup_fmap.
  destruct (samples df !! i) as [s|] eqn:Hs; [|done]. simpl.
  destruct i as [|j]; [done|]. rewrite list_lookup_fmap.
  by destruct (samples df !! j).
Qed.

Lemma trend_coverage df :
  rec_coverage <$> to_dict_records (analyzed df) = coverage <$> samples df.
Proof.
  apply list_eq. intros i.
  rewrite !list_lookup_fmap, trend_lookup. by destruct (samples df !! i).
Qed.

(** C4.  In every analysis record the trend lists the samples in their
    stored order; the [growth_rate] of the first one is undefined ([NaN]),
    and that of every later one is [(cur - prev) / prev * 100] of its
    coverage and the coverage of the sample before it. *)
Theorem growth_rate_percent_change (pd : dict ProjectTables) (s : State) :
  NoDup (keys pd) ->
  refs_valid pd (heap s) ->
  exists an s',
    analyze_project_data pd s = (Ok an, s')
    /\ forall p t, dict_get pd p = Some t ->
         exists a df,
           dict_get an p = Some a
           /\ heap s !! coverage_df t = Some df
           /\ rec_coverage <$> coverage_trend a = coverage <$> samples df
           /\ (forall r, coverage_trend a !! 0 = Some r ->
                 rec_growth_rate r = Some NaN)
           /\ (forall i prev cur,
                 coverage_trend a !! i = Some prev ->
                 coverage_trend a !! S i = Some cur ->
                 exists g,
                   rec_growth_rate cur = Some g
                   /\ feq g (growth_formula (rec_coverage cur) (rec_coverage prev))
                   /\ (~ (rec_coverage prev == 0)%Q ->
                       exists q,
                         g = Fin q
                         /\ (q == (rec_coverage cur - rec_coverage prev)
                                  / rec_coverage prev * 100)%Q)).
Proof.
  intros Hnd Hv.
  destruct (analyze_project_data_spec pd s Hnd Hv)
    as (an & s' & Hrun & _ & _ & _ & Hin).
  exists an, s'. split; [done|]. intros p t Hget.
  destruct (Hin p t Hget) as (df & Hdf & Ha).
  eexists _, df. split_and!; [exact Ha | exact Hdf | | |]; cbn [coverage_trend analysis_of].
  - apply trend_coverage.
  - intros r. rewrite trend_lookup.
    destruct (samples df !! 0) as [s0|]; [|done]. simpl. by intros [= <-].
  - intros i prev cur. rewrite !trend_lookup.
    destruct (samples df !! i) as [sp|]; [|done].
    destruct (samples df !! S i) as [sc|]; [|done]. simpl.
    intros [= <-] [= <-]. simpl.
    eexists. split_and!; [reflexivity | apply pct_growth_formula | apply pct_nonzero].
Qed.

Lemma growth_rate_percent_change_witness :
  exists an s',
    analyze_project_data
      [("zlib", mkTables crash_data 0)]
      (mkState [new_frame (coverage_data 70)] []) = (Ok an, s')
    /\ forall p t, dict_get [("zlib", mkTables crash_data 0)] p = Some t ->
         exists a df,
           dict_get an p = Some a
           /\ heap (mkState [new_frame (coverage_data 70)] []) !! coverage_df t
              = Some df
           /\ rec_coverage <$> coverage_trend a = coverage <$> samples df
           /\ (forall r, coverage_trend a !! 0 = Some r ->
                 rec_growth_rate r = Some NaN)
           /\ (forall i prev cur,
                 coverage_trend a !! i = Some prev ->
                 coverage_trend a !! S i = Some cur ->
                 exists g,
                   rec_growth_rate cur = Some g
                   /\ feq g (growth_formula (rec_coverage cur) (rec_coverage prev))
                   /\ (~ (rec_coverage prev == 0)%Q ->
                       exists q,
                         g = Fin q
                         /\ (q == (rec_coverage cur - rec_coverage prev)
                                  / rec_coverage prev * 100)%Q)).
Proof.
  apply (growth_rate_percent_change [("zlib", mkTables crash_data 0)]
           (mkState [new_frame (coverage_data 70)] [])).
  - apply NoDup_singleton.
  - repeat constructor. simpl. eauto.
Defined.

(** *** Running the Analyzer twice *)

(** C2.  Calling [analyze_project_data] a second time on the same
    [project_data], in the store that the first call left, returns the same
    result as the first call; on a store where every reference is valid
    that result is a table of analysis records. *)
Theorem analyze_project_data_twice (pd : dict ProjectTables) (s : State) :
  (analyze_project_data pd (analyze_project_data pd s).2).1
  = (analyze_project_data pd s).1
  /\ (NoDup (keys pd) -> refs_valid pd (heap s) ->
      exists an, (analyze_project_data pd s).1 = Ok an).
Proof.
  split.
  - unfold analyze_project_data.
    destruct (analyze_loop_pure pd [] s (heap s) (touched_refl _)) as (H1 & Hh & _).
    destruct (analyze_loop_pure pd [] (analyze_loop pd [] s).2 (heap s) Hh)
      as (H2 & _ & _).
    congruence.
  - intros Hnd Hv.
    destruct (analyze_project_data_spec pd s Hnd Hv) as (an & s' & Hrun & _).
    exists an. by rewrite Hrun.
Qed.

Lemma analyze_project_data_twice_witness :
  (analyze_project_data [("zlib", mkTables crash_data 0)]
     (analyze_project_data [("zlib", mkTables crash_data 0)]
        (mkState [new_frame (coverage_data 70)] [])).2).1
  = (analyze_project_data [("zlib", mkTables crash_data 0)]
       (mkState [new_frame (coverage_data 70)] [])).1
  /\ exists an,
       (analyze_project_data [("zlib", mkTables crash_data 0)]
          (mkState [new_frame (coverage_data 70)] [])).1 = Ok an.
Proof.
  destruct (analyze_project_data_twice [("zlib", mkTables crash_data 0)]
              (mkState [new_frame (coverage_data 70)] [])) as [Heq Hok].
  split; [exact Heq|]. apply Hok.
  - apply NoDup_singleton.
  - repeat constructor. simpl. eauto.
Defined.

(** After a successful pass every frame that [project_data] refers to is
    [analyzed]: it carries the [growth_rate] column. *)
Lemma analyze_loop_visited items :
  forall acc s h0 an s',
    Forall2 touched h0 (heap s) ->
    analyze_loop items acc s = (Ok an, s') ->
    forall p t, (p, t) ∈ items ->
      exists df0, h0 !! coverage_df t = Some df0
                  /\ heap s' !! coverage_df t = Some (analyzed df0).
Proof.
  induction items as [|[q u] items IH]; intros acc s h0 an s' Hh Hrun p t Hin.
  - by apply elem_of_nil in Hin.
  - cbn [analyze_loop] in Hrun. rewrite run_bind in Hrun.
    destruct (heap s !! coverage_df u) as [df|] eqn:Hdf.
    2: { by rewrite analyze_project_dangling in Hrun. }
    rewrite (analyze_project_run _ _ _ _ df) in Hrun by done.
    destruct (Forall2_lookup_r _ _ _ _ _ Hh Hdf) as (df0 & Hdf0 & Ht).
    set (s1 := mkState _ _) in Hrun.
    assert (Forall2 touched h0 (heap s1)) as Hh1.
    { subst s1. simpl.
      rewrite <- (list_insert_id h0 (coverage_df u) df0) by done.
      apply Forall2_insert; [done|]. right. by apply touched_analyzed. }
    apply elem_of_cons in Hin as [[= -> ->]|Hin]; [|by eapply IH].
    exists df0. split; [done|].
    destruct (analyze_loop_pure items (dict_set acc q (analysis_of df u)) s1
                (heap s1) (touched_refl _)) as (_ & Hh' & _).
    rewrite Hrun in Hh'. simpl in Hh'.
    assert (heap s1 !! coverage_df u = Some (analyzed df0)) as H1.
    { subst s1. simpl. rewrite list_lookup_insert_eq by by eapply lookup_lt_Some.
      by rewrite (touched_analyzed df0 df). }
    destruct (Forall2_lookup_l _ _ _ _ _ Hh' H1) as (df' & Hdf' & [->| ->]);
      [done | by rewrite analyzed_idemp in Hdf'].
Qed.

(** *** The Analyzer writes to the stored table *)

(** On any store, after a successful pass the stored table of every
    project has the column [growth_rate]. *)
Lemma analyze_project_data_adds_growth_rate pd s an s' :
  analyze_project_data pd s = (Ok an, s') ->
  forall p t, dict_get pd p = Some t ->
    exists df df',
      heap s !! coverage_df t = Some df
      /\ heap s' !! coverage_df t = Some df'
      /\ columns df' = ["date"; "coverage"; "growth_rate"]
      /\ coverage <$> samples df' = coverage <$> samples df.
Proof.
  intros Hrun p t Hget.
  destruct (analyze_loop_visited pd [] s (heap s) an s' (touched_refl _) Hrun
              p t (dict_get_elem_of _ _ _ Hget)) as (df & Hdf & Hdf').
  exists df, (analyzed df). split_and!; [done | done | done |].
  apply coverage_analyzed.
Qed.

(** C1, evaluated on the request [["zlib"]]: the code departs from it.  The
    table that the Data Provider stored has the columns [date] and
    [coverage]; after the Analyzer the same stored table has the column
    [growth_rate] as well, and every coverage row of [raw_data] in the
    report that [main] writes has the key [growth_rate]. *)
Theorem analyzer_changes_stored_coverage :
  (exists pd s1 an s2 t df1 df2,
     fetch_project_data ["zlib"] (mkState [] []) = (Ok pd, s1)
     /\ analyze_project_data pd s1 = (Ok an, s2)
     /\ dict_get pd "zlib" = Some t
     /\ heap s1 !! coverage_df t = Some df1
     /\ heap s2 !! coverage_df t = Some df2
     /\ columns df1 = ["date"; "coverage"]
     /\ columns df2 = ["date"; "coverage"; "growth_rate"]
     /\ df2 ≠ df1)
  /\ (exists report raw zlib cov,
        written_report (main mock_world ["zlib"] (mkState [] [])).2 = Some report
        /\ json_get report "raw_data" = Some raw
        /\ json_get raw "zlib" = Some zlib
        /\ json_get zlib "coverage" = Some cov
        /\ length (json_items cov) = 9
        /\ Forall (fun row => is_Some (json_get row "growth_rate")) (json_items cov)).
Proof.
  split.
  - eexists _, _, _, _, _, _, _.
    split_and!; try (vm_compute; reflexivity). intros H. discriminate H.
  - eexists _, _, _, _.
    split_and!; try (vm_compute; reflexivity).
    vm_compute. repeat constructor; eauto.
Qed.

(** ** Metadata Fetcher *)

Section Metadata.

Context (world : World).

Lemma fetch_metadata_run md p s :
  fetch_metadata world md p s =
    (metadata_step world md p,
     {| heap := heap s; trace := trace s ++ [HttpGet (project_url p)] |}).
Proof.
  unfold fetch_metadata, metadata_step, http_get, lift, emit.
  rewrite !run_bind. simpl.
  destruct (requests_get world (project_url p)) as [r|e]; [|done].
  destruct (decide (status_code r = 200%Z)); [|done].
  rewrite run_bind. by destruct (response_json r).
Qed.

Lemma fetch_metadata_answered md p s r :
  requests_get world (project_url p) = Ok r ->
  (status_code r = 200%Z -> exists body, response_json r = Ok body) ->
  exists j,
    fetch_metadata world md p s =
      (Ok (dict_set md p j),
       {| heap := heap s; trace := trace s ++ [HttpGet (project_url p)] |})
    /\ stored_for r j.
Proof.
  intros Hr Hbody. rewrite fetch_metadata_run. unfold metadata_step. rewrite Hr.
  destruct (decide (status_code r = 200%Z)) as [H200|H200].
  - destruct (Hbody H200) as [body Hb]. exists body. rewrite Hb.
    split; [done|]. split; [done|]. intros; done.
  - exists not_found. split; [done|]. split; [intros; done | done].
Qed.

Lemma metadata_loop_answered names :
  forall md0 s,
    answered world names ->
    exists md,
      metadata_loop world names md0 s =
        (Ok md, {| heap := heap s; trace := trace s ++ requests names |})
      /\ (forall p, p ∉ names -> dict_get md p = dict_get md0 p)
      /\ (forall p, p ∈ names ->
            exists r j, requests_get world (project_url p) = Ok r
                        /\ dict_get md p = Some j
                        /\ stored_for r j).
Proof.
  induction names as [|q names IH]; intros md0 s Hans.
  - exists md0. unfold requests. simpl. rewrite app_nil_r.
    split_and!; [by destruct s | done |].
    intros p Hp. by apply elem_of_nil in Hp.
  - destruct (Hans q) as (r & Hr & Hbody); [apply elem_of_cons; by left|].
    destruct (fetch_metadata_answered md0 q s r Hr Hbody) as (j & Hstep & Hj).
    cbn [metadata_loop]. rewrite run_bind, Hstep.
    set (s1 := mkState _ _).
    destruct (IH (dict_set md0 q j) s1) as (md & Hrun & Hout & Hin).
    { intros p Hp. apply Hans. apply elem_of_cons; by right. }
    exists md. rewrite Hrun. subst s1. unfold requests. simpl.
    rewrite <- app_assoc. simpl. split_and!; [done | |].
    + intros p Hp. apply not_elem_of_cons in Hp as [Hpq Hp].
      rewrite Hout by done. by rewrite dict_get_set_ne.
    + intros p Hp. destruct (decide (p ∈ names)) as [Hpn|Hpn]; [by apply Hin|].
      apply elem_of_cons in Hp as [->|]; [|done].
      exists r, j. rewrite Hout by done. by rewrite dict_get_set_eq.
Qed.

(** In any run of the loop the store is untouched and the trace grows by
    the requests of the projects reached, all of them when the loop
    returns. *)
Lemma metadata_loop_trace names :
  forall md0 s,
    exists k,
      heap (metadata_loop world names md0 s).2 = heap s
      /\ trace (metadata_loop world names md0 s).2
         = trace s ++ requests (take k names)
      /\ (forall md, (metadata_loop world names md0 s).1 = Ok md ->
            take k names = names).
Proof.
  induction names as [|q names IH]; intros md0 s.
  - exists 0. simpl. rewrite app_nil_r. split_and!; [done | done |]. intros; reflexivity.
  - cbn [metadata_loop]. rewrite run_bind, fetch_metadata_run.
    destruct (metadata_step world md0 q) as [md1|e].
    + set (s1 := mkState _ _).
      destruct (IH md1 s1) as (k & Hh & Ht & Hok).
      exists (S k). rewrite Hh, Ht. subst s1. unfold requests. simpl.
      rewrite <- app_assoc. split_and!; [done | done |].
      intros md Hmd. f_equal. by eapply Hok.
    + exists 1. unfold requests. simpl.
      split_and!; [done | done | intros md H; discriminate H].
Qed.

End Metadata.

(** C8.  When the network answers every request, [fetch_project_metadata]
    returns, and under each requested project's key it stores the parsed
    body of a 200 response and exactly [{"error": "Project not found"}] for
    any other status; a not-found answer does not raise. *)
Theorem fetch_project_metadata_records (world : World) (names : list string)
    (s : State) :
  answered world names ->
  exists md s',
    fetch_project_metadata world names s = (Ok md, s')
    /\ forall p, p ∈ names ->
         exists r j,
           requests_get world (project_url p) = Ok r
           /\ dict_get md p = Some j
           /\ (status_code r = 200%Z -> response_json r = Ok j)
           /\ (status_code r ≠ 200%Z ->
               j = JDict [("error", JStr "Project not found")]).
Proof.
  intros Hans.
  destruct (metadata_loop_answered world names [] s Hans) as (md & Hrun & _ & Hin).
  eexists md, _. split; [exact Hrun|].
  intros p Hp. destruct (Hin p Hp) as (r & j & Hr & Hj & H200 & Hnot).
  exists r, j. done.
Qed.

Lemma mock_world_answered names : answered mock_world names.
Proof.
  intros p _. unfold mock_world. cbn [requests_get].
  destruct (decide (project_url p = project_url "zlib")).
  - eexists. split; [reflexivity|]. cbn [response_json]. eauto.
  - eexists. split; [reflexivity|]. cbn [status_code]. intros H. discriminate H.
Qed.

Lemma fetch_project_metadata_records_witness :
  exists md s',
    fetch_project_metadata mock_world ["zlib"; "invalid_project"] (mkState [] [])
    = (Ok md, s')
    /\ forall p, p ∈ ["zlib"; "invalid_project"] ->
         exists r j,
           requests_get mock_world (project_url p) = Ok r
           /\ dict_get md p = Some j
           /\ (status_code r = 200%Z -> response_json r = Ok j)
           /\ (status_code r ≠ 200%Z ->
               j = JDict [("error", JStr "Project not found")]).
Proof.
  apply (fetch_project_metadata_records mock_world ["zlib"; "invalid_project"]
           (mkState [] [])).
  apply mock_world_answered.
Defined.

(** ** Frames: what a computation leaves alone *)

Section Frame.

Context (n : nat).

Lemma frame_ret {A} (a : A) (Q : A -> Prop) : Q a -> frame n (mret a) Q.
Proof. intros Ha s Hs. split_and!; [done | done |]. by intros ? [= <-]. Qed.

Lemma frame_raise {A} (e : exn) (Q : A -> Prop) : frame n (raise e) Q.
Proof. intros s Hs. split_and!; [done | done |]. intros a H. discriminate H. Qed.

Lemma frame_lift {A} (r : result A) (Q : A -> Prop) :
  (forall a, r = Ok a -> Q a) -> frame n (lift r) Q.
Proof. intros Hr s Hs. split_and!; [done | done | exact Hr]. Qed.

Lemma frame_lift_any {A} (r : result A) : frame n (lift r) (fun _ => True).
Proof. by apply frame_lift. Qed.

Lemma frame_emit (e : Event) : frame n (emit e) (fun _ => True).
Proof. intros s Hs. by split_and!. Qed.

Lemma frame_deref (l : nat) : frame n (deref l) (fun _ => True).
Proof.
  intros s Hs. unfold deref. destruct (heap s !! l); by split_and!.
Qed.

Lemma frame_alloc (df : DataFrame) : frame n (alloc df) (fun l => n <= l).
Proof.
  intros s Hs. unfold alloc. simpl. split_and!.
  - by rewrite take_app_le.
  - rewrite length_app. lia.
  - by intros a [= <-].
Qed.

Lemma frame_modify (l : nat) (f : DataFrame -> DataFrame) :
  n <= l -> frame n (modify l f) (fun _ => True).
Proof.
  intros Hl s Hs. unfold modify. destruct (heap s !! l); simpl; [|by split_and!].
  split_and!; [by apply take_insert_ge | by rewrite length_insert | done].
Qed.

Lemma frame_bind {A B} (m : M A) (f : A -> M B) (Q : A -> Prop) (R : B -> Prop) :
  frame n m Q -> (forall a, Q a -> frame n (f a) R) -> frame n (m ≫= f) R.
Proof.
  intros Hm Hf s Hs. rewrite run_bind.
  destruct (Hm s Hs) as (Ht & Hlen & HQ).
  destruct (m s) as [[a|e] s1]; simpl in *.
  - destruct (Hf a (HQ a eq_refl) s1 Hlen) as (Ht' & Hlen' & HR).
    split_and!; [congruence | done | done].
  - split_and!; [done | done |]. intros b H. discriminate H.
Qed.

Lemma frame_weaken {A} (m : M A) (Q R : A -> Prop) :
  frame n m Q -> (forall a, Q a -> R a) -> frame n m R.
Proof.
  intros Hm HQR s Hs. destruct (Hm s Hs) as (Ht & Hlen & HQ).
  split_and!; [done | done |]. intros a Ha. by apply HQR, HQ.
Qed.

Lemma frame_copy (l : nat) : frame n (copy l) (fun l' => n <= l').
Proof.
  unfold copy. eapply frame_bind; [apply frame_deref|].
  intros df _. apply frame_alloc.
Qed.

End Frame.

(** A frame property read at the locations of the initial store. *)
Lemma frame_lookup {A} (m : M A) (Q : A -> Prop) s l df :
  frame (length (heap s)) m Q ->
  heap s !! l = Some df ->
  heap (m s).2 !! l = Some df.
Proof.
  intros Hm Hdf. destruct (Hm s (le_n _)) as (Ht & _ & _).
  assert (l < length (heap s)) as Hl by by eapply lookup_lt_Some.
  rewrite <- (lookup_take_lt _ (length (heap s))) by done.
  rewrite Ht, take_ge by done. exact Hdf.
Qed.

(** ** Trend Renderer *)

Section Renderer.

Context (world : World).

Lemma frame_plot_project n pd fig p :
  frame n (plot_project pd fig p) (fun _ => True).
Proof.
  unfold plot_project. destruct (dict_get pd p) as [t|]; [|apply frame_raise].
  eapply frame_bind; [apply frame_copy|]. intros df Hdf. simpl in Hdf.
  eapply frame_bind; [apply frame_deref|]. intros f _.
  eapply frame_bind; [apply frame_lift_any|]. intros ts _.
  eapply frame_bind; [by apply frame_modify|]. intros _ _.
  eapply frame_bind; [apply frame_deref|]. intros f' _.
  eapply frame_bind; [apply frame_lift_any|]. intros sorted _.
  eapply frame_bind; [apply frame_alloc|]. intros df' _.
  eapply frame_bind; [apply frame_deref|]. intros f'' _.
  by apply frame_ret.
Qed.

Lemma frame_plot_loop n pd names :
  forall fig, frame n (plot_loop pd names fig) (fun _ => True).
Proof.
  induction names as [|p names IH]; intros fig; simpl.
  - by apply frame_ret.
  - eapply frame_bind; [apply frame_plot_project|]. intros fig' _. apply IH.
Qed.

Lemma frame_savefig n path fig : frame n (savefig world path fig) (fun _ => True).
Proof.
  unfold savefig. destruct (writable world path);
    [apply frame_emit | apply frame_raise].
Qed.

Lemma frame_plot_coverage_trends n pd names :
  frame n (plot_coverage_trends world pd names) (fun _ => True).
Proof.
  unfold plot_coverage_trends.
  eapply frame_bind; [apply frame_plot_loop|]. intros fig _. apply frame_savefig.
Qed.

End Renderer.

(** C10.  [plot_coverage_trends] leaves its input alone: whatever it
    returns or raises, every frame that was in the store before the call,
    and so the coverage table of every project of [project_data], is the
    same after it (same rows in the same order, same [date] cells, same
    columns); parsing and sorting write to the copies only. *)
Theorem plot_coverage_trends_preserves_input (world : World)
    (pd : dict ProjectTables) (names : list string) (s : State) :
  (forall l df,
     heap s !! l = Some df ->
     heap (plot_coverage_trends world pd names s).2 !! l = Some df)
  /\ (forall p t df,
        dict_get pd p = Some t ->
        heap s !! coverage_df t = Some df ->
        heap (plot_coverage_trends world pd names s).2 !! coverage_df t = Some df).
Proof.
  assert (forall l df,
             heap s !! l = Some df ->
             heap (plot_coverage_trends world pd names s).2 !! l = Some df) as H.
  { intros l df. apply (frame_lookup _ (fun _ => True)).
    apply frame_plot_coverage_trends. }
  split; [exact H|]. intros p t df _. apply H.
Qed.

Lemma plot_coverage_trends_preserves_input_witness :
  heap (plot_coverage_trends mock_world [("zlib", mkTables crash_data 0)] ["zlib"]
          (mkState [new_frame (coverage_data 70)] [])).2 !! 0
  = Some (new_frame (coverage_data 70)).
Proof.
  apply (proj2 (plot_coverage_trends_preserves_input mock_world
                  [("zlib", mkTables crash_data 0)] ["zlib"]
                  (mkState [new_frame (coverage_data 70)] []))
           "zlib" (mkTables crash_data 0)).
  - reflexivity.
  - reflexivity.
Defined.

(** ** Silent computations: no outside effect *)

Lemma silent_ret {A} (a : A) : silent (mret a).
Proof. by intros s. Qed.

Lemma silent_raise {A} (e : exn) : silent (raise e : M A).
Proof. by intros s. Qed.

Lemma silent_lift {A} (r : result A) : silent (lift r).
Proof. by intros s. Qed.

Lemma silent_alloc df : silent (alloc df).
Proof. by intros s. Qed.

Lemma silent_deref l : silent (deref l).
Proof. intros s. unfold deref. by destruct (heap s !! l). Qed.

Lemma silent_modify l f : silent (modify l f).
Proof. intros s. unfold modify. by destruct (heap s !! l). Qed.

Lemma silent_bind {A B} (m : M A) (f : A -> M B) :
  silent m -> (forall a, silent (f a)) -> silent (m ≫= f).
Proof.
  intros Hm Hf s. rewrite run_bind. specialize (Hm s).
  destruct (m s) as [[a|e] s1]; simpl in *; [|done].
  by rewrite Hf.
Qed.

Create HintDb silent.
#[local] Hint Resolve silent_ret silent_raise silent_lift silent_alloc
  silent_deref silent_modify : silent.

Ltac silent_steps :=
  repeat first
    [ apply silent_bind; [|intros ?]
    | solve [auto with silent] ].

Lemma silent_copy l : silent (copy l).
Proof. unfold copy. silent_steps. Qed.

Lemma silent_fetch_loop names : forall pd0, silent (fetch_loop names pd0).
Proof.
  induction names as [|p names IH]; intros pd0; simpl; [auto with silent|].
  apply silent_bind; [|intros; apply IH].
  unfold fetch_project. destruct (dict_get coverage_base p); silent_steps.
Qed.

Lemma silent_analyze_loop items : forall acc, silent (analyze_loop items acc).
Proof.
  induction items as [|[p t] items IH]; intros acc; simpl; [auto with silent|].
  apply silent_bind; [|intros; apply IH].
  unfold analyze_project. silent_steps.
Qed.

Lemma silent_plot_loop pd names : forall fig, silent (plot_loop pd names fig).
Proof.
  induction names as [|p names IH]; intros fig; simpl; [auto with silent|].
  apply silent_bind; [|intros; apply IH].
  unfold plot_project. destruct (dict_get pd p); [|auto with silent].
  pose proof silent_copy. silent_steps.
Qed.

Lemma silent_raw_loop items : forall acc, silent (raw_loop items acc).
Proof.
  induction items as [|[p t] items IH]; intros acc; simpl; [auto with silent|].
  apply silent_bind; [|intros; apply IH].
  unfold raw_project. pose proof silent_copy. silent_steps.
Qed.

(** ** Sorting parsed dates never fails *)

Lemma insert_row_time x l :
  is_time (date x.1) ->
  Forall (fun r => is_time (date r.1)) l ->
  exists out,
    insert_row x l = Ok out /\ Forall (fun r : SortRow => is_time (date r.1)) out.
Proof.
  intros Hx Hl. induction Hl as [|y l Hy Hl IH]; simpl.
  - eexists. split; [reflexivity|]. by repeat constructor.
  - destruct Hx as [tx Hx], Hy as [ty Hy]. rewrite Hx, Hy. simpl.
    destruct (ts_le tx ty).
    + eexists. split; [reflexivity|].
      repeat constructor; [by exists tx | by exists ty | done].
    + destruct IH as (out & -> & Hout). simpl.
      eexists. split; [reflexivity|]. constructor; [by exists ty | done].
Qed.

Lemma sort_rows_time l :
  Forall (fun r : SortRow => is_time (date r.1)) l ->
  exists out,
    sort_rows l = Ok out /\ Forall (fun r : SortRow => is_time (date r.1)) out.
Proof.
  induction 1 as [|x l Hx Hl IH]; simpl.
  - eexists. split; [reflexivity | constructor].
  - destruct IH as (out & -> & Hout). simpl. by apply insert_row_time.
Qed.

Lemma frame_rows_set_date df (ts : list Timestamp) :
  Forall (fun r : SortRow => is_time (date r.1))
    (frame_rows (set_date df (DateTime <$> ts))).
Proof.
  unfold frame_rows, set_date. simpl.
  assert (Forall (fun s => is_time (date s))
            (zip_with (fun s x => mkSample x (coverage s)) (samples df)
               (DateTime <$> ts))) as H.
  { generalize (samples df). induction ts as [|t ts IH]; intros [|s l]; simpl;
      try constructor; [by exists t | apply IH]. }
  revert H. generalize (zip_with (fun s x => mkSample x (coverage s)) (samples df)
                          (DateTime <$> ts)).
  intros l Hl. destruct (growth_rate df) as [g|].
  - revert g. induction Hl as [|s l Hs Hl IH]; intros [|x g]; simpl;
      try constructor; [done | apply IH].
  - induction Hl; simpl; constructor; done.
Qed.

Lemma sort_values_date_parsed df ts :
  exists sorted, sort_values_date (set_date df (DateTime <$> ts)) = Ok sorted.
Proof.
  unfold sort_values_date.
  destruct (sort_rows_time _ (frame_rows_set_date df ts)) as (out & -> & _).
  simpl. eauto.
Qed.

(** The dates that the Data Provider writes all parse. *)
Lemma coverage_data_dates_parse b :
  exists ts,
    traverse to_datetime
      (date <$> samples (analyzed (new_frame (coverage_data b)))) = Ok ts.
Proof. eexists. reflexivity. Qed.

(** ** Runs of the Trend Renderer and of the Report Writer *)

(** One turn of the plotting loop on a frame whose dates parse. *)
Lemma plot_project_run pd fig p s t df ts :
  dict_get pd p = Some t ->
  heap s !! coverage_df t = Some df ->
  traverse to_datetime (date <$> samples df) = Ok ts ->
  exists fig' ext,
    plot_project pd fig p s =
      (Ok fig', {| heap := heap s ++ ext; trace := trace s |}).
Proof.
  intros Hget Hdf Hts. unfold plot_project. rewrite Hget.
  destruct (sort_values_date_parsed df ts) as [sorted Hsort].
  unfold copy. rewrite !run_bind, (run_deref_Some _ df) by done.
  unfold alloc at 1. cbn [heap trace].
  set (n := length (heap s)).
  rewrite run_bind, (run_deref_Some _ df)
    by (simpl; rewrite lookup_app_r by done; by rewrite Nat.sub_diag).
  rewrite run_bind. unfold lift at 1. rewrite Hts.
  rewrite run_bind, (run_modify_Some _ _ df)
    by (simpl; rewrite lookup_app_r by done; by rewrite Nat.sub_diag).
  cbn [heap trace].
  replace (<[n:=set_date df (DateTime <$> ts)]> (heap s ++ [df]))
    with (heap s ++ [set_date df (DateTime <$> ts)])
    by (subst n; rewrite insert_app_r_alt, Nat.sub_diag by done; done).
  rewrite run_bind, (run_deref_Some _ (set_date df (DateTime <$> ts)))
    by (simpl; rewrite lookup_app_r by done; by rewrite Nat.sub_diag).
  rewrite run_bind. unfold lift at 1. rewrite Hsort.
  rewrite run_bind. unfold alloc at 1. cbn [heap trace].
  rewrite run_bind, (run_deref_Some _ sorted).
  2: { simpl. rewrite lookup_app_r by done. by rewrite Nat.sub_diag. }
  rewrite run_ret. rewrite <- app_assoc. eauto.
Qed.

Lemma analyzed_store_app pd h ext :
  analyzed_store pd h -> analyzed_store pd (h ++ ext).
Proof.
  intros H p t Hget. destruct (H p t Hget) as [b Hb].
  exists b. by apply lookup_app_l_Some.
Qed.

Lemma plot_loop_run pd names :
  forall fig s,
    analyzed_store pd (heap s) ->
    (forall p, p ∈ names -> is_Some (dict_get pd p)) ->
    exists fig' ext,
      plot_loop pd names fig s =
        (Ok fig', {| heap := heap s ++ ext; trace := trace s |}).
Proof.
  induction names as [|p names IH]; intros fig s Hst Hin.
  - exists fig, []. rewrite app_nil_r. by destruct s.
  - destruct (Hin p) as [t Hget]; [apply elem_of_cons; by left|].
    destruct (Hst p t Hget) as [b Hb].
    destruct (coverage_data_dates_parse b) as [ts Hts].
    destruct (plot_project_run pd fig p s t _ ts Hget Hb Hts)
      as (fig1 & ext1 & Hstep).
    cbn [plot_loop]. rewrite run_bind, Hstep.
    set (s1 := mkState _ _).
    destruct (IH fig1 s1) as (fig' & ext & Hrun).
    { subst s1. simpl. by apply analyzed_store_app. }
    { intros q Hq. apply Hin. apply elem_of_cons; by right. }
    exists fig', (ext1 ++ ext). rewrite Hrun. subst s1. simpl.
    by rewrite app_assoc.
Qed.

Lemma str_dated_analyzed df : str_dated (to_dict_records (analyzed df)).
Proof.
  apply Forall_lookup. intros i r. rewrite trend_lookup.
  destruct (samples df !! i) as [s|]; [|done]. simpl. intros [= <-]. simpl.
  by eexists.
Qed.

Lemma dict_set_Forall {V} (P : V -> Prop) (d : dict V) k v :
  Forall (fun kv => P kv.2) d -> P v -> Forall (fun kv => P kv.2) (dict_set d k v).
Proof.
  intros Hd Hv. induction Hd as [|[k' v'] d Hv' Hd IH]; simpl.
  - by repeat constructor.
  - destruct (decide (k' = k)); constructor; done.
Qed.

Lemma analyze_pure_str_dated h0 items :
  forall acc an,
    analyze_pure h0 items acc = Ok an ->
    Forall (fun kv => str_dated (coverage_trend kv.2)) acc ->
    Forall (fun kv => str_dated (coverage_trend kv.2)) an.
Proof.
  induction items as [|[p t] items IH]; intros acc an; cbn [analyze_pure].
  - by intros [= <-].
  - destruct (h0 !! coverage_df t) as [df0|]; [|done].
    intros Hrun Hacc. eapply IH; [exact Hrun|].
    apply (dict_set_Forall (fun a => str_dated (coverage_trend a))); [done|].
    apply str_dated_analyzed.
Qed.

Lemma raw_loop_run items :
  forall acc s,
    Forall (fun kv => exists df0,
              heap s !! coverage_df kv.2 = Some (analyzed df0)) items ->
    Forall (fun kv => str_dated (raw_coverage kv.2)) acc ->
    exists raw ext,
      raw_loop items acc s =
        (Ok raw, {| heap := heap s ++ ext; trace := trace s |})
      /\ Forall (fun kv => str_dated (raw_coverage kv.2)) raw.
Proof.
  induction items as [|[p t] items IH]; intros acc s Hitems Hacc.
  - exists acc, []. rewrite app_nil_r. split; [by destruct s | done].
  - apply Forall_cons in Hitems as [[df0 Hdf0] Hitems]. cbn [snd] in Hdf0.
    cbn [raw_loop]. unfold raw_project, copy.
    rewrite !run_bind, (run_deref_Some _ (analyzed df0)) by done.
    unfold alloc at 1. cbn [heap trace].
    rewrite run_bind, (run_deref_Some _ (analyzed df0))
      by (simpl; rewrite lookup_app_r by done; by rewrite Nat.sub_diag).
    rewrite run_ret.
    set (s1 := mkState _ _). set (acc1 := dict_set _ _ _).
    destruct (IH acc1 s1) as (raw & ext & Hrun & Hraw).
    { eapply Forall_impl; [exact Hitems|]. intros kv [df Hdf].
      exists df. subst s1. simpl. by apply lookup_app_l_Some. }
    { apply (dict_set_Forall (fun r => str_dated (raw_coverage r))); [done|].
      apply str_dated_analyzed. }
    exists raw, ([analyzed df0] ++ ext). rewrite Hrun. subst s1. simpl.
    split; [|done]. by rewrite <- app_assoc.
Qed.

(** ** Serialisation *)

Lemma traverse_ok {A B} (f : A -> result B) (l : list A) :
  Forall (fun x => exists y, f x = Ok y) l -> exists ys, traverse f l = Ok ys.
Proof.
  induction 1 as [|x l [y Hy] Hl [ys IH]]; simpl.
  - by eexists.
  - rewrite Hy. simpl. rewrite IH. simpl. by eexists.
Qed.

Lemma json_of_row_str r : is_str (rec_date r) -> exists j, json_of_row r = Ok j.
Proof.
  intros [s Hs]. unfold json_of_row. rewrite Hs. simpl. by eexists.
Qed.

Lemma traverse_json_of_row rows :
  str_dated rows -> exists js, traverse json_of_row rows = Ok js.
Proof.
  intros H. apply traverse_ok. eapply Forall_impl; [exact H|].
  apply json_of_row_str.
Qed.

Lemma json_of_analysis_ok a :
  str_dated (coverage_trend a) -> exists j, json_of_analysis a = Ok j.
Proof.
  intros H. unfold json_of_analysis.
  destruct (traverse_json_of_row _ H) as [js ->]. simpl. by eexists.
Qed.

Lemma json_of_raw_ok r :
  str_dated (raw_coverage r) -> exists j, json_of_raw r = Ok j.
Proof.
  intros H. unfold json_of_raw.
  destruct (traverse_json_of_row _ H) as [js ->]. simpl. by eexists.
Qed.

Lemma json_of_dict_ok {V} (f : V -> result Json) (d : dict V) :
  Forall (fun kv => exists j, f kv.2 = Ok j) d -> exists j, json_of_dict f d = Ok j.
Proof.
  intros H. unfold json_of_dict.
  destruct (traverse_ok (fun kv => j ← f kv.2; mret (kv.1, j)) d) as [kvs ->].
  - eapply Forall_impl; [exact H|]. intros kv [j Hj]. rewrite Hj. simpl. by eexists.
  - simpl. by eexists.
Qed.

(** A report that serialises has exactly the three top-level keys, in this
    order. *)
Lemma json_of_report_keys r content :
  json_of_report r = Ok content ->
  exists a raw,
    content = JDict [("metadata", JDict (metadata r));
                     ("analysis", a);
                     ("raw_data", raw)].
Proof.
  unfold json_of_report.
  destruct (json_of_dict json_of_analysis (analysis r)) as [a|]; [|done]. simpl.
  destruct (json_of_dict json_of_raw (raw_data r)) as [raw|]; [|done]. simpl.
  intros [= <-]. eauto.
Qed.

Lemma json_of_report_ok r :
  Forall (fun kv => str_dated (coverage_trend kv.2)) (analysis r) ->
  Forall (fun kv => str_dated (raw_coverage kv.2)) (raw_data r) ->
  exists content, json_of_report r = Ok content.
Proof.
  intros Ha Hr. unfold json_of_report.
  destruct (json_of_dict_ok json_of_analysis (analysis r)) as [a ->].
  { eapply Forall_impl; [exact Ha|]. intros kv. apply json_of_analysis_ok. }
  destruct (json_of_dict_ok json_of_raw (raw_data r)) as [raw ->].
  { eapply Forall_impl; [exact Hr|]. intros kv. apply json_of_raw_ok. }
  simpl. by eexists.
Qed.

(** ** Orchestrator *)

Lemma requests_take_drop k names :
  requests names = requests (take k names) ++ requests (drop k names).
Proof. unfold requests. by rewrite <- fmap_app, take_drop. Qed.

(** In every run, failed or not, the outside effects of [main] are an
    initial part of the sequence requests, chart, report; a run that
    returns has produced all of it. *)
Lemma main_trace world names s :
  exists done fig m a raw,
    trace (main world names s).2 = trace s ++ done
    /\ done `prefix_of` whole_trace world names fig (report_json m a raw)
    /\ ((main world names s).1 = Ok tt ->
        done = whole_trace world names fig (report_json m a raw)).
Proof.
  destruct (main world names s) as [r s'] eqn:Hmain. cbn [fst snd].
  unfold main in Hmain. rewrite run_bind in Hmain.
  destruct (metadata_loop_trace world names [] s) as (k & _ & Ht1 & Hok1).
  unfold fetch_project_metadata in Hmain.
  destruct (metadata_loop world names [] s) as [[md|e] s1];
    simpl in Ht1, Hok1; cbn beta iota in Hmain.
  2: { injection Hmain as <- <-.
       exists (requests (take k names)), [], JNull, JNull, JNull.
       split_and!; [done | | intros H; discriminate H].
       unfold whole_trace. rewrite (requests_take_drop k names), <- app_assoc.
       by eexists. }
  rewrite (Hok1 md eq_refl) in Ht1. clear Hok1 k.
  rewrite run_bind in Hmain. pose proof (silent_fetch_loop names [] s1) as Ht2.
  unfold fetch_project_data in Hmain.
  destruct (fetch_loop names [] s1) as [[pd|e] s2];
    simpl in Ht2; cbn beta iota in Hmain.
  2: { injection Hmain as <- <-.
       exists (requests names), [], JNull, JNull, JNull.
       split_and!; [congruence | by eexists | intros H; discriminate H]. }
  rewrite run_bind in Hmain. pose proof (silent_analyze_loop pd [] s2) as Ht3.
  unfold analyze_project_data in Hmain.
  destruct (analyze_loop pd [] s2) as [[an|e] s3];
    simpl in Ht3; cbn beta iota in Hmain.
  2: { injection Hmain as <- <-.
       exists (requests names), [], JNull, JNull, JNull.
       split_and!; [congruence | by eexists | intros H; discriminate H]. }
  rewrite run_bind in Hmain. unfold plot_coverage_trends in Hmain.
  rewrite run_bind in Hmain.
  pose proof (silent_plot_loop pd names [] s3) as Ht4.
  destruct (plot_loop pd names [] s3) as [[fig|e] s4];
    simpl in Ht4; cbn beta iota in Hmain.
  2: { injection Hmain as <- <-.
       exists (requests names), [], JNull, JNull, JNull.
       split_and!; [congruence | by eexists | intros H; discriminate H]. }
  fold (chart_path world) in Hmain. fold (report_path world) in Hmain.
  unfold savefig in Hmain.
  destruct (writable world (chart_path world)); cbn beta iota in Hmain.
  2: { injection Hmain as <- <-.
       exists (requests names), [], JNull, JNull, JNull.
       split_and!; [congruence | by eexists | intros H; discriminate H]. }
  unfold emit at 1 in Hmain. cbn beta iota in Hmain. rewrite run_bind in Hmain.
  set (s5 := mkState (heap s4) _) in Hmain.
  pose proof (silent_raw_loop pd [] s5) as Ht5.
  assert (trace s5 = trace s ++ requests names ++ [SaveFig (chart_path world) fig])
    as Hs5 by (subst s5; simpl; rewrite Ht4, Ht3, Ht2, Ht1; by rewrite <- app_assoc).
  destruct (raw_loop pd [] s5) as [[raw|e] s6];
    cbn [snd] in Ht5; rewrite Hs5 in Ht5; cbn beta iota in Hmain.
  2: { injection Hmain as <- <-.
       exists (requests names ++ [SaveFig (chart_path world) fig]), fig,
         JNull, JNull, JNull.
       split_and!; [congruence | | intros H; discriminate H].
       unfold whole_trace. eexists. by rewrite <- app_assoc. }
  cbn beta iota zeta in Hmain. rewrite run_bind in Hmain. unfold open_w in Hmain.
  destruct (writable world (report_path world)); cbn beta iota in Hmain.
  2: { injection Hmain as <- <-.
       exists (requests names ++ [SaveFig (chart_path world) fig]), fig,
         JNull, JNull, JNull.
       split_and!; [congruence | | intros H; discriminate H].
       unfold whole_trace. eexists. by rewrite <- app_assoc. }
  unfold emit at 1 in Hmain. cbn beta iota in Hmain.
  unfold json_dump in Hmain. rewrite run_bind in Hmain.
  unfold lift at 1 in Hmain. cbn beta iota in Hmain.
  destruct (json_of_report _) as [content|e] eqn:Hjson; cbn beta iota in Hmain.
  2: { injection Hmain as <- <-.
       exists (requests names
               ++ [SaveFig (chart_path world) fig; OpenFile (report_path world)]),
         fig, JNull, JNull, JNull.
       split_and!; [| | intros H; discriminate H].
       - simpl. rewrite Ht5. by rewrite <- !app_assoc.
       - unfold whole_trace. eexists. by rewrite <- app_assoc. }
  destruct (json_of_report_keys _ _ Hjson) as (a & rawj & ->).
  injection Hmain as <- <-.
  exists (whole_trace world names fig (report_json (JDict md) a rawj)), fig,
    (JDict md), a, rawj.
  split_and!; [|done|done].
  simpl. rewrite Ht5. unfold whole_trace. by rewrite <- !app_assoc.
Qed.

(** When the network answers, every project has a baseline and both output
    paths are writable, each stage returns in the state that the stage
    before it left, and [main] writes the report built from their
    results. *)
Lemma main_completes world names s :
  answered world names ->
  Forall (fun p => is_Some (dict_get coverage_base p)) names ->
  writable world (chart_path world) = true ->
  writable world (report_path world) = true ->
  exists md s1 pd s2 an s3 s4 raw s5 fig content,
    fetch_project_metadata world names s = (Ok md, s1)
    /\ fetch_project_data names s1 = (Ok pd, s2)
    /\ analyze_project_data pd s2 = (Ok an, s3)
    /\ plot_coverage_trends world pd names s3 = (Ok tt, s4)
    /\ raw_loop pd [] s4 = (Ok raw, s5)
    /\ json_of_report (mkReport md an raw) = Ok content
    /\ main world names s =
         (Ok tt, {| heap := heap s5;
                    trace := trace s ++ whole_trace world names fig content |}).
Proof.
  intros Hans Hknown Hchart Hreport.
  (* fetch metadata *)
  destruct (metadata_loop_answered world names [] s Hans) as (md & Hrun1 & _ & _).
  set (s1 := mkState _ _) in Hrun1.
  (* fetch data *)
  destruct (fetch_project_data_spec names s1 Hknown)
    as (pd & ext2 & Hrun2 & Hnd & Hreq & Hget).
  set (s2 := mkState _ _) in Hrun2.
  assert (refs_valid pd (heap s2)) as Hv.
  { apply refs_valid_dict_get; [|done]. intros p t Hp.
    destruct (Hget p t Hp) as (_ & _ & b & _ & Hdf). eauto. }
  (* analyze *)
  destruct (analyze_project_data_spec pd s2 Hnd Hv)
    as (an & s3 & Hrun3 & _ & Htr3 & _ & _).
  assert (analyzed_store pd (heap s3)) as Hst3.
  { intros p t Hp. destruct (Hget p t Hp) as (_ & _ & b & _ & Hdf).
    destruct (analyze_loop_visited pd [] s2 (heap s2) an s3 (touched_refl _)
                Hrun3 p t (dict_get_elem_of _ _ _ Hp)) as (df0 & Hdf0 & Hdf3).
    exists b. rewrite Hdf3. subst s2 s1. simpl in Hdf0, Hdf. congruence. }
  assert (Forall (fun kv => str_dated (coverage_trend kv.2)) an) as Han.
  { destruct (analyze_loop_pure pd [] s2 (heap s2) (touched_refl _)) as (Hp & _ & _).
    unfold analyze_project_data in Hrun3. rewrite Hrun3 in Hp. simpl in Hp.
    eapply analyze_pure_str_dated; [symmetry; exact Hp | constructor]. }
  (* render chart *)
  destruct (plot_loop_run pd names [] s3 Hst3 Hreq) as (fig & ext4 & Hloop4).
  assert (exists s4,
             plot_coverage_trends world pd names s3 = (Ok tt, s4)
             /\ heap s4 = heap s3 ++ ext4
             /\ trace s4 = trace s3 ++ [SaveFig (chart_path world) fig])
    as (s4 & Hrun4 & Hh4 & Htr4).
  { eexists. unfold plot_coverage_trends. rewrite run_bind, Hloop4.
    fold (chart_path world). unfold savefig. rewrite Hchart.
    split; [reflexivity|]. done. }
  (* build report *)
  destruct (raw_loop_run pd [] s4) as (raw & ext5 & Hrun5 & Hraw); [|constructor|].
  { apply Forall_forall. intros [p t] Hin.
    destruct (Hst3 p t (elem_of_dict_get _ _ _ Hnd Hin)) as [b Hb].
    eexists. cbn [snd]. rewrite Hh4. apply lookup_app_l_Some. exact Hb. }
  set (s5 := mkState _ _) in Hrun5.
  destruct (json_of_report_ok (mkReport md an raw) Han Hraw) as [content Hjson].
  exists md, s1, pd, s2, an, s3, s4, raw, s5, fig, content.
  split_and!; try done.
  (* write report *)
  unfold main, fetch_project_metadata.
  rewrite run_bind, Hrun1. cbn beta iota.
  rewrite run_bind, Hrun2. cbn beta iota.
  rewrite run_bind, Hrun3. cbn beta iota.
  rewrite run_bind, Hrun4. cbn beta iota.
  rewrite run_bind, Hrun5. cbn beta iota zeta.
  fold (report_path world). unfold open_w. rewrite Hreport.
  rewrite run_bind. unfold emit at 1. cbn beta iota.
  unfold json_dump. rewrite run_bind. unfold lift at 1. rewrite Hjson.
  cbn beta iota. unfold emit. f_equal. subst s5. simpl. f_equal.
  rewrite Htr4, Htr3. subst s2 s1. simpl. unfold whole_trace.
  by rewrite <- !app_assoc.
Qed.

(** A run of the Data Provider that returns has found a baseline for every
    requested project. *)
Lemma fetch_loop_returns_known names :
  forall pd0 s pd s',
    fetch_loop names pd0 s = (Ok pd, s') ->
    Forall (fun p => is_Some (dict_get coverage_base p)) names.
Proof.
  induction names as [|n names IH]; intros pd0 s pd s' Hrun; [constructor|].
  cbn [fetch_loop] in Hrun. rewrite run_bind in Hrun.
  destruct (dict_get coverage_base n) as [b|] eqn:Hn.
  - rewrite (fetch_project_known _ _ b) in Hrun by done.
    constructor; [by eexists | by eapply IH].
  - by rewrite fetch_project_unknown in Hrun.
Qed.

(** Once the Metadata Fetcher and the Data Provider have returned, no stage
    before the two writes can fail: the Analyzer returns, every line of the
    chart is drawn, and after the chart the report is built and
    serialises. *)
Lemma main_after_data world names s md s1 pd s2 :
  fetch_project_metadata world names s = (Ok md, s1) ->
  fetch_project_data names s1 = (Ok pd, s2) ->
  exists an s3 fig s4 raw s5 content,
    analyze_project_data pd s2 = (Ok an, s3)
    /\ plot_loop pd names [] s3 = (Ok fig, s4)
    /\ trace s4 = trace s ++ requests names
    /\ raw_loop pd []
         {| heap := heap s4;
            trace := trace s4 ++ [SaveFig (chart_path world) fig] |}
       = (Ok raw, s5)
    /\ trace s5 = trace s4 ++ [SaveFig (chart_path world) fig]
    /\ json_of_report (mkReport md an raw) = Ok content.
Proof.
  intros Hrun1 Hrun2.
  assert (trace s1 = trace s ++ requests names) as Ht1.
  { destruct (metadata_loop_trace world names [] s) as (k & _ & Ht & Hok).
    unfold fetch_project_metadata in Hrun1. rewrite Hrun1 in Ht, Hok.
    simpl in Ht, Hok. by rewrite (Hok md eq_refl) in Ht. }
  pose proof (fetch_loop_returns_known names [] s1 pd s2 Hrun2) as Hknown.
  destruct (fetch_project_data_spec names s1 Hknown)
    as (pd' & ext2 & Hrun2' & Hnd & Hreq & Hget).
  rewrite Hrun2 in Hrun2'. injection Hrun2' as <- Hs2.
  assert (trace s2 = trace s1) as Ht2 by (by rewrite Hs2).
  assert (refs_valid pd (heap s2)) as Hv.
  { apply refs_valid_dict_get; [|done]. intros p t Hp.
    destruct (Hget p t Hp) as (_ & _ & b & _ & Hdf). rewrite Hs2. eauto. }
  destruct (analyze_project_data_spec pd s2 Hnd Hv)
    as (an & s3 & Hrun3 & _ & Htr3 & _ & _).
  assert (analyzed_store pd (heap s3)) as Hst3.
  { intros p t Hp. destruct (Hget p t Hp) as (_ & _ & b & _ & Hdf).
    destruct (analyze_loop_visited pd [] s2 (heap s2) an s3 (touched_refl _)
                Hrun3 p t (dict_get_elem_of _ _ _ Hp)) as (df0 & Hdf0 & Hdf3).
    exists b. rewrite Hdf3. rewrite Hs2 in Hdf0. simpl in Hdf0. congruence. }
  assert (Forall (fun kv => str_dated (coverage_trend kv.2)) an) as Han.
  { destruct (analyze_loop_pure pd [] s2 (heap s2) (touched_refl _)) as (Hp & _ & _).
    unfold analyze_project_data in Hrun3. rewrite Hrun3 in Hp. simpl in Hp.
    eapply analyze_pure_str_dated; [symmetry; exact Hp | constructor]. }
  destruct (plot_loop_run pd names [] s3 Hst3 Hreq) as (fig & ext4 & Hloop4).
  set (s4 := mkState _ _) in Hloop4.
  set (s4' := {| heap := heap s4;
                 trace := trace s4 ++ [SaveFig (chart_path world) fig] |}).
  destruct (raw_loop_run pd [] s4') as (raw & ext5 & Hrun5 & Hraw); [|constructor|].
  { apply Forall_forall. intros [p t] Hin.
    destruct (Hst3 p t (elem_of_dict_get _ _ _ Hnd Hin)) as [b Hb].
    eexists. cbn [snd]. subst s4' s4. simpl. apply lookup_app_l_Some. exact Hb. }
  destruct (json_of_report_ok (mkReport md an raw) Han Hraw) as [content Hjson].
  eexists an, s3, fig, s4, raw, _, content.
  split_and!; [done | done | | exact Hrun5 | done | done].
  subst s4. simpl. by rewrite Htr3, Ht2.
Qed.

(** C9.  [main] runs the stages in the order fetch metadata, fetch data,
    analyze, render chart, build report, write report.  In every run the
    outside effects are an initial part of: the requests in the order of
    the projects, the chart, the report; a run that returns has produced
    all of them.  When no stage fails, each stage starts in the state left
    by the one before it, and the report written is one JSON object with
    exactly the keys [metadata], [analysis], [raw_data], holding the
    results of the first three stages and of the report builder.  A stage
    that raises ends the run with its error, in the state it left, and no
    later stage has run: when the Metadata Fetcher raises, the store is
    untouched (no table has been built); when the Data Provider raises,
    every request has been made before; once both have returned, the
    Analyzer returns and the Trend Renderer runs from the state it left;
    the chart is saved before the tables of the report are copied, and
    these are copied before the report file is opened. *)
Theorem main_pipeline_order (world : World) (names : list string) (s : State) :
  (exists done fig m a raw,
     trace (main world names s).2 = trace s ++ done
     /\ done `prefix_of` whole_trace world names fig (report_json m a raw)
     /\ ((main world names s).1 = Ok tt ->
         done = whole_trace world names fig (report_json m a raw)))
  /\ (answered world names ->
      Forall (fun p => is_Some (dict_get coverage_base p)) names ->
      writable world (chart_path world) = true ->
      writable world (report_path world) = true ->
      exists md s1 pd s2 an s3 s4 raw s5 fig content,
        fetch_project_metadata world names s = (Ok md, s1)
        /\ fetch_project_data names s1 = (Ok pd, s2)
        /\ analyze_project_data pd s2 = (Ok an, s3)
        /\ plot_coverage_trends world pd names s3 = (Ok tt, s4)
        /\ raw_loop pd [] s4 = (Ok raw, s5)
        /\ json_of_report (mkReport md an raw) = Ok content
        /\ (exists a r, content = report_json (JDict md) a r)
        /\ main world names s =
             (Ok tt, {| heap := heap s5;
                        trace := trace s ++ whole_trace world names fig content |}))
  /\ (forall e s1,
        fetch_project_metadata world names s = (Raise e, s1) ->
        main world names s = (Raise e, s1) /\ heap s1 = heap s)
  /\ (forall md s1 e s2,
        fetch_project_metadata world names s = (Ok md, s1) ->
        fetch_project_data names s1 = (Raise e, s2) ->
        main world names s = (Raise e, s2)
        /\ trace s2 = trace s ++ requests names)
  /\ (forall md s1 pd s2,
        fetch_project_metadata world names s = (Ok md, s1) ->
        fetch_project_data names s1 = (Ok pd, s2) ->
        exists an s3 r4 s4,
          analyze_project_data pd s2 = (Ok an, s3)
          /\ plot_coverage_trends world pd names s3 = (r4, s4)
          /\ match r4 with
             | Raise e =>
                 main world names s = (Raise e, s4)
                 /\ trace s4 = trace s ++ requests names
             | Ok _ =>
                 exists fig raw s5 content,
                   trace s4 = trace s ++ requests names
                              ++ [SaveFig (chart_path world) fig]
                   /\ raw_loop pd [] s4 = (Ok raw, s5)
                   /\ json_of_report (mkReport md an raw) = Ok content
                   /\ main world names s =
                        if writable world (report_path world)
                        then (Ok tt,
                              {| heap := heap s5;
                                 trace := trace s4
                                          ++ [OpenFile (report_path world);
                                              WriteFile (report_path world) content] |})
                        else (Raise (IOError (report_path world)), s5)
             end).
Proof.
  split; [apply main_trace|]. split.
  { intros Hans Hknown Hchart Hreport.
    destruct (main_completes world names s Hans Hknown Hchart Hreport)
      as (md & s1 & pd & s2 & an & s3 & s4 & raw & s5 & fig & content
          & H1 & H2 & H3 & H4 & H5 & H6 & H7).
    exists md, s1, pd, s2, an, s3, s4, raw, s5, fig, content.
    split_and!; try done.
    apply (json_of_report_keys _ _ H6). }
  split; [|split].
  - intros e s1 H1. split.
    + unfold main. by rewrite run_bind, H1.
    + destruct (metadata_loop_trace world names [] s) as (k & Hh & _).
      unfold fetch_project_metadata in H1. by rewrite H1 in Hh.
  - intros md s1 e s2 H1 H2. split.
    + unfold main. by rewrite run_bind, H1, run_bind, H2.
    + destruct (metadata_loop_trace world names [] s) as (k & _ & Ht & Hok).
      unfold fetch_project_metadata in H1. rewrite H1 in Ht, Hok.
      simpl in Ht, Hok. rewrite (Hok md eq_refl) in Ht.
      pose proof (silent_fetch_loop names [] s1) as Hs.
      unfold fetch_project_data in H2. rewrite H2 in Hs. simpl in Hs. congruence.
  - intros md s1 pd s2 H1 H2.
    destruct (main_after_data world names s md s1 pd s2 H1 H2)
      as (an & s3 & fig & s4 & raw & s5 & content
          & H3 & H4 & Ht4 & H5 & Ht5 & H6).
    destruct (writable world (chart_path world)) eqn:Hchart.
    + exists an, s3, (Ok tt). eexists. split; [done|]. split.
      { unfold plot_coverage_trends. rewrite run_bind, H4. cbn beta iota.
        fold (chart_path world). unfold savefig. rewrite Hchart. reflexivity. }
      exists fig, raw, s5, content. split_and!; [| exact H5 | done |].
      { simpl. rewrite Ht4. by rewrite <- app_assoc. }
      unfold main.
      rewrite run_bind, H1. cbn beta iota.
      rewrite run_bind, H2. cbn beta iota.
      rewrite run_bind, H3. cbn beta iota.
      rewrite run_bind. unfold plot_coverage_trends. rewrite run_bind, H4.
      cbn beta iota. fold (chart_path world). unfold savefig. rewrite Hchart.
      unfold emit at 1. cbn beta iota.
      rewrite run_bind, H5. cbn beta iota zeta.
      fold (report_path world). unfold open_w.
      destruct (writable world (report_path world)).
      * rewrite run_bind. unfold emit at 1. cbn beta iota.
        unfold json_dump. rewrite run_bind. unfold lift at 1. rewrite H6.
        cbn beta iota. unfold emit. f_equal. f_equal. simpl.
        rewrite Ht5. by rewrite <- !app_assoc.
      * by rewrite run_bind.
    + exists an, s3, (Raise (IOError (chart_path world))), s4.
      split; [done|]. split.
      { unfold plot_coverage_trends. rewrite run_bind, H4. cbn beta iota.
        fold (chart_path world). unfold savefig. by rewrite Hchart. }
      split; [|done]. unfold main.
      rewrite run_bind, H1. cbn beta iota.
      rewrite run_bind, H2. cbn beta iota.
      rewrite run_bind, H3. cbn beta iota.
      rewrite run_bind. unfold plot_coverage_trends. rewrite run_bind, H4.
      cbn beta iota. fold (chart_path world). unfold savefig. by rewrite Hchart.
Qed.

Lemma main_pipeline_order_witness :
  (exists md s1 pd s2 an s3 s4 raw s5 fig content,
     fetch_project_metadata mock_world ["zlib"] (mkState [] []) = (Ok md, s1)
     /\ fetch_project_data ["zlib"] s1 = (Ok pd, s2)
     /\ analyze_project_data pd s2 = (Ok an, s3)
     /\ plot_coverage_trends mock_world pd ["zlib"] s3 = (Ok tt, s4)
     /\ raw_loop pd [] s4 = (Ok raw, s5)
     /\ json_of_report (mkReport md an raw) = Ok content
     /\ (exists a r, content = report_json (JDict md) a r)
     /\ main mock_world ["zlib"] (mkState [] []) =
          (Ok tt, {| heap := heap s5;
                     trace := trace (mkState [] [])
                              ++ whole_trace mock_world ["zlib"] fig content |}))
  /\ (exists e s1,
        fetch_project_metadata flaky_world ["zlib"; "libpng"] (mkState [] [])
        = (Raise e, s1)
        /\ main flaky_world ["zlib"; "libpng"] (mkState [] []) = (Raise e, s1)
        /\ heap s1 = heap (mkState [] []))
  /\ (exists md s1 e s2,
        fetch_project_metadata mock_world ["zlib"; "curl"] (mkState [] [])
        = (Ok md, s1)
        /\ fetch_project_data ["zlib"; "curl"] s1 = (Raise e, s2)
        /\ main mock_world ["zlib"; "curl"] (mkState [] []) = (Raise e, s2)
        /\ trace s2 = trace (mkState [] []) ++ requests ["zlib"; "curl"])
  /\ (exists md s1 pd s2,
        fetch_project_metadata no_outputs_world ["zlib"] (mkState [] [])
        = (Ok md, s1)
        /\ fetch_project_data ["zlib"] s1 = (Ok pd, s2)
        /\ exists an s3 e s4,
             analyze_project_data pd s2 = (Ok an, s3)
             /\ plot_coverage_trends no_outputs_world pd ["zlib"] s3 = (Raise e, s4)
             /\ main no_outputs_world ["zlib"] (mkState [] []) = (Raise e, s4)
             /\ trace s4 = trace (mkState [] []) ++ requests ["zlib"]).
Proof.
  split_and!.
  - apply (proj1 (proj2 (main_pipeline_order mock_world ["zlib"] (mkState [] [])))).
    + apply mock_world_answered.
    + repeat constructor. simpl. eauto.
    + reflexivity.
    + reflexivity.
  - eexists _, _. split; [vm_compute; reflexivity|].
    apply (proj1 (proj2 (proj2
             (main_pipeline_order flaky_world ["zlib"; "libpng"] (mkState [] []))))).
    vm_compute. reflexivity.
  - eexists _, _, _, _. split; [vm_compute; reflexivity|].
    split; [vm_compute; reflexivity|].
    eapply (proj1 (proj2 (proj2 (proj2
              (main_pipeline_order mock_world ["zlib"; "curl"] (mkState [] [])))))).
    + vm_compute. reflexivity.
    + vm_compute. reflexivity.
  - eexists _, _, _, _. split; [vm_compute; reflexivity|].
    split; [vm_compute; reflexivity|].
    destruct (proj2 (proj2 (proj2 (proj2
                (main_pipeline_order no_outputs_world ["zlib"] (mkState [] [])))))
                _ _ _ _ eq_refl eq_refl)
      as (an & s3 & r4 & s4 & H3 & H4 & H5).
    destruct r4 as [u|e].
    + exfalso. destruct H5 as (fig & raw & s5 & content & Ht & _).
      pose proof (f_equal (fun x => fst x) H4) as Hr. clear -Hr H3.
      revert Hr. vm_compute in H3. injection H3 as <- <-. vm_compute. discriminate.
    + exists an, s3, e, s4. tauto.
Defined.

(** * Further properties of the pipeline *)

(** ** Keys of the tables that the loops build *)

Lemma keys_dict_set {V} (d : dict V) k v :
  keys (dict_set d k v) = add_key (keys d) k.
Proof.
  unfold add_key. case_decide;
    [by apply keys_dict_set_in | by apply keys_dict_set_notin].
Qed.

Lemma elem_of_add_key ks k p : p ∈ add_key ks k <-> p ∈ ks \/ p = k.
Proof.
  unfold add_key. case_decide.
  - split; [by left | intros [?| ->]; done].
  - rewrite elem_of_app, list_elem_of_singleton. done.
Qed.

Lemma NoDup_add_key ks k : NoDup ks -> NoDup (add_key ks k).
Proof.
  intros Hnd. unfold add_key. case_decide; [done|].
  apply NoDup_app. split_and!; [done | | apply NoDup_singleton].
  intros x Hx Hx'. apply list_elem_of_singleton in Hx' as ->. done.
Qed.

Lemma elem_of_foldl_add_key names :
  forall ks p, p ∈ foldl add_key ks names <-> p ∈ ks \/ p ∈ names.
Proof.
  induction names as [|n names IH]; intros ks p; simpl.
  - rewrite elem_of_nil. tauto.
  - rewrite IH, elem_of_add_key, elem_of_cons. tauto.
Qed.

Lemma NoDup_foldl_add_key names :
  forall ks, NoDup ks -> NoDup (foldl add_key ks names).
Proof.
  induction names as [|n names IH]; intros ks Hks; simpl; [done|].
  by apply IH, NoDup_add_key.
Qed.

Lemma foldl_add_key_fresh names :
  forall ks, NoDup (ks ++ names) -> foldl add_key ks names = ks ++ names.
Proof.
  induction names as [|n names IH]; intros ks Hnd; simpl.
  - by rewrite app_nil_r.
  - assert (n ∉ ks) as Hn.
    { apply NoDup_app in Hnd as (_ & Hdis & _). intros Hin.
      apply (Hdis n Hin). apply elem_of_cons; by left. }
    unfold add_key at 2. rewrite decide_False by done.
    rewrite IH; rewrite <- app_assoc; done.
Qed.

(** The keys built from an empty table by a loop over [names]. *)
Lemma foldl_add_key_nil names :
  NoDup (foldl add_key [] names)
  /\ (forall p, p ∈ foldl add_key [] names <-> p ∈ names)
  /\ (NoDup names -> foldl add_key [] names = names).
Proof.
  split_and!.
  - apply NoDup_foldl_add_key. constructor.
  - intros p. rewrite elem_of_foldl_add_key, elem_of_nil. tauto.
  - intros Hnd. by apply foldl_add_key_fresh.
Qed.

(** The loop lists the names without repetition in the order of their
    first occurrence. *)
Lemma foldl_add_key_unique_from names :
  forall ks seen,
    (forall x, x ∈ seen <-> x ∈ ks) ->
    foldl add_key ks names = ks ++ unique_from seen names.
Proof.
  induction names as [|n names IH]; intros ks seen Hseen; simpl.
  - by rewrite app_nil_r.
  - unfold add_key at 2. destruct (decide (n ∈ ks)) as [Hn|Hn].
    + rewrite decide_True by (by apply Hseen). by apply IH.
    + rewrite decide_False by (by rewrite Hseen).
      rewrite (IH (ks ++ [n]) (n :: seen)); [by rewrite <- app_assoc|].
      intros x. rewrite elem_of_cons, elem_of_app, list_elem_of_singleton, Hseen.
      tauto.
Qed.

Lemma foldl_add_key_unique names : foldl add_key [] names = unique names.
Proof. by rewrite (foldl_add_key_unique_from names [] []). Qed.

(** ** Data Provider: the store and the references *)

Lemma frame_extends {A} (m : M A) (Q : A -> Prop) s :
  frame (length (heap s)) m Q ->
  exists ext, heap (m s).2 = heap s ++ ext.
Proof.
  intros Hm. destruct (Hm s (le_n _)) as (Ht & Hlen & _).
  exists (drop (length (heap s)) (heap (m s).2)).
  rewrite <- (take_drop (length (heap s)) (heap (m s).2)) at 1.
  rewrite Ht, take_ge by done. done.
Qed.

Lemma fetch_loop_store names :
  forall pd0 s,
    exists ext,
      (fetch_loop names pd0 s).2 = {| heap := heap s ++ ext; trace := trace s |}
      /\ length ext <= length names
      /\ (forall pd, (fetch_loop names pd0 s).1 = Ok pd ->
            length ext = length names).
Proof.
  induction names as [|p names IH]; intros pd0 s.
  - exists []. simpl. rewrite app_nil_r. split_and!; [by destruct s | done | done].
  - cbn [fetch_loop]. rewrite run_bind.
    destruct (dict_get coverage_base p) as [b|] eqn:Hb.
    + rewrite (fetch_project_known _ _ b) by done.
      set (pd1 := dict_set _ _ _). set (s1 := mkState _ _).
      destruct (IH pd1 s1) as (ext & Hs & Hle & Hok).
      exists (new_frame (coverage_data b) :: ext).
      rewrite Hs. subst s1. simpl. rewrite <- app_assoc. simpl.
      split_and!; [done | lia |]. intros pd Hpd. f_equal. by eapply Hok.
    + rewrite fetch_project_unknown by done.
      exists []. simpl. rewrite app_nil_r.
      split_and!; [by destruct s | lia | intros pd H; discriminate H].
Qed.

(** X1.  [fetch_project_data] only adds to the store and has no outside
    effect, whether it returns or raises: the frames that were there stay
    as they are, at most one frame per requested name is added, and exactly
    one per name (repeated names included) when the call returns. *)
Theorem fetch_project_data_store (names : list string) (s : State) :
  trace (fetch_project_data names s).2 = trace s
  /\ exists ext,
       heap (fetch_project_data names s).2 = heap s ++ ext
       /\ length ext <= length names
       /\ (forall pd, (fetch_project_data names s).1 = Ok pd ->
             length ext = length names).
Proof.
  unfold fetch_project_data.
  destruct (fetch_loop_store names [] s) as (ext & Hs & Hle & Hok).
  rewrite Hs. simpl. split; [done|]. by exists ext.
Qed.

Lemma dict_set_refs_below pd p t n :
  refs_below pd n -> coverage_df t < n -> refs_below (dict_set pd p t) n.
Proof.
  intros Hpd Ht q u. destruct (decide (p = q)) as [->|Hpq].
  - rewrite dict_get_set_eq. by intros [= <-].
  - rewrite dict_get_set_ne by done. apply Hpd.
Qed.

Lemma dict_set_distinct_refs pd p t :
  distinct_refs pd -> refs_below pd (coverage_df t) ->
  distinct_refs (dict_set pd p t).
Proof.
  intros Hd Hb q1 q2 u1 u2.
  destruct (decide (p = q1)) as [<-|H1], (decide (p = q2)) as [<-|H2];
    rewrite ?dict_get_set_eq, ?dict_get_set_ne by done; try done.
  - intros [= <-] Hu Heq. apply Hb in Hu. lia.
  - intros Hu [= <-] Heq. apply Hb in Hu. lia.
  - apply Hd.
Qed.

Lemma fetch_loop_refs names :
  forall pd0 s pd s',
    fetch_loop names pd0 s = (Ok pd, s') ->
    keys pd = foldl add_key (keys pd0) names
    /\ (forall p t, dict_get pd p = Some t ->
          dict_get pd0 p = Some t
          \/ (p ∈ names /\ length (heap s) <= coverage_df t))
    /\ (refs_below pd0 (length (heap s)) -> refs_below pd (length (heap s')))
    /\ (refs_below pd0 (length (heap s)) -> distinct_refs pd0 -> distinct_refs pd).
Proof.
  induction names as [|n names IH]; intros pd0 s pd s' Hrun.
  - injection Hrun as <- <-. split_and!; auto.
  - cbn [fetch_loop] in Hrun. rewrite run_bind in Hrun.
    destruct (dict_get coverage_base n) as [b|] eqn:Hb.
    2: { by rewrite fetch_project_unknown in Hrun. }
    rewrite (fetch_project_known _ _ b) in Hrun by done.
    set (t0 := mkTables crash_data (length (heap s))) in Hrun.
    set (s1 := mkState _ _) in Hrun.
    destruct (IH _ _ _ _ Hrun) as (Hkeys & Horigin & Hbelow & Hdistinct).
    assert (length (heap s1) = S (length (heap s))) as Hlen
      by (subst s1; simpl; rewrite length_app; simpl; lia).
    split_and!.
    + rewrite Hkeys, keys_dict_set. done.
    + intros p t Hget. destruct (Horigin p t Hget) as [H0|[Hp Hge]].
      * destruct (decide (n = p)) as [->|Hnp].
        -- rewrite dict_get_set_eq in H0. injection H0 as <-.
           right. split; [apply elem_of_cons; by left | done].
        -- rewrite dict_get_set_ne in H0 by done. by left.
      * right. split; [apply elem_of_cons; by right | lia].
    + intros H0. apply Hbelow. rewrite Hlen.
      apply dict_set_refs_below; [|simpl; lia].
      intros p t Hp. specialize (H0 p t Hp). lia.
    + intros H0 Hd. apply Hdistinct.
      * rewrite Hlen. apply dict_set_refs_below; [|simpl; lia].
        intros p t Hp. specialize (H0 p t Hp). lia.
      * by apply dict_set_distinct_refs.
Qed.

(** X2.  When [fetch_project_data] returns, the keys of its result are the
    requested names without repetition, in the order of their first
    occurrence ([unique names]; the request itself when it has no
    repetition); every project refers to a frame that the call has just
    created, and no two projects share a frame. *)
Theorem fetch_project_data_refs (names : list string) (s : State)
    (pd : dict ProjectTables) (s' : State) :
  fetch_project_data names s = (Ok pd, s') ->
  keys pd = unique names
  /\ NoDup (keys pd)
  /\ (forall p, p ∈ keys pd <-> p ∈ names)
  /\ (NoDup names -> keys pd = names)
  /\ (forall p t, dict_get pd p = Some t ->
        length (heap s) <= coverage_df t < length (heap s'))
  /\ distinct_refs pd.
Proof.
  intros Hrun. unfold fetch_project_data in Hrun.
  destruct (fetch_loop_refs names [] s pd s' Hrun)
    as (Hkeys & Horigin & Hbelow & Hdistinct).
  assert (refs_below [] (length (heap s))) as H0 by (intros p t H; discriminate H).
  destruct (foldl_add_key_nil names) as (Hnd & Hin & Heq).
  rewrite Hkeys. split_and!; [apply foldl_add_key_unique | done | done | done | |].
  - intros p t Hget. split.
    + destruct (Horigin p t Hget) as [H|[_ H]]; [discriminate H | done].
    + by apply (Hbelow H0 p).
  - apply Hdistinct; [done|]. intros p q t u H. discriminate H.
Qed.

Lemma fetch_project_data_refs_witness :
  exists pd s',
    fetch_project_data ["zlib"; "libpng"; "zlib"] (mkState [] []) = (Ok pd, s')
    /\ keys pd = unique ["zlib"; "libpng"; "zlib"]
    /\ NoDup (keys pd)
    /\ (forall p, p ∈ keys pd <-> p ∈ ["zlib"; "libpng"; "zlib"])
    /\ (NoDup ["zlib"; "libpng"; "zlib"] -> keys pd = ["zlib"; "libpng"; "zlib"])
    /\ (forall p t, dict_get pd p = Some t ->
          length (heap (mkState [] [])) <= coverage_df t < length (heap s'))
    /\ distinct_refs pd.
Proof.
  eexists _, _. split; [vm_compute; reflexivity|].
  apply (fetch_project_data_refs ["zlib"; "libpng"; "zlib"] (mkState [] [])).
  vm_compute. reflexivity.
Defined.

(** ** Analyzer: keys, store, edge cases *)

Lemma analyze_pure_keys h0 items :
  forall acc an,
    analyze_pure h0 items acc = Ok an ->
    keys an = foldl add_key (keys acc) (keys items).
Proof.
  induction items as [|[p t] items IH]; intros acc an; cbn [analyze_pure].
  - by intros [= <-].
  - destruct (h0 !! coverage_df t) as [df0|]; [|done].
    intros Hrun. rewrite (IH _ _ Hrun), keys_dict_set. done.
Qed.

Lemma analyze_loop_keys pd s an s' :
  NoDup (keys pd) ->
  analyze_loop pd [] s = (Ok an, s') ->
  keys an = keys pd.
Proof.
  intros Hnd Hrun.
  destruct (analyze_loop_pure pd [] s (heap s) (touched_refl _)) as (Hp & _ & _).
  rewrite Hrun in Hp. simpl in Hp.
  rewrite (analyze_pure_keys _ _ _ _ (eq_sym Hp)).
  by apply foldl_add_key_fresh.
Qed.

(** X3.  When [analyze_project_data] returns, its result has exactly the
    keys of [project_data], in the same order. *)
Theorem analyze_project_data_keys (pd : dict ProjectTables) (s : State)
    (an : dict Analysis) (s' : State) :
  NoDup (keys pd) ->
  analyze_project_data pd s = (Ok an, s') ->
  keys an = keys pd.
Proof.
  intros Hnd Hrun. unfold analyze_project_data in Hrun.
  destruct (analyze_loop_pure pd [] s (heap s) (touched_refl _)) as (Hp & _ & _).
  rewrite Hrun in Hp. simpl in Hp.
  rewrite (analyze_pure_keys _ _ _ _ (eq_sym Hp)).
  by apply foldl_add_key_fresh.
Qed.

Lemma analyze_project_data_keys_witness :
  exists an s',
    analyze_project_data
      [("zlib", mkTables crash_data 0); ("libpng", mkTables crash_data 1)]
      (mkState [new_frame (coverage_data 70); new_frame (coverage_data 75)] [])
    = (Ok an, s')
    /\ keys an = keys [("zlib", mkTables crash_data 0);
                       ("libpng", mkTables crash_data 1)].
Proof.
  eexists _, _. split; [vm_compute; reflexivity|].
  eapply (analyze_project_data_keys
           [("zlib", mkTables crash_data 0); ("libpng", mkTables crash_data 1)]
           (mkState [new_frame (coverage_data 70); new_frame (coverage_data 75)] [])).
  - repeat constructor; rewrite ?elem_of_cons, ?elem_of_nil; intros H;
      repeat destruct H as [H|H]; done.
  - vm_compute. reflexivity.
Defined.

Lemma analyze_loop_untouched items :
  forall acc s l,
    l ∉ (fun kv => coverage_df kv.2) <$> items ->
    heap (analyze_loop items acc s).2 !! l = heap s !! l.
Proof.
  induction items as [|[p t] items IH]; intros acc s l Hl; [done|].
  rewrite fmap_cons in Hl. apply not_elem_of_cons in Hl as [Hne Hl].
  cbn [snd] in Hne. cbn [analyze_loop]. rewrite run_bind.
  destruct (heap s !! coverage_df t) as [df|] eqn:Hdf.
  - rewrite (analyze_project_run _ _ _ _ df) by done.
    rewrite IH by done. simpl. by apply list_lookup_insert_ne.
  - by rewrite analyze_project_dangling by done.
Qed.

(** X4.  Whether it returns or raises, [analyze_project_data] has no
    outside effect and neither adds nor removes a frame; a frame that no
    project refers to is left as it is, and in every frame the rows keep
    their number and their coverage values. *)
Theorem analyze_project_data_store (pd : dict ProjectTables) (s : State) :
  trace (analyze_project_data pd s).2 = trace s
  /\ length (heap (analyze_project_data pd s).2) = length (heap s)
  /\ forall l df,
       heap s !! l = Some df ->
       exists df',
         heap (analyze_project_data pd s).2 !! l = Some df'
         /\ coverage <$> samples df' = coverage <$> samples df
         /\ length (samples df') = length (samples df)
         /\ (l ∉ (fun kv => coverage_df kv.2) <$> pd -> df' = df).
Proof.
  unfold analyze_project_data.
  destruct (analyze_loop_pure pd [] s (heap s) (touched_refl _)) as (_ & Hh & Ht).
  split_and!; [done | symmetry; by eapply Forall2_length |].
  intros l df Hdf.
  destruct (Forall2_lookup_l _ _ _ _ _ Hh Hdf) as (df' & Hdf' & Htouched).
  exists df'. split; [done|].
  assert (coverage <$> samples df' = coverage <$> samples df) as Hcov.
  { destruct Htouched as [->| ->]; [done | apply coverage_analyzed]. }
  split_and!; [done | |].
  - rewrite <- (length_fmap coverage (samples df')), Hcov. apply length_fmap.
  - intros Hl. rewrite analyze_loop_untouched in Hdf' by done. congruence.
Qed.

(** X5.  For a project whose coverage table has the columns [date] and
    [coverage] and no rows, the Analyzer does not raise: [avg_coverage] is
    NaN and [coverage_trend] is empty. *)
Theorem analyze_empty_table (pd : dict ProjectTables) (s : State)
    (p : string) (t : ProjectTables) (df : DataFrame) :
  NoDup (keys pd) ->
  refs_valid pd (heap s) ->
  dict_get pd p = Some t ->
  heap s !! coverage_df t = Some df ->
  "date" ∈ columns df ->
  "coverage" ∈ columns df ->
  samples df = [] ->
  exists an s' a,
    analyze_project_data pd s = (Ok an, s')
    /\ dict_get an p = Some a
    /\ avg_coverage a = NaN
    /\ coverage_trend a = [].
Proof.
  intros Hnd Hv Hget Hdf _ _ Hempty.
  destruct (analyze_project_data_spec pd s Hnd Hv)
    as (an & s' & Hrun & _ & _ & _ & Hin).
  destruct (Hin p t Hget) as (df0 & Hdf0 & Ha).
  assert (df0 = df) as -> by congruence.
  exists an, s', (analysis_of df t). split_and!; [done | done | |].
  - simpl. by rewrite Hempty.
  - simpl. apply (fmap_nil_inv rec_coverage). by rewrite trend_coverage, Hempty.
Qed.

Lemma analyze_empty_table_witness :
  exists an s' a,
    analyze_project_data [("empty", mkTables [] 0)] (mkState [mkFrame [] None] [])
    = (Ok an, s')
    /\ dict_get an "empty" = Some a
    /\ avg_coverage a = NaN
    /\ coverage_trend a = [].
Proof.
  apply (analyze_empty_table [("empty", mkTables [] 0)]
           (mkState [mkFrame [] None] [])
           "empty" (mkTables [] 0) (mkFrame [] None)).
  - apply NoDup_singleton.
  - repeat constructor. simpl. eauto.
  - reflexivity.
  - reflexivity.
  - apply elem_of_cons; by left.
  - apply elem_of_cons; right; apply elem_of_cons; by left.
  - reflexivity.
Defined.

(** ** Analyzer: the rows of the trend *)

Lemma keys_dict_get {V} (d : dict V) k : k ∈ keys d -> is_Some (dict_get d k).
Proof.
  intros Hk. destruct (dict_get d k) eqn:E; [eauto|].
  by apply dict_get_None_keys in E.
Qed.

(** Every record of a returned analysis is [analysis_of] a stored frame. *)
Lemma analyze_project_data_records pd s :
  NoDup (keys pd) ->
  refs_valid pd (heap s) ->
  exists an s',
    analyze_project_data pd s = (Ok an, s')
    /\ forall p a, dict_get an p = Some a ->
         exists t df,
           dict_get pd p = Some t
           /\ heap s !! coverage_df t = Some df
           /\ a = analysis_of df t.
Proof.
  intros Hnd Hv.
  destruct (analyze_project_data_spec pd s Hnd Hv)
    as (an & s' & Hrun & _ & _ & Hout & Hin).
  exists an, s'. split; [done|]. intros p a Ha.
  destruct (decide (p ∈ keys pd)) as [Hp|Hp].
  - destruct (keys_dict_get _ _ Hp) as [t Ht].
    destruct (Hin p t Ht) as (df & Hdf & Ha').
    exists t, df. split_and!; [done | done | congruence].
  - rewrite Hout in Ha by done. discriminate Ha.
Qed.

Lemma trend_consecutive df t i prev cur :
  coverage_trend (analysis_of df t) !! i = Some prev ->
  coverage_trend (analysis_of df t) !! S i = Some cur ->
  rec_growth_rate cur = Some (pct (Fin (rec_coverage cur)) (Fin (rec_coverage prev))).
Proof.
  cbn [coverage_trend analysis_of]. rewrite !trend_lookup.
  destruct (samples df !! i) as [sp|]; [|done].
  destruct (samples df !! S i) as [sc|]; [|done]. simpl.
  by intros [= <-] [= <-].
Qed.

Lemma pct_positive_previous c p :
  (0 < p)%Q ->
  exists q,
    pct (Fin c) (Fin p) = Fin q
    /\ ((0 < q)%Q <-> (p < c)%Q)
    /\ ((q == 0)%Q <-> (c == p)%Q)
    /\ ((q < 0)%Q <-> (c < p)%Q).
Proof.
  intros Hp. unfold pct. cbn [fdiv].
  assert (Qzero p = false) as -> by (apply Qzero_false; lra).
  simpl. eexists. split; [reflexivity|].
  assert ((c / p - 1) * 100 == (c - p) * (100 / p))%Q as -> by (field; lra).
  assert (0 < 100 / p)%Q as Hk by (apply Qlt_shift_div_l; lra).
  split_and!; split; intros H; nra.
Qed.

Lemma Qneg_spec q : Qneg q = true <-> (q < 0)%Q.
Proof. unfold Qneg, Qlt. simpl. rewrite Z.ltb_lt. lia. Qed.

Lemma pct_zero_previous c p :
  (p == 0)%Q ->
  ((c == 0)%Q -> pct (Fin c) (Fin p) = NaN)
  /\ (~ (c == 0)%Q -> exists neg, pct (Fin c) (Fin p) = Inf neg).
Proof.
  intros Hp%Qzero_spec. unfold pct. cbn [fdiv]. rewrite Hp.
  split; intros Hc.
  - apply Qzero_spec in Hc. by rewrite Hc.
  - assert (Qzero c = false) as -> by (by apply Qzero_false).
    eexists. reflexivity.
Qed.



(** X7.  After a sample with coverage zero the Analyzer does not raise: the
    growth rate is NaN when the coverage stays zero, and an infinity when
    it does not.  (The sign of the infinity is the sign of the change after
    [+0.0] and the opposite one after the float [-0.0]; the model has one
    zero, and the statement leaves the sign open.) *)
Theorem growth_rate_zero_previous (pd : dict ProjectTables) (s : State) :
  NoDup (keys pd) ->
  refs_valid pd (heap s) ->
  exists an s',
    analyze_project_data pd s = (Ok an, s')
    /\ forall p a i prev cur,
         dict_get an p = Some a ->
         coverage_trend a !! i = Some prev ->
         coverage_trend a !! S i = Some cur ->
         (rec_coverage prev == 0)%Q ->
         ((rec_coverage cur == 0)%Q -> rec_growth_rate cur = Some NaN)
         /\ (~ (rec_coverage cur == 0)%Q ->
             exists neg, rec_growth_rate cur = Some (Inf neg)).
Proof.
  intros Hnd Hv.
  destruct (analyze_project_data_records pd s Hnd Hv) as (an & s' & Hrun & Hrec).
  exists an, s'. split; [done|]. intros p a i prev cur Ha Hprev Hcur Hzero.
  destruct (Hrec p a Ha) as (t & df & _ & _ & ->).
  rewrite (trend_consecutive df t i prev cur Hprev Hcur).
  destruct (pct_zero_previous (rec_coverage cur) (rec_coverage prev) Hzero)
    as (H0 & Hinf).
  split; intros H.
  - f_equal. auto.
  - destruct (Hinf H) as [neg Hneg]. exists neg. by f_equal.
Qed.

Lemma growth_rate_zero_previous_witness :
  exists an s',
    analyze_project_data [("new", mkTables [] 0)]
      (mkState [new_frame [mkSample (DateStr "01-01-2025") 0;
                           mkSample (DateStr "02-01-2025") 5]] [])
    = (Ok an, s')
    /\ forall p a i prev cur,
         dict_get an p = Some a ->
         coverage_trend a !! i = Some prev ->
         coverage_trend a !! S i = Some cur ->
         (rec_coverage prev == 0)%Q ->
         ((rec_coverage cur == 0)%Q -> rec_growth_rate cur = Some NaN)
         /\ (~ (rec_coverage cur == 0)%Q ->
             exists neg, rec_growth_rate cur = Some (Inf neg)).
Proof.
  apply (growth_rate_zero_previous [("new", mkTables [] 0)]
           (mkState [new_frame [mkSample (DateStr "01-01-2025") 0;
                                mkSample (DateStr "02-01-2025") 5]] [])).
  - apply NoDup_singleton.
  - repeat constructor. simpl. eauto.
Defined.

(** X8.  The trend has one row per sample, in order; its dates are strings,
    and they are the stored dates themselves when those are strings. *)
Theorem coverage_trend_dates (pd : dict ProjectTables) (s : State) :
  NoDup (keys pd) ->
  refs_valid pd (heap s) ->
  exists an s',
    analyze_project_data pd s = (Ok an, s')
    /\ forall p t, dict_get pd p = Some t ->
         exists a df,
           dict_get an p = Some a
           /\ heap s !! coverage_df t = Some df
           /\ length (coverage_trend a) = length (samples df)
           /\ str_dated (coverage_trend a)
           /\ (Forall (fun sm => is_str (date sm)) (samples df) ->
               rec_date <$> coverage_trend a = date <$> samples df).
Proof.
  intros Hnd Hv.
  destruct (analyze_project_data_spec pd s Hnd Hv)
    as (an & s' & Hrun & _ & _ & _ & Hin).
  exists an, s'. split; [done|]. intros p t Hget.
  destruct (Hin p t Hget) as (df & Hdf & Ha).
  exists (analysis_of df t), df.
  split_and!; [done | done | | apply str_dated_analyzed |];
    cbn [coverage_trend analysis_of].
  - rewrite <- (length_fmap rec_coverage), trend_coverage. apply length_fmap.
  - intros Hstr. apply list_eq. intros i.
    rewrite !list_lookup_fmap, trend_lookup.
    destruct (samples df !! i) as [sm|] eqn:Hsm; [|done]. simpl.
    destruct (proj1 (Forall_lookup _ _) Hstr i sm Hsm) as [d Hd].
    by rewrite Hd.
Qed.

Lemma coverage_trend_dates_witness :
  exists an s',
    analyze_project_data [("zlib", mkTables crash_data 0)]
      (mkState [new_frame (coverage_data 70)] []) = (Ok an, s')
    /\ forall p t, dict_get [("zlib", mkTables crash_data 0)] p = Some t ->
         exists a df,
           dict_get an p = Some a
           /\ heap (mkState [new_frame (coverage_data 70)] []) !! coverage_df t
              = Some df
           /\ length (coverage_trend a) = length (samples df)
           /\ str_dated (coverage_trend a)
           /\ (Forall (fun sm => is_str (date sm)) (samples df) ->
               rec_date <$> coverage_trend a = date <$> samples df).
Proof.
  apply (coverage_trend_dates [("zlib", mkTables crash_data 0)]
           (mkState [new_frame (coverage_data 70)] [])).
  - apply NoDup_singleton.
  - repeat constructor. simpl. eauto.
Defined.

(** ** Metadata Fetcher: failures and keys *)

Lemma answered_cons world q names :
  answered world (q :: names) ->
  (exists r, requests_get world (project_url q) = Ok r
             /\ (status_code r = 200%Z -> exists body, response_json r = Ok body))
  /\ answered world names.
Proof.
  intros H. split.
  - apply H. apply elem_of_cons; by left.
  - intros p Hp. apply H. apply elem_of_cons; by right.
Qed.

(** The loop stops at the first project whose turn raises; the projects
    after it are not requested. *)
Lemma metadata_loop_stops world pre p post e :
  forall md0 s,
    answered world pre ->
    (forall md, metadata_step world md p = Raise e) ->
    metadata_loop world (pre ++ p :: post) md0 s =
      (Raise e,
       {| heap := heap s; trace := trace s ++ requests (pre ++ [p]) |}).
Proof.
  induction pre as [|q pre IH]; intros md0 s Hans Hstep.
  - cbn [app metadata_loop]. rewrite run_bind, fetch_metadata_run, Hstep. done.
  - apply answered_cons in Hans as [(r & Hr & Hbody) Hans].
    destruct (fetch_metadata_answered world md0 q s r Hr Hbody) as (j & Hq & _).
    cbn [app metadata_loop]. rewrite run_bind, Hq.
    rewrite IH by done. unfold requests. simpl. by rewrite <- app_assoc.
Qed.

(** X9.  A transport failure of [requests.get] propagates: the call raises
    the error of the first failing request, the projects after it are not
    requested, nothing is returned and the store is untouched. *)
Theorem fetch_project_metadata_transport_failure (world : World)
    (pre post : list string) (p : string) (e : exn) (s : State) :
  answered world pre ->
  requests_get world (project_url p) = Raise e ->
  fetch_project_metadata world (pre ++ p :: post) s =
    (Raise e, {| heap := heap s; trace := trace s ++ requests (pre ++ [p]) |}).
Proof.
  intros Hans He. apply metadata_loop_stops; [done|].
  intros md. unfold metadata_step. by rewrite He.
Qed.

(** X10.  A response with status 200 whose body is not JSON makes the call
    raise the decoding error of [response.json()]; the projects after it
    are not requested. *)
Theorem fetch_project_metadata_decode_failure (world : World)
    (pre post : list string) (p : string) (r : Response) (e : exn) (s : State) :
  answered world pre ->
  requests_get world (project_url p) = Ok r ->
  status_code r = 200%Z ->
  response_json r = Raise e ->
  fetch_project_metadata world (pre ++ p :: post) s =
    (Raise e, {| heap := heap s; trace := trace s ++ requests (pre ++ [p]) |}).
Proof.
  intros Hans Hr H200 He. apply metadata_loop_stops; [done|].
  intros md. unfold metadata_step. rewrite Hr, decide_True, He by done. done.
Qed.

Lemma metadata_step_keys world md p md' :
  metadata_step world md p = Ok md' -> keys md' = add_key (keys md) p.
Proof.
  unfold metadata_step.
  destruct (requests_get world (project_url p)) as [r|]; [|done].
  destruct (decide (status_code r = 200%Z)).
  - destruct (response_json r); [|done]. intros [= <-]. apply keys_dict_set.
  - intros [= <-]. apply keys_dict_set.
Qed.

Lemma metadata_loop_keys world names :
  forall md0 s md s',
    metadata_loop world names md0 s = (Ok md, s') ->
    keys md = foldl add_key (keys md0) names.
Proof.
  induction names as [|q names IH]; intros md0 s md s' Hrun.
  - by injection Hrun as <- <-.
  - cbn [metadata_loop] in Hrun. rewrite run_bind, fetch_metadata_run in Hrun.
    destruct (metadata_step world md0 q) as [md1|] eqn:Hstep; [|done].
    rewrite (IH _ _ _ _ Hrun). simpl. by rewrite (metadata_step_keys _ _ _ _ Hstep).
Qed.

(** X11.  When [fetch_project_metadata] returns it has made exactly one
    request per requested name, in order, and left the store untouched; the
    keys of its result are the names without repetition, in the order of
    their first occurrence ([unique names]). *)
Theorem fetch_project_metadata_requests (world : World) (names : list string)
    (s : State) (md : dict Json) (s' : State) :
  fetch_project_metadata world names s = (Ok md, s') ->
  s' = {| heap := heap s; trace := trace s ++ requests names |}
  /\ keys md = unique names
  /\ NoDup (keys md)
  /\ (forall p, p ∈ keys md <-> p ∈ names)
  /\ (NoDup names -> keys md = names).
Proof.
  intros Hrun. unfold fetch_project_metadata in Hrun.
  destruct (metadata_loop_trace world names [] s) as (k & Hh & Ht & Hok).
  rewrite Hrun in Hh, Ht, Hok. simpl in Hh, Ht, Hok.
  rewrite (Hok md eq_refl) in Ht.
  rewrite (metadata_loop_keys world names [] s md s' Hrun).
  destruct (foldl_add_key_nil names) as (Hnd & Hin & Heq).
  split_and!; [|apply foldl_add_key_unique|done|done|done].
  destruct s'. simpl in *. by subst.
Qed.

Lemma flaky_world_answers_zlib : answered flaky_world ["zlib"].
Proof.
  intros p Hp. apply list_elem_of_singleton in Hp as ->.
  eexists. split; [vm_compute; reflexivity|]. intros _. by eexists.
Qed.

Lemma fetch_project_metadata_transport_failure_witness :
  fetch_project_metadata flaky_world (["zlib"] ++ "libpng" :: ["openssl"])
    (mkState [] []) =
    (Raise (RequestException (project_url "libpng")),
     {| heap := heap (mkState [] []);
        trace := trace (mkState [] []) ++ requests (["zlib"] ++ ["libpng"]) |}).
Proof.
  apply (fetch_project_metadata_transport_failure flaky_world
           ["zlib"] ["openssl"] "libpng").
  - apply flaky_world_answers_zlib.
  - vm_compute. reflexivity.
Defined.

Lemma fetch_project_metadata_decode_failure_witness :
  fetch_project_metadata flaky_world (["zlib"] ++ "openssl" :: ["curl"])
    (mkState [] []) =
    (Raise (JSONDecodeError (project_url "openssl")),
     {| heap := heap (mkState [] []);
        trace := trace (mkState [] []) ++ requests (["zlib"] ++ ["openssl"]) |}).
Proof.
  apply (fetch_project_metadata_decode_failure flaky_world
           ["zlib"] ["curl"] "openssl"
           (mkResponse 200 (Raise (JSONDecodeError (project_url "openssl"))))).
  - apply flaky_world_answers_zlib.
  - vm_compute. reflexivity.
  - reflexivity.
  - reflexivity.
Defined.

Lemma fetch_project_metadata_requests_witness :
  exists md s',
    fetch_project_metadata mock_world ["zlib"; "curl"; "zlib"] (mkState [] [])
    = (Ok md, s')
    /\ s' = {| heap := heap (mkState [] []);
               trace := trace (mkState [] [])
                        ++ requests ["zlib"; "curl"; "zlib"] |}
    /\ keys md = unique ["zlib"; "curl"; "zlib"]
    /\ NoDup (keys md)
    /\ (forall p, p ∈ keys md <-> p ∈ ["zlib"; "curl"; "zlib"])
    /\ (NoDup ["zlib"; "curl"; "zlib"] -> keys md = ["zlib"; "curl"; "zlib"]).
Proof.
  eexists _, _. split; [vm_compute; reflexivity|].
  apply (fetch_project_metadata_requests mock_world ["zlib"; "curl"; "zlib"]
           (mkState [] [])).
  vm_compute. reflexivity.
Defined.

(** ** Trend Renderer: what is drawn *)

Lemma ts_le_spec a b :
  ts_le a b = true <->
  year a < year b
  \/ (year a = year b
      /\ (month a < month b \/ (month a = month b /\ day a <= day b))).
Proof.
  unfold ts_le.
  repeat first [rewrite orb_true_iff | rewrite andb_true_iff].
  rewrite !Nat.ltb_lt, !Nat.eqb_eq, Nat.leb_le. done.
Qed.

Lemma ts_le_trans a b c :
  ts_le a b = true -> ts_le b c = true -> ts_le a c = true.
Proof. rewrite !ts_le_spec. lia. Qed.

Lemma ts_le_total a b : ts_le a b = false -> ts_le b a = true.
Proof.
  intros H. assert (~ ts_le a b = true) as Hn by (by rewrite H).
  rewrite ts_le_spec in *. lia.
Qed.

Lemma row_le_trans a b c : row_le a b -> row_le b c -> row_le a c.
Proof.
  intros (x & y & Ha & Hb & Hxy) (y' & z & Hb' & Hc & Hyz).
  rewrite Hb in Hb'. injection Hb' as <-.
  exists x, z. split_and!; [done | done | by eapply ts_le_trans].
Qed.

Lemma insert_row_sorted x l :
  forall out,
    is_time (date x.1) ->
    Forall (fun r : SortRow => is_time (date r.1)) l ->
    insert_row x l = Ok out ->
    out ≡ₚ x :: l
    /\ (StronglySorted row_le l -> StronglySorted row_le out).
Proof.
  intros out Hx Hl. revert out.
  induction Hl as [|y l Hy Hl IH]; intros out; simpl.
  - intros [= <-]. split; [done|]. intros _. by repeat constructor.
  - destruct Hx as [tx Hx]. destruct Hy as [ty Hy]. rewrite Hx, Hy. simpl.
    destruct (ts_le tx ty) eqn:Hle.
    + intros [= <-]. split; [done|]. intros Hs.
      assert (row_le x y) as Hxy by (by exists tx, ty).
      apply StronglySorted_cons. split; [|done].
      constructor; [done|]. apply StronglySorted_cons in Hs as [Hyl _].
      eapply Forall_impl; [exact Hyl|]. intros z Hz. by eapply row_le_trans.
    + destruct (insert_row x l) as [out'|] eqn:Hins; [|done]. simpl.
      intros [= <-]. destruct (IH out' eq_refl) as [Hperm Hsorted].
      split.
      * rewrite Hperm. apply perm_swap.
      * intros Hs. apply StronglySorted_cons in Hs as [Hyl Hs].
        apply StronglySorted_cons. split; [|by apply Hsorted].
        rewrite Hperm. constructor; [|done].
        exists ty, tx. split_and!; [done | done | by apply ts_le_total].
Qed.

Lemma sort_rows_sorted l :
  forall out,
    Forall (fun r : SortRow => is_time (date r.1)) l ->
    sort_rows l = Ok out ->
    out ≡ₚ l /\ StronglySorted row_le out.
Proof.
  induction l as [|x l IH]; intros out Hl; simpl.
  - intros [= <-]. split; [done | constructor].
  - apply Forall_cons in Hl as [Hx Hl].
    destruct (sort_rows l) as [out'|] eqn:Hsort; [|done]. simpl. intros Hins.
    destruct (IH out' Hl eq_refl) as [Hperm Hsorted].
    destruct (insert_row_sorted x out' out Hx) as [Hperm' Hsorted']; [|done|].
    { by rewrite Hperm. }
    split; [by rewrite Hperm', Hperm | by apply Hsorted'].
Qed.

Lemma traverse_length {A B} (f : A -> result B) (l : list A) :
  forall ys, traverse f l = Ok ys -> length ys = length l.
Proof.
  induction l as [|x l IH]; intros ys; simpl.
  - by intros [= <-].
  - destruct (f x) as [y|]; [|done]. simpl.
    destruct (traverse f l) as [ys'|]; [|done]. simpl.
    intros [= <-]. simpl. f_equal. by apply IH.
Qed.

Lemma traverse_Ok_elem {A B} (f : A -> result B) (l : list A) ys x :
  traverse f l = Ok ys -> x ∈ l -> exists y, f x = Ok y.
Proof.
  revert ys. induction l as [|z l IH]; intros ys; simpl.
  - intros _ Hx. by apply elem_of_nil in Hx.
  - destruct (f z) as [y|] eqn:Hz; [|done]. simpl.
    destruct (traverse f l) as [ys'|]; [|done]. simpl.
    intros _ Hx. apply elem_of_cons in Hx as [->|Hx]; [eauto|].
    by eapply IH.
Qed.

Lemma set_date_points (l : list CoverageSample) :
  forall ts : list Timestamp,
    length ts = length l ->
    (fun sm => (date sm, coverage sm))
      <$> zip_with (fun sm x => mkSample x (coverage sm)) l (DateTime <$> ts)
    = zip (DateTime <$> ts) (coverage <$> l).
Proof.
  induction l as [|sm l IH]; intros [|t ts] Hlen; try done.
  simpl in *. f_equal. apply IH. lia.
Qed.

Lemma frame_rows_points df :
  well_formed df -> row_point <$> frame_rows df = points df.
Proof.
  unfold well_formed, frame_rows, points.
  destruct (growth_rate df) as [g|].
  - generalize (samples df). intros l. revert g.
    induction l as [|sm l IH]; intros [|x g] Hlen; try done.
    simpl in *. f_equal. apply IH. lia.
  - intros _. rewrite <- list_fmap_compose. by apply list_fmap_ext.
Qed.

Lemma points_frame_of_rows b rows :
  points (frame_of_rows b rows) = row_point <$> rows.
Proof.
  unfold points, frame_of_rows. simpl.
  rewrite <- list_fmap_compose. by apply list_fmap_ext.
Qed.

Lemma chronological_rows rows :
  StronglySorted row_le rows -> chronological (row_point <$> rows).
Proof.
  unfold chronological. induction 1 as [|r rows Hs IH Hr]; simpl; constructor.
  - done.
  - apply Forall_fmap. eapply Forall_impl; [exact Hr|]. by intros z Hz.
Qed.

(** What [sort_values("date")] returns on a frame with parsed dates. *)
Lemma sort_values_date_points df ts sorted :
  well_formed df ->
  length ts = length (samples df) ->
  sort_values_date (set_date df (DateTime <$> ts)) = Ok sorted ->
  points sorted ≡ₚ zip (DateTime <$> ts) (coverage <$> samples df)
  /\ chronological (points sorted).
Proof.
  intros Hwf Hlen. unfold sort_values_date.
  destruct (sort_rows _) as [rows|] eqn:Hsort; [|done]. simpl. intros [= <-].
  destruct (sort_rows_sorted _ rows (frame_rows_set_date df ts) Hsort)
    as [Hperm Hsorted].
  rewrite points_frame_of_rows. split; [|by apply chronological_rows].
  rewrite Hperm, frame_rows_points.
  - unfold points. cbn [samples set_date]. by rewrite set_date_points.
  - unfold well_formed. cbn [growth_rate samples set_date].
    destruct (growth_rate df) as [g|] eqn:Hg; [|done].
    unfold well_formed in Hwf. rewrite Hg in Hwf.
    rewrite length_zip_with, length_fmap. lia.
Qed.

(** One turn of the plotting loop, case by case. *)
Lemma plot_project_cases pd fig p s :
  plot_project pd fig p s =
    match dict_get pd p with
    | None => (Raise (KeyError p), s)
    | Some t =>
        match heap s !! coverage_df t with
        | None => (Raise (DanglingReference (coverage_df t)), s)
        | Some df =>
            match traverse to_datetime (date <$> samples df) with
            | Raise e =>
                (Raise e, {| heap := heap s ++ [df]; trace := trace s |})
            | Ok ts =>
                match sort_values_date (set_date df (DateTime <$> ts)) with
                | Raise e =>
                    (Raise e,
                     {| heap := heap s ++ [set_date df (DateTime <$> ts)];
                        trace := trace s |})
                | Ok sorted =>
                    (Ok (fig ++ [(p, points sorted)]),
                     {| heap := heap s ++ [set_date df (DateTime <$> ts); sorted];
                        trace := trace s |})
                end
            end
        end
    end.
Proof.
  unfold plot_project. destruct (dict_get pd p) as [t|]; [|done].
  unfold copy. destruct (heap s !! coverage_df t) as [df|] eqn:Hdf.
  2: { by rewrite !run_bind, run_deref_None by done. }
  rewrite !run_bind, (run_deref_Some _ df) by done.
  unfold alloc at 1. cbn [heap trace].
  set (n := length (heap s)).
  rewrite run_bind, (run_deref_Some _ df)
    by (simpl; rewrite lookup_app_r by done; by rewrite Nat.sub_diag).
  rewrite run_bind. unfold lift at 1.
  destruct (traverse to_datetime (date <$> samples df)) as [ts|e]; [|done].
  rewrite run_bind, (run_modify_Some _ _ df)
    by (simpl; rewrite lookup_app_r by done; by rewrite Nat.sub_diag).
  cbn [heap trace].
  replace (<[n:=set_date df (DateTime <$> ts)]> (heap s ++ [df]))
    with (heap s ++ [set_date df (DateTime <$> ts)])
    by (subst n; rewrite insert_app_r_alt, Nat.sub_diag by done; done).
  rewrite run_bind, (run_deref_Some _ (set_date df (DateTime <$> ts)))
    by (simpl; rewrite lookup_app_r by done; by rewrite Nat.sub_diag).
  rewrite run_bind. unfold lift at 1.
  destruct (sort_values_date (set_date df (DateTime <$> ts))) as [sorted|e];
    [|done].
  rewrite run_bind. unfold alloc at 1. cbn [heap trace].
  rewrite run_bind, (run_deref_Some _ sorted).
  2: { simpl. rewrite lookup_app_r by done. by rewrite Nat.sub_diag. }
  rewrite run_ret. by rewrite <- app_assoc.
Qed.

(** The lines of a loop that returns: one per name, in order, each drawn
    from the table that its project refers to. *)
Lemma plot_loop_lines pd h0 names :
  forall fig s fig' s',
    (exists ext, heap s = h0 ++ ext) ->
    plot_loop pd names fig s = (Ok fig', s') ->
    exists lines,
      fig' = fig ++ lines
      /\ Forall2
           (fun p (line : string * list (DateCell * Q)) =>
              line.1 = p
              /\ exists t,
                   dict_get pd p = Some t
                   /\ forall df, h0 !! coverage_df t = Some df ->
                        exists ts sorted,
                          traverse to_datetime (date <$> samples df) = Ok ts
                          /\ sort_values_date (set_date df (DateTime <$> ts))
                             = Ok sorted
                          /\ line.2 = points sorted)
           names lines.
Proof.
  induction names as [|p names IH]; intros fig s fig' s' [ext Hext] Hrun.
  - injection Hrun as <- <-. exists []. by rewrite app_nil_r.
  - cbn [plot_loop] in Hrun. rewrite run_bind, plot_project_cases in Hrun.
    destruct (dict_get pd p) as [t|] eqn:Hget; [|done].
    destruct (heap s !! coverage_df t) as [df|] eqn:Hdf; [|done].
    destruct (traverse to_datetime (date <$> samples df)) as [ts|] eqn:Hts;
      [|done].
    destruct (sort_values_date (set_date df (DateTime <$> ts)))
      as [sorted|] eqn:Hsort; [|done].
    set (s1 := mkState _ _) in Hrun.
    assert (exists ext1, heap s1 = h0 ++ ext1) as Hext1.
    { exists (ext ++ [set_date df (DateTime <$> ts); sorted]).
      subst s1. simpl. by rewrite Hext, <- app_assoc. }
    destruct (IH _ s1 _ _ Hext1 Hrun) as (lines & -> & Hlines).
    exists ((p, points sorted) :: lines). split; [by rewrite <- app_assoc|].
    constructor; [|done]. split; [done|]. exists t. split; [done|].
    intros df0 Hdf0.
    assert (df0 = df) as ->.
    { rewrite Hext in Hdf. rewrite (lookup_app_l_Some _ _ _ _ Hdf0) in Hdf.
      congruence. }
    by exists ts, sorted.
Qed.

(** A loop that raises leaves no line drawn; the chart is only saved after
    the last line. *)
Lemma plot_coverage_trends_cases world pd names s :
  match plot_loop pd names [] s with
  | (Ok fig, s1) =>
      if writable world (chart_path world) then
        plot_coverage_trends world pd names s =
          (Ok tt, {| heap := heap s1;
                     trace := trace s ++ [SaveFig (chart_path world) fig] |})
      else
        plot_coverage_trends world pd names s =
          (Raise (IOError (chart_path world)),
           {| heap := heap s1; trace := trace s |})
  | (Raise e, s1) =>
      plot_coverage_trends world pd names s =
        (Raise e, {| heap := heap s1; trace := trace s |})
  end.
Proof.
  unfold plot_coverage_trends. rewrite run_bind.
  pose proof (silent_plot_loop pd names [] s) as Ht.
  destruct (plot_loop pd names [] s) as [[fig|e] s1]; simpl in Ht.
  - fold (chart_path world). unfold savefig.
    destruct (writable world (chart_path world)).
    + unfold emit. by rewrite Ht.
    + unfold raise. f_equal. destruct s1. simpl in *. by subst.
  - f_equal. destruct s1. simpl in *. by subst.
Qed.

(** X12.  The chart is saved last and only once: when
    [plot_coverage_trends] returns, its only outside effect is the chart
    file, with one line per requested name, labelled by the names in the
    order of the request; when it raises it has written nothing. *)
Theorem plot_coverage_trends_chart (world : World) (pd : dict ProjectTables)
    (names : list string) (s : State) :
  ((plot_coverage_trends world pd names s).1 = Ok tt ->
   exists fig,
     trace (plot_coverage_trends world pd names s).2
     = trace s ++ [SaveFig (chart_path world) fig]
     /\ fst <$> fig = names)
  /\ (forall e,
        (plot_coverage_trends world pd names s).1 = Raise e ->
        trace (plot_coverage_trends world pd names s).2 = trace s).
Proof.
  pose proof (plot_coverage_trends_cases world pd names s) as Hc.
  destruct (plot_loop pd names [] s) as [[fig|e0] s1] eqn:Hloop.
  - destruct (writable world (chart_path world)); rewrite Hc; simpl.
    + split; [|intros e H; discriminate H]. intros _. exists fig. split; [done|].
      destruct (plot_loop_lines pd (heap s) names [] s fig s1) as (lines & -> & Hl);
        [exists []; by rewrite app_nil_r | done |].
      rewrite app_nil_l. clear Hloop Hc.
      induction Hl as [|p line names lines [Hp _] _ IH]; [done|].
      rewrite fmap_cons. by f_equal.
    + split; [intros H; discriminate H | done].
  - rewrite Hc. simpl. split; [intros H; discriminate H | done].
Qed.

(** X13.  When a requested name is not a key of [project_data] the call
    raises and no chart is written. *)
Theorem plot_coverage_trends_missing_project (world : World)
    (pd : dict ProjectTables) (names : list string) (s : State) (p : string) :
  p ∈ names ->
  dict_get pd p = None ->
  exists e,
    (plot_coverage_trends world pd names s).1 = Raise e
    /\ trace (plot_coverage_trends world pd names s).2 = trace s.
Proof.
  intros Hp Hnone.
  pose proof (plot_coverage_trends_cases world pd names s) as Hc.
  destruct (plot_loop pd names [] s) as [[fig|e0] s1] eqn:Hloop.
  - exfalso.
    destruct (plot_loop_lines pd (heap s) names [] s fig s1) as (lines & _ & Hl);
      [exists []; by rewrite app_nil_r | done |].
    apply list_elem_of_lookup in Hp as [i Hi].
    destruct (Forall2_lookup_l _ _ _ _ _ Hl Hi) as (line & _ & _ & t & Ht & _).
    congruence.
  - exists e0. by rewrite Hc.
Qed.

Lemma plot_coverage_trends_missing_project_witness :
  exists e,
    (plot_coverage_trends mock_world [("zlib", mkTables crash_data 0)]
       ["zlib"; "libpng"] (mkState [new_frame (coverage_data 70)] [])).1 = Raise e
    /\ trace (plot_coverage_trends mock_world [("zlib", mkTables crash_data 0)]
                ["zlib"; "libpng"] (mkState [new_frame (coverage_data 70)] [])).2
       = trace (mkState [new_frame (coverage_data 70)] []).
Proof.
  apply (plot_coverage_trends_missing_project mock_world
           [("zlib", mkTables crash_data 0)] ["zlib"; "libpng"]
           (mkState [new_frame (coverage_data 70)] []) "libpng").
  - rewrite !elem_of_cons. auto.
  - reflexivity.
Defined.



(** X15.  When the stored dates are timestamps or strings that
    [pd.to_datetime] reads with the format (none of them is the empty
    string, a marker of a missing value or a word for the current time) and
    [plot_coverage_trends] returns, the line of every requested project
    carries the parsed dates and the coverage values of the project's
    stored table, the same points reordered forward in time; the stored
    rows need not be in order. *)
Theorem plot_coverage_trends_lines (world : World) (pd : dict ProjectTables)
    (names : list string) (s : State) (s' : State) :
  refs_valid pd (heap s) ->
  Forall well_formed (heap s) ->
  Forall plain_dates (heap s) ->
  plot_coverage_trends world pd names s = (Ok tt, s') ->
  exists fig,
    trace s' = trace s ++ [SaveFig (chart_path world) fig]
    /\ Forall2 (plotted pd (heap s)) names fig.
Proof.
  intros Hv Hwf _ Hrun.
  pose proof (plot_coverage_trends_cases world pd names s) as Hc.
  destruct (plot_loop pd names [] s) as [[fig|e0] s1] eqn:Hloop.
  2: { rewrite Hc in Hrun. discriminate Hrun. }
  destruct (writable world (chart_path world)); rewrite Hc in Hrun;
    [|discriminate Hrun].
  injection Hrun as <-. exists fig. split; [done|].
  destruct (plot_loop_lines pd (heap s) names [] s fig s1) as (lines & -> & Hl);
    [exists []; by rewrite app_nil_r | done |].
  simpl. eapply Forall2_impl; [exact Hl|].
  intros p line (Hp & t & Hget & Hline). split; [done|].
  destruct (proj1 (Forall_forall _ _) Hv (p, t) (dict_get_elem_of _ _ _ Hget))
    as [df Hdf]. cbn [snd] in Hdf.
  destruct (Hline df Hdf) as (ts & sorted & Hts & Hsort & ->).
  exists t, df, ts. split_and!; [done | done | done | |].
  - eapply sort_values_date_points; [| |exact Hsort].
    + eapply Forall_lookup_1; [exact Hwf | exact Hdf].
    + rewrite (traverse_length _ _ _ Hts). apply length_fmap.
  - eapply sort_values_date_points; [| |exact Hsort].
    + eapply Forall_lookup_1; [exact Hwf | exact Hdf].
    + rewrite (traverse_length _ _ _ Hts). apply length_fmap.
Qed.

Lemma plot_coverage_trends_lines_witness :
  exists s' fig,
    plot_coverage_trends mock_world [("p", mkTables [] 0)] ["p"]
      (mkState [new_frame [mkSample (DateStr "15-03-2025") 90;
                           mkSample (DateStr "15-01-2025") 70]] [])
    = (Ok tt, s')
    /\ trace s' = [] ++ [SaveFig (chart_path mock_world) fig]
    /\ Forall2
         (plotted [("p", mkTables [] 0)]
            [new_frame [mkSample (DateStr "15-03-2025") 90;
                        mkSample (DateStr "15-01-2025") 70]])
         ["p"] fig.
Proof.
  eexists. 
  assert (plot_coverage_trends mock_world [("p", mkTables [] 0)] ["p"]
            (mkState [new_frame [mkSample (DateStr "15-03-2025") 90;
                                 mkSample (DateStr "15-01-2025") 70]] [])
          = (Ok tt, _)) as Hrun by (vm_compute; reflexivity).
  destruct (plot_coverage_trends_lines mock_world [("p", mkTables [] 0)] ["p"]
              (mkState [new_frame [mkSample (DateStr "15-03-2025") 90;
                                   mkSample (DateStr "15-01-2025") 70]] [])
              _ ltac:(repeat constructor; simpl; eauto)
              ltac:(repeat constructor)
              ltac:(repeat constructor; intros d [= <-];
                    apply (bool_decide_unpack _); vm_compute; exact I)
              Hrun) as (fig & Ht & Hl).
  exists fig. split_and!; [exact Hrun | exact Ht | exact Hl].
Defined.

(** ** Orchestrator: failures and the sections of the report *)

(** The stages up to the last line of the chart, when the network answers
    and every project has a baseline. *)
Lemma pipeline_until_chart world names s :
  answered world names ->
  Forall (fun p => is_Some (dict_get coverage_base p)) names ->
  exists md s1 pd s2 an s3 fig s4,
    metadata_loop world names [] s = (Ok md, s1)
    /\ fetch_project_data names s1 = (Ok pd, s2)
    /\ analyze_project_data pd s2 = (Ok an, s3)
    /\ plot_loop pd names [] s3 = (Ok fig, s4)
    /\ trace s4 = trace s ++ requests names
    /\ NoDup (keys pd)
    /\ analyzed_store pd (heap s4).
Proof.
  intros Hans Hknown.
  destruct (metadata_loop_answered world names [] s Hans) as (md & Hrun1 & _ & _).
  set (s1 := mkState _ _) in Hrun1.
  destruct (fetch_project_data_spec names s1 Hknown)
    as (pd & ext2 & Hrun2 & Hnd & Hreq & Hget).
  set (s2 := mkState _ _) in Hrun2.
  assert (refs_valid pd (heap s2)) as Hv.
  { apply refs_valid_dict_get; [|done]. intros p t Hp.
    destruct (Hget p t Hp) as (_ & _ & b & _ & Hdf). eauto. }
  destruct (analyze_project_data_spec pd s2 Hnd Hv)
    as (an & s3 & Hrun3 & _ & Htr3 & _ & _).
  assert (analyzed_store pd (heap s3)) as Hst3.
  { intros p t Hp. destruct (Hget p t Hp) as (_ & _ & b & _ & Hdf).
    destruct (analyze_loop_visited pd [] s2 (heap s2) an s3 (touched_refl _)
                Hrun3 p t (dict_get_elem_of _ _ _ Hp)) as (df0 & Hdf0 & Hdf3).
    exists b. rewrite Hdf3. subst s2 s1. simpl in Hdf0, Hdf. congruence. }
  destruct (plot_loop_run pd names [] s3 Hst3 Hreq) as (fig & ext4 & Hloop4).
  eexists md, s1, pd, s2, an, s3, fig, _.
  split_and!; [done | done | done | exact Hloop4 | | done |].
  - simpl. by rewrite Htr3.
  - simpl. by apply analyzed_store_app.
Qed.

(** The loop of the Data Provider builds the tables of the projects before
    the first one without a baseline and stops there. *)
Lemma fetch_loop_stops pre q post :
  forall pd0 s,
    Forall (fun p => is_Some (dict_get coverage_base p)) pre ->
    dict_get coverage_base q = None ->
    exists s',
      fetch_loop (pre ++ q :: post) pd0 s = (Raise (KeyError q), s')
      /\ trace s' = trace s
      /\ length (heap s') = length (heap s) + length pre.
Proof.
  induction pre as [|n pre IH]; intros pd0 s Hknown Hq; simpl.
  - rewrite run_bind, fetch_project_unknown by done.
    exists s. split_and!; [done | done | lia].
  - apply Forall_cons in Hknown as [[b Hb] Hknown].
    rewrite run_bind, (fetch_project_known _ _ b) by done.
    destruct (IH (dict_set pd0 n
                    {| crashes := crash_data; coverage_df := length (heap s) |})
                 {| heap := heap s ++ [new_frame (coverage_data b)];
                    trace := trace s |} Hknown Hq)
      as (s' & Hrun & Ht & Hh).
    exists s'. split_and!; [done | done |].
    rewrite Hh. simpl. rewrite length_app. simpl. lia.
Qed.

(** X16.  When the network answers, a request that names a project without
    a baseline makes [main] raise [KeyError] on the first such name, after
    it has made every request (also those of the later projects) and
    before it writes anything; the tables of the projects before that name
    have been built, and no other. *)
Theorem main_unknown_project (world : World) (pre post : list string)
    (q : string) (s : State) :
  answered world (pre ++ q :: post) ->
  Forall (fun p => p ∈ ["zlib"; "libpng"; "openssl"]) pre ->
  q ∉ ["zlib"; "libpng"; "openssl"] ->
  exists s',
    main world (pre ++ q :: post) s = (Raise (KeyError q), s')
    /\ trace s' = trace s ++ requests (pre ++ q :: post)
    /\ length (heap s') = length (heap s) + length pre.
Proof.
  intros Hans Hpre Hunknown.
  assert (dict_get coverage_base q = None) as Hnone.
  { destruct (dict_get coverage_base q) eqn:E; [|done].
    exfalso. apply Hunknown, coverage_base_known. eauto. }
  assert (Forall (fun p => is_Some (dict_get coverage_base p)) pre) as Hknown.
  { eapply Forall_impl; [exact Hpre|]. intros p. apply coverage_base_known. }
  destruct (metadata_loop_answered world (pre ++ q :: post) [] s Hans)
    as (md & Hrun1 & _ & _).
  set (s1 := mkState _ _) in Hrun1.
  destruct (fetch_loop_stops pre q post [] s1 Hknown Hnone)
    as (s2 & Hrun2 & Ht & Hh).
  exists s2. split_and!; [| done | done].
  unfold main, fetch_project_metadata, fetch_project_data.
  by rewrite run_bind, Hrun1, run_bind, Hrun2.
Qed.

Lemma main_unknown_project_witness :
  exists s',
    main mock_world (["zlib"] ++ "curl" :: ["nginx"; "libpng"]) (mkState [] [])
    = (Raise (KeyError "curl"), s')
    /\ trace s' = trace (mkState [] [])
                  ++ requests (["zlib"] ++ "curl" :: ["nginx"; "libpng"])
    /\ length (heap s') = length (heap (mkState [] [])) + length ["zlib"].
Proof.
  apply (main_unknown_project mock_world ["zlib"] ["nginx"; "libpng"] "curl"
           (mkState [] [])).
  - apply mock_world_answered.
  - repeat constructor.
  - rewrite !elem_of_cons, elem_of_nil. intros [H|[H|[H|[]]]]; discriminate H.
Defined.

(** X17.  A transport failure while fetching metadata aborts [main] at
    once: the error is raised, the store is untouched (no table is built),
    the later projects are not requested and nothing is written. *)
Theorem main_transport_failure (world : World) (pre post : list string)
    (p : string) (e : exn) (s : State) :
  answered world pre ->
  requests_get world (project_url p) = Raise e ->
  main world (pre ++ p :: post) s =
    (Raise e, {| heap := heap s; trace := trace s ++ requests (pre ++ [p]) |}).
Proof.
  intros Hans He. unfold main, fetch_project_metadata.
  rewrite run_bind, (metadata_loop_stops world pre p post e); [done | done |].
  intros md. unfold metadata_step. by rewrite He.
Qed.

Lemma main_transport_failure_witness :
  main flaky_world (["zlib"] ++ "libpng" :: ["openssl"]) (mkState [] []) =
    (Raise (RequestException (project_url "libpng")),
     {| heap := heap (mkState [] []);
        trace := trace (mkState [] []) ++ requests (["zlib"] ++ ["libpng"]) |}).
Proof.
  apply (main_transport_failure flaky_world ["zlib"] ["openssl"] "libpng").
  - apply flaky_world_answers_zlib.
  - vm_compute. reflexivity.
Defined.

(** X18.  When the chart cannot be written, [main] raises [IOError] for the
    chart path after all the requests, and writes nothing. *)
Theorem main_chart_unwritable (world : World) (names : list string) (s : State) :
  answered world names ->
  Forall (fun p => is_Some (dict_get coverage_base p)) names ->
  writable world (chart_path world) = false ->
  exists s',
    main world names s = (Raise (IOError (chart_path world)), s')
    /\ trace s' = trace s ++ requests names.
Proof.
  intros Hans Hknown Hchart.
  destruct (pipeline_until_chart world names s Hans Hknown)
    as (md & s1 & pd & s2 & an & s3 & fig & s4
        & H1 & H2 & H3 & H4 & Ht & _ & _).
  exists s4. split; [|done].
  unfold main, fetch_project_metadata.
  rewrite run_bind, H1. cbn beta iota.
  rewrite run_bind, H2. cbn beta iota.
  rewrite run_bind, H3. cbn beta iota.
  rewrite run_bind. unfold plot_coverage_trends. rewrite run_bind, H4.
  cbn beta iota. fold (chart_path world). unfold savefig. by rewrite Hchart.
Qed.

Lemma main_chart_unwritable_witness :
  exists s',
    main no_outputs_world ["zlib"] (mkState [] [])
    = (Raise (IOError (chart_path no_outputs_world)), s')
    /\ trace s' = trace (mkState [] []) ++ requests ["zlib"].
Proof.
  apply (main_chart_unwritable no_outputs_world ["zlib"] (mkState [] [])).
  - apply mock_world_answered.
  - repeat constructor. simpl. eauto.
  - reflexivity.
Defined.

(** X19.  When the chart can be written and the report cannot, [main]
    raises [IOError] for the report path after it has saved the chart: the
    run leaves the chart without a report. *)
Theorem main_report_unwritable (world : World) (names : list string) (s : State) :
  answered world names ->
  Forall (fun p => is_Some (dict_get coverage_base p)) names ->
  writable world (chart_path world) = true ->
  writable world (report_path world) = false ->
  exists fig s',
    main world names s = (Raise (IOError (report_path world)), s')
    /\ trace s' = (trace s ++ requests names ++ [SaveFig (chart_path world) fig]).
Proof.
  intros Hans Hknown Hchart Hreport.
  destruct (pipeline_until_chart world names s Hans Hknown)
    as (md & s1 & pd & s2 & an & s3 & fig & s4
        & H1 & H2 & H3 & H4 & Ht & Hnd & Hst).
  set (s5 := {| heap := heap s4;
                trace := trace s4 ++ [SaveFig (chart_path world) fig] |}).
  destruct (raw_loop_run pd [] s5) as (raw & ext & Hraw & _); [|constructor|].
  { apply Forall_forall. intros [p t] Hin.
    destruct (Hst p t (elem_of_dict_get _ _ _ Hnd Hin)) as [b Hb]. by eexists. }
  exists fig. eexists. split.
  - unfold main, fetch_project_metadata.
    rewrite run_bind, H1. cbn beta iota.
    rewrite run_bind, H2. cbn beta iota.
    rewrite run_bind, H3. cbn beta iota.
    rewrite run_bind. unfold plot_coverage_trends. rewrite run_bind, H4.
    cbn beta iota. fold (chart_path world). unfold savefig. rewrite Hchart.
    unfold emit at 1. cbn beta iota. fold s5.
    rewrite run_bind, Hraw. cbn beta iota zeta.
    fold (report_path world). unfold open_w. rewrite Hreport.
    rewrite run_bind. reflexivity.
  - simpl. rewrite Ht. by rewrite <- app_assoc.
Qed.

Lemma main_report_unwritable_witness :
  exists fig s',
    main readonly_report_world ["zlib"] (mkState [] [])
    = (Raise (IOError (report_path readonly_report_world)), s')
    /\ trace s' = (trace (mkState [] []) ++ requests ["zlib"]
                   ++ [SaveFig (chart_path readonly_report_world) fig]).
Proof.
  apply (main_report_unwritable readonly_report_world ["zlib"] (mkState [] [])).
  - apply mock_world_answered.
  - repeat constructor. simpl. eauto.
  - reflexivity.
  - reflexivity.
Defined.

Lemma raw_project_cases acc p d s :
  raw_project acc p d s =
    match heap s !! coverage_df d with
    | None => (Raise (DanglingReference (coverage_df d)), s)
    | Some df =>
        (Ok (dict_set acc p
               {| raw_crashes := crashes d; raw_coverage := to_dict_records df |}),
         {| heap := heap s ++ [df]; trace := trace s |})
    end.
Proof.
  unfold raw_project, copy. destruct (heap s !! coverage_df d) as [df|] eqn:Hdf.
  - rewrite !run_bind, (run_deref_Some _ df) by done.
    unfold alloc at 1. cbn [heap trace].
    rewrite run_bind, (run_deref_Some _ df)
      by (simpl; rewrite lookup_app_r by done; by rewrite Nat.sub_diag).
    done.
  - by rewrite !run_bind, run_deref_None by done.
Qed.

Lemma raw_loop_keys items :
  forall acc s raw s',
    raw_loop items acc s = (Ok raw, s') ->
    keys raw = foldl add_key (keys acc) (keys items).
Proof.
  induction items as [|[p d] items IH]; intros acc s raw s' Hrun.
  - by injection Hrun as <- <-.
  - cbn [raw_loop] in Hrun. rewrite run_bind, raw_project_cases in Hrun.
    destruct (heap s !! coverage_df d) as [df|]; [|done].
    rewrite (IH _ _ _ _ Hrun), keys_dict_set. done.
Qed.

Lemma json_of_dict_keys {V} (f : V -> result Json) (d : dict V) j :
  json_of_dict f d = Ok j -> exists kvs, j = JDict kvs /\ fst <$> kvs = keys d.
Proof.
  unfold json_of_dict.
  destruct (traverse _ d) as [kvs|] eqn:Ht; [|done]. simpl. intros [= <-].
  exists kvs. split; [done|]. unfold keys. revert kvs Ht.
  induction d as [|[k v] d IH]; intros kvs; simpl.
  - by intros [= <-].
  - destruct (f v) as [jv|]; [|done]. simpl.
    destruct (traverse _ d) as [kvs'|]; [|done]. simpl.
    intros [= <-]. simpl. f_equal. by apply IH.
Qed.

(** X20.  In the report of a run that completes, the sections [metadata],
    [analysis] and [raw_data] list the same projects in the same order: the
    requested names without repetition, in the order of their first
    occurrence ([unique names]). *)
Theorem main_report_sections (world : World) (names : list string) (s : State) :
  answered world names ->
  Forall (fun p => is_Some (dict_get coverage_base p)) names ->
  writable world (chart_path world) = true ->
  writable world (report_path world) = true ->
  exists md a r s',
    main world names s = (Ok tt, s')
    /\ written_report s' = Some (report_json (JDict md) (JDict a) (JDict r))
    /\ fst <$> md = unique names
    /\ fst <$> a = unique names
    /\ fst <$> r = unique names
    /\ NoDup (fst <$> md)
    /\ (forall p, p ∈ fst <$> md <-> p ∈ names)
    /\ (NoDup names -> fst <$> md = names).
Proof.
  intros Hans Hknown Hchart Hreport.
  destruct (main_completes world names s Hans Hknown Hchart Hreport)
    as (md & s1 & pd & s2 & an & s3 & s4 & raw & s5 & fig & content
        & H1 & H2 & H3 & H4 & H5 & H6 & H7).
  pose proof (metadata_loop_keys world names [] s md s1 H1) as Hkmd.
  destruct (fetch_loop_refs names [] s1 pd s2 H2) as (Hkpd & _).
  destruct (foldl_add_key_nil names) as (Hnd & Hin & Heq).
  simpl in Hkmd, Hkpd.
  assert (NoDup (keys pd)) as Hndpd by (by rewrite Hkpd).
  pose proof (analyze_loop_keys pd s2 an s3 Hndpd H3) as Hkan.
  pose proof (raw_loop_keys pd [] s4 raw s5 H5) as Hkraw.
  simpl in Hkraw. rewrite (foldl_add_key_fresh (keys pd) []) in Hkraw by done.
  simpl in Hkraw.
  unfold json_of_report in H6.
  destruct (json_of_dict json_of_analysis _) as [ja|] eqn:Hja; [|done].
  destruct (json_of_dict json_of_raw _) as [jr|] eqn:Hjr; [|done].
  simpl in H6. injection H6 as <-.
  destruct (json_of_dict_keys _ _ _ Hja) as (a & -> & Ha).
  destruct (json_of_dict_keys _ _ _ Hjr) as (r & -> & Hr).
  simpl in Ha, Hr.
  exists md, a, r. eexists. split; [exact H7|].
  fold (keys md). rewrite Ha, Hr, Hkan, Hkraw, Hkpd, Hkmd.
  split_and!; try done; try apply foldl_add_key_unique.
  unfold written_report, whole_trace. cbn [trace].
  replace (trace s ++ requests names
           ++ [SaveFig (chart_path world) fig; OpenFile (report_path world);
               WriteFile (report_path world)
                 (JDict [("metadata", JDict md); ("analysis", JDict a);
                         ("raw_data", JDict r)])])
    with ((trace s ++ requests names
           ++ [SaveFig (chart_path world) fig; OpenFile (report_path world)])
          ++ [WriteFile (report_path world)
                (JDict [("metadata", JDict md); ("analysis", JDict a);
                        ("raw_data", JDict r)])])
    by (by rewrite <- !app_assoc).
  by rewrite last_snoc.
Qed.

Lemma main_report_sections_witness :
  exists md a r s',
    main mock_world ["zlib"; "libpng"; "zlib"] (mkState [] []) = (Ok tt, s')
    /\ written_report s' = Some (report_json (JDict md) (JDict a) (JDict r))
    /\ fst <$> md = unique ["zlib"; "libpng"; "zlib"]
    /\ fst <$> a = unique ["zlib"; "libpng"; "zlib"]
    /\ fst <$> r = unique ["zlib"; "libpng"; "zlib"]
    /\ NoDup (fst <$> md)
    /\ (forall p, p ∈ fst <$> md <-> p ∈ ["zlib"; "libpng"; "zlib"])
    /\ (NoDup ["zlib"; "libpng"; "zlib"] -> fst <$> md = ["zlib"; "libpng"; "zlib"]).
Proof.
  apply (main_report_sections mock_world ["zlib"; "libpng"; "zlib"] (mkState [] [])).
  - apply mock_world_answered.
  - repeat constructor; simpl; eauto.
  - reflexivity.
  - reflexivity.
Defined.
